(** * mcp-youtube: the tool registry, the dispatcher and the transcript tool

    A shallow embedding of [src/mcp_youtube/tools.py] and
    [src/mcp_youtube/server.py].

    Conventions of the embedding:
    - a Python [str] is the [string] of the bytes of its UTF-8 encoding (a
      surrogate, which a str can hold, by the three bytes of its number).
      The program splits and searches its strings at characters of ASCII
      only, and UTF-8 writes a character of ASCII as the one byte that
      appears in no other character: on the bytes these operations are what
      they are on the code points.  Where the code points themselves count
      (the escapes of JSON, the iteration over a str) they are decoded;
    - a Python [dict] with string keys is a [gmap string _] where only lookup
      matters, and an association list in insertion order where the order of
      the entries is observable (the JSON text of a dict);
    - a function that can raise returns a [result]; a function with effects on
      the cache directory, the transcript service or the log is a function of
      the [world] and returns the new one;
    - functions of the Python standard library are transcribed from CPython's
      [Lib/] (3.11, on Linux, with UTF-8 as the encoding of the locale); the
      parts of the libraries that are not transcribed are the fields of
      [PyLib] and of [Services]. *)

From Stdlib Require Import String Ascii ZArith List Bool Lia.
From Stdlib Require Import DecimalString DecimalZ DecimalPos DecimalFacts.
From stdpp Require Import base option gmap strings list.

(** ** Python strings *)

Module PyStr.

Definition chars (s : string) : list ascii := list_ascii_of_string s.

(** [c in s] for a one-character [c]. *)
Fixpoint has_char (c : ascii) (s : string) : bool :=
  match s with
  | EmptyString => false
  | String x s' => Ascii.eqb x c || has_char c s'
  end.

(** [s.startswith(p)]. *)
Fixpoint startswith (p s : string) : bool :=
  match p, s with
  | EmptyString, _ => true
  | String a p', String b s' => Ascii.eqb a b && startswith p' s'
  | String _ _, EmptyString => false
  end.

(** [sub in s]. *)
Fixpoint contains (sub s : string) : bool :=
  startswith sub s
  || match s with
     | EmptyString => false
     | String _ s' => contains sub s'
     end.

(** [s.split(sep)] for a one-character separator: never the empty list. *)
Fixpoint split (sep : ascii) (s : string) : list string :=
  match s with
  | EmptyString => [EmptyString]
  | String c s' =>
      if Ascii.eqb c sep then EmptyString :: split sep s'
      else match split sep s' with
           | seg :: segs => String c seg :: segs
           | [] => [String c EmptyString]
           end
  end.

(** [s.split(sep, 1)]: the text before the first [sep] and, when there is
    one, the text after it. *)
Fixpoint split1 (sep : ascii) (s : string) : string * option string :=
  match s with
  | EmptyString => (EmptyString, None)
  | String c s' =>
      if Ascii.eqb c sep then (EmptyString, Some s')
      else let '(a, b) := split1 sep s' in (String c a, b)
  end.

(** [l[-1]] and [l[0]] on the list a split returns. *)
Definition last_seg (l : list string) : string := List.last l EmptyString.
Definition first_seg (l : list string) : string := List.hd EmptyString l.

(** [s.lstrip(chars)], the characters given by a predicate. *)
Fixpoint lstrip (p : ascii → bool) (s : string) : string :=
  match s with
  | String c s' => if p c then lstrip p s' else s
  | EmptyString => EmptyString
  end.

(** [s.replace(c, "")] for every [c] that satisfies [p]. *)
Fixpoint remove (p : ascii → bool) (s : string) : string :=
  match s with
  | String c s' => if p c then remove p s' else String c (remove p s')
  | EmptyString => EmptyString
  end.

(** [s.replace(a, b)] for one-character [a] and [b]. *)
Fixpoint replace (a b : ascii) (s : string) : string :=
  match s with
  | String c s' => String (if Ascii.eqb c a then b else c) (replace a b s')
  | EmptyString => EmptyString
  end.

Definition code (c : ascii) : N := N_of_ascii c.

Definition in_range (lo hi : ascii) (c : ascii) : bool :=
  (code lo <=? code c)%N && (code c <=? code hi)%N.

Definition is_upper (c : ascii) : bool := in_range "A" "Z" c.
Definition is_lower (c : ascii) : bool := in_range "a" "z" c.
Definition is_digit (c : ascii) : bool := in_range "0" "9" c.

(** [c.isascii()]. *)
Definition isascii (c : ascii) : bool := (code c <? 128)%N.

Definition all_ascii (s : string) : bool := forallb isascii (chars s).

(** [c.lower()] on an ASCII letter. *)
Definition lower_char (c : ascii) : ascii :=
  if is_upper c then ascii_of_N (code c + 32) else c.

Fixpoint lower (s : string) : string :=
  match s with
  | String c s' => String (lower_char c) (lower s')
  | EmptyString => EmptyString
  end.

(** [sep.join(l)]. *)
Fixpoint join (sep : string) (l : list string) : string :=
  match l with
  | [] => EmptyString
  | [x] => x
  | x :: rest => x +:+ sep +:+ join sep rest
  end.

(** [not s]: the empty string is the only false one. *)
Definition is_empty (s : string) : bool :=
  match s with EmptyString => true | String _ _ => false end.

End PyStr.

(** ** The parts of the libraries that are taken as given *)

(** [urllib.parse] hands three jobs to other modules: percent-decoding with a
    UTF-8 decoder ([unquote] on a string that holds a percent sign), the
    address check of a bracketed host ([_check_bracketed_netloc], through
    [ipaddress]) and the NFKC check of a non-ASCII host ([_checknetloc],
    through [unicodedata]).  The two checks answer [false] where the library
    raises [ValueError]. *)
Class PyLib := {
  unquote_escaped : string → string;
  check_bracketed_netloc : string → bool;
  checknetloc_nfkc : string → bool;
}.

(** ** urllib.parse *)

Module Urllib.
Section urllib.
Context `{PyLib}.
Import PyStr.

Record ParseResult := {
  scheme : string;
  netloc : string;
  path : string;
  params : string;
  query : string;
  fragment : string;
}.

(** [_WHATWG_C0_CONTROL_OR_SPACE]: the code points up to U+0020. *)
Definition c0_control_or_space (c : ascii) : bool := (code c <=? 32)%N.

(** [_UNSAFE_URL_BYTES_TO_REMOVE]: tab, carriage return and line feed. *)
Definition unsafe_url_byte (c : ascii) : bool :=
  (code c =? 9)%N || (code c =? 13)%N || (code c =? 10)%N.

(** [scheme_chars]: the ASCII letters, the digits and [+-.]. *)
Definition scheme_char (c : ascii) : bool :=
  is_lower c || is_upper c || is_digit c || has_char c "+-.".

(** The scheme test of [urlsplit]: a colon that is not the first character,
    a first character that is an ASCII letter, and only scheme characters
    before the colon. *)
Definition split_scheme (url : string) : string * string :=
  match split1 ":" url with
  | (String c _ as before, Some after) =>
      if isascii c && (is_lower c || is_upper c)
         && forallb scheme_char (chars before)
      then (lower before, after)
      else (EmptyString, url)
  | _ => (EmptyString, url)
  end.

(** [_splitnetloc(url, 2)] on the text after the two slashes: the network
    location runs to the first of [/], [?] and [#]. *)
Fixpoint splitnetloc (s : string) : string * string :=
  match s with
  | EmptyString => (EmptyString, EmptyString)
  | String c s' =>
      if has_char c "/?#" then (EmptyString, s)
      else let '(n, r) := splitnetloc s' in (String c n, r)
  end.

(** The checks of [urlsplit] on the network location; [false] stands for
    the [ValueError] they raise. *)
Definition netloc_ok (netloc : string) : bool :=
  let lb := has_char "[" netloc in
  let rb := has_char "]" netloc in
  negb (xorb lb rb)
  && (if lb && rb then check_bracketed_netloc netloc else true)
  && (if is_empty netloc || all_ascii netloc then true
      else checknetloc_nfkc netloc).

Definition uses_params : list string :=
  [""; "ftp"; "hdl"; "prospero"; "http"; "imap"; "https"; "shttp"; "rtsp";
   "rtspu"; "sip"; "sips"; "mms"; "sftp"; "tel"].

(** [_splitparams]: the parameters follow the first semicolon of the last
    path segment. *)
Definition splitparams (url : string) : string * string :=
  let segs := split "/" url in
  match split1 ";" (last_seg segs) with
  | (before, Some after) => (join "/" (removelast segs ++ [before]), after)
  | (_, None) => (url, EmptyString)
  end.

(** [urlparse(url)]; [None] when it raises [ValueError]. *)
Definition urlparse (url : string) : option ParseResult :=
  let url := lstrip c0_control_or_space url in
  let url := remove unsafe_url_byte url in
  let '(scheme, url) := split_scheme url in
  let '(netloc, url) :=
    match url with
    | String "/" (String "/" rest) => splitnetloc rest
    | _ => (EmptyString, url)
    end in
  let '(url, fragment) :=
    match split1 "#" url with
    | (u, Some f) => (u, f)
    | (u, None) => (u, EmptyString)
    end in
  let '(url, query) :=
    match split1 "?" url with
    | (u, Some q) => (u, q)
    | (u, None) => (u, EmptyString)
    end in
  let '(url, params) :=
    if bool_decide (scheme ∈ uses_params) && has_char ";" url
    then splitparams url else (url, EmptyString) in
  if netloc_ok netloc
  then Some {| scheme := scheme; netloc := netloc; path := url;
               params := params; query := query; fragment := fragment |}
  else None.

(** [unquote(s)]: a string without a percent sign is returned as it is. *)
Definition unquote (s : string) : string :=
  if has_char "%" s then unquote_escaped s else s.

(** [parse_qsl(qs)] with its defaults: fields are separated by [&], a field
    without [=] or with an empty value is dropped. *)
Definition parse_qsl (qs : string) : list (string * string) :=
  flat_map
    (λ name_value,
       match split1 "=" name_value with
       | (name, Some value) =>
           if is_empty value then []
           else [(unquote (replace "+" " " name),
                  unquote (replace "+" " " value))]
       | (_, None) => []
       end)
    (split "&" qs).

(** [parse_qs(qs)]: the values of a name, in the order of the fields. *)
Definition parse_qs (qs : string) : gmap string (list string) :=
  foldl (λ parsed_result '(name, value),
           <[name := default [] (parsed_result !! name) ++ [value]]>
             parsed_result)
        ∅ (parse_qsl qs).

End urllib.
End Urllib.

(** ** json *)

Module Json.
Import PyStr.

(** The Python values that take part: what [json.loads] can return and
    what the transcript service hands over.  A str is carried by the bytes
    of its UTF-8 encoding (see [utf8] below).  A float is carried by a text
    that denotes it: the text of the number in a file that is read, the text
    [float.__repr__] writes for a float that is written; [float_repr] tells
    the texts that are both.  The handler never compares or prints a float:
    it passes it from the service to the file and back.  The decoder and
    the encoder are those of [json] up to the two limits the interpreter
    sets of its own: the 4300 digits of an int, which [within_limits] tells
    and the handler applies, and the recursion limit, which the nesting of
    a value is taken not to reach. *)
Unset Elimination Schemes.
Inductive pyval :=
| PNone
| PBool (b : bool)
| PInt (n : Z)
| PFloat (repr : string)
| PStr (s : string)
| PList (items : list pyval)
| PDict (entries : list (string * pyval)).
Set Elimination Schemes.

(** Induction on values, with the items of a list and the values of a dict
    as induction hypotheses. *)
Definition pyval_ind (P : pyval → Prop)
    (HNone : P PNone) (HBool : ∀ b, P (PBool b)) (HInt : ∀ n, P (PInt n))
    (HFloat : ∀ repr, P (PFloat repr)) (HStr : ∀ s, P (PStr s))
    (HList : ∀ items, Forall P items → P (PList items))
    (HDict : ∀ entries, Forall (λ kv, P kv.2) entries → P (PDict entries))
  : ∀ v, P v :=
  fix go (v : pyval) : P v :=
    match v with
    | PNone => HNone
    | PBool b => HBool b
    | PInt n => HInt n
    | PFloat repr => HFloat repr
    | PStr s => HStr s
    | PList items =>
        HList items
          ((fix all (l : list pyval) : Forall P l :=
              match l with
              | [] => List.Forall_nil P
              | x :: l' => @List.Forall_cons _ P x l' (go x) (all l')
              end) items)
    | PDict entries =>
        HDict entries
          ((fix all (l : list (string * pyval))
              : Forall (λ kv, P kv.2) l :=
              match l with
              | [] => List.Forall_nil _
              | kv :: l' => @List.Forall_cons _ _ kv l' (go kv.2) (all l')
              end) entries)
    end.

Definition dquote : ascii := Eval cbv in ascii_of_nat 34.
Definition backslash : ascii := Eval cbv in ascii_of_nat 92.
Definition ch_bs : ascii := Eval cbv in ascii_of_nat 8.
Definition ch_tab : ascii := Eval cbv in ascii_of_nat 9.
Definition ch_lf : ascii := Eval cbv in ascii_of_nat 10.
Definition ch_ff : ascii := Eval cbv in ascii_of_nat 12.
Definition ch_cr : ascii := Eval cbv in ascii_of_nat 13.

(** *** Text *)

Definition byte (n : N) : ascii := ascii_of_N n.

(** The bytes of one code point.  A surrogate, which a str can hold and
    UTF-8 has no place for, gets the three bytes the scheme gives it (the
    [surrogatepass] of the codec). *)
Definition utf8 (p : N) : string :=
  if (p <? 128)%N then String (byte p) EmptyString
  else if (p <? 2048)%N then
    String (byte (192 + p / 64)) (String (byte (128 + p mod 64)) EmptyString)
  else if (p <? 65536)%N then
    String (byte (224 + p / 4096))
      (String (byte (128 + (p / 64) mod 64))
         (String (byte (128 + p mod 64)) EmptyString))
  else
    String (byte (240 + p / 262144))
      (String (byte (128 + (p / 4096) mod 64))
         (String (byte (128 + (p / 64) mod 64))
            (String (byte (128 + p mod 64)) EmptyString))).

(** The six bits of a continuation byte. *)
Definition continuation (c : ascii) : option N :=
  if (128 <=? code c)%N && (code c <? 192)%N then Some (code c - 128)%N
  else None.

(** The code points of a text.  A byte that starts no sequence is taken as
    a code point of its own; a text with such a byte is the encoding of no
    str ([unicode_text] tells). *)
Fixpoint points (s : string) : list N :=
  match s with
  | EmptyString => []
  | String b0 r0 =>
      let n0 := code b0 in
      let alone := n0 :: points r0 in
      if (n0 <? 192)%N then alone
      else if (n0 <? 224)%N then
        match r0 with
        | String b1 r1 =>
            match continuation b1 with
            | Some n1 => ((n0 - 192) * 64 + n1)%N :: points r1
            | None => alone
            end
        | _ => alone
        end
      else if (n0 <? 240)%N then
        match r0 with
        | String b1 (String b2 r2) =>
            match continuation b1, continuation b2 with
            | Some n1, Some n2 =>
                (((n0 - 224) * 64 + n1) * 64 + n2)%N :: points r2
            | _, _ => alone
            end
        | _ => alone
        end
      else if (n0 <? 248)%N then
        match r0 with
        | String b1 (String b2 (String b3 r3)) =>
            match continuation b1, continuation b2, continuation b3 with
            | Some n1, Some n2, Some n3 =>
                ((((n0 - 240) * 64 + n1) * 64 + n2) * 64 + n3)%N :: points r3
            | _, _, _ => alone
            end
        | _ => alone
        end
      else alone
  end.

Definition encode (ps : list N) : string :=
  foldr (λ p text, utf8 p +:+ text) EmptyString ps.

Definition is_high_surrogate (p : N) : bool :=
  (55296 <=? p)%N && (p <=? 56319)%N.

Definition is_low_surrogate (p : N) : bool :=
  (56320 <=? p)%N && (p <=? 57343)%N.

(** A Unicode scalar value: a code point that is no surrogate. *)
Definition scalar (p : N) : bool :=
  (p <? 1114112)%N && negb (is_high_surrogate p || is_low_surrogate p).

(** The texts that are the UTF-8 of a str of scalar values: every str that
    can be written to a file or sent over the wire. *)
Definition unicode_text (s : string) : bool :=
  forallb scalar (points s) && String.eqb (encode (points s)) s.

(** *** Encoder *)

Definition hex_digit (n : N) : ascii :=
  if (n <? 10)%N then ascii_of_N (48 + n) else ascii_of_N (87 + n).

(** [ESCAPE_DCT] and the replacement function of
    [py_encode_basestring_ascii]: everything outside [' '..'~'], the quote
    and the backslash are escaped. *)
Definition escape_char (c : ascii) : string :=
  if Ascii.eqb c dquote then String backslash (String dquote EmptyString)
  else if Ascii.eqb c backslash
    then String backslash (String backslash EmptyString)
  else if Ascii.eqb c ch_lf then String backslash "n"
  else if Ascii.eqb c ch_cr then String backslash "r"
  else if Ascii.eqb c ch_tab then String backslash "t"
  else if Ascii.eqb c ch_bs then String backslash "b"
  else if Ascii.eqb c ch_ff then String backslash "f"
  else if (32 <=? code c)%N && (code c <=? 126)%N then String c EmptyString
  else String backslash
         (String "u" (String "0" (String "0"
            (String (hex_digit (code c / 16))
               (String (hex_digit (code c mod 16)) EmptyString))))).

(** Four hexadecimal digits, as [format(n, "04x")] writes them. *)
Definition hex4 (n : N) : string :=
  String (hex_digit (n / 4096))
    (String (hex_digit ((n / 256) mod 16))
       (String (hex_digit ((n / 16) mod 16))
          (String (hex_digit (n mod 16)) EmptyString))).

Definition escape_u (n : N) : string := String backslash (String "u" (hex4 n)).

(** The replacement of one character: a character of ASCII as
    [escape_char] has it, another one of the basic plane by its number,
    one beyond it by the two surrogates of its number. *)
Definition escape_point (p : N) : string :=
  if (p <? 128)%N then escape_char (byte p)
  else if (p <? 65536)%N then escape_u p
  else
    let n := (p - 65536)%N in
    escape_u (N.lor 55296 (N.land (N.shiftr n 10) 1023))
    +:+ escape_u (N.lor 56320 (N.land n 1023)).

Definition escape (s : string) : string :=
  foldr (λ p text, escape_point p +:+ text) EmptyString (points s).

Definition encode_basestring_ascii (s : string) : string :=
  String dquote (escape s +:+ String dquote EmptyString).

(** [int.__repr__]. *)
Definition int_repr (n : Z) : string := NilZero.string_of_int (Z.to_int n).

(** [json.dumps(v, indent=None)]: the separators are [", "] and [": "]. *)
Fixpoint dumps (v : pyval) : string :=
  match v with
  | PNone => "null"
  | PBool true => "true"
  | PBool false => "false"
  | PInt n => int_repr n
  | PFloat repr => repr
  | PStr s => encode_basestring_ascii s
  | PList items => "[" +:+ join ", " (map dumps items) +:+ "]"
  | PDict entries =>
      "{" +:+ join ", "
                (map (λ kv, encode_basestring_ascii kv.1 +:+ ": "
                            +:+ dumps kv.2) entries)
          +:+ "}"
  end.

(** *** Decoder *)

Definition is_ws (c : ascii) : bool :=
  Ascii.eqb c " " || Ascii.eqb c ch_tab || Ascii.eqb c ch_lf
  || Ascii.eqb c ch_cr.

Definition skip_ws (s : string) : string := lstrip is_ws s.

Definition hex_value (c : ascii) : option N :=
  if is_digit c then Some (code c - 48)%N
  else if in_range "a" "f" c then Some (code c - 87)%N
  else if in_range "A" "F" c then Some (code c - 55)%N
  else None.

(** [_decode_uXXXX]: four hexadecimal digits. *)
Definition decode_uXXXX (h1 h2 h3 h4 : ascii) : option N :=
  a ← hex_value h1; b ← hex_value h2;
  c ← hex_value h3; d ← hex_value h4;
  Some (((a * 16 + b) * 16 + c) * 16 + d)%N.

(** [BACKSLASH]: the one-letter escapes. *)
Definition backslash_escape (e : ascii) : option ascii :=
  if Ascii.eqb e dquote then Some dquote
  else if Ascii.eqb e backslash then Some backslash
  else if Ascii.eqb e "/" then Some "/"%char
  else if Ascii.eqb e "b" then Some ch_bs
  else if Ascii.eqb e "f" then Some ch_ff
  else if Ascii.eqb e "n" then Some ch_lf
  else if Ascii.eqb e "r" then Some ch_cr
  else if Ascii.eqb e "t" then Some ch_tab
  else None.

(** [scanstring(s, end, strict=True)] from just after the opening quote,
    as the C scanner of [_json] has it: the decoded string and the text
    after the closing quote.  A high surrogate that is followed by the
    escape of a low one makes one character with it. *)
Fixpoint scanstring (s : string) : option (string * string) :=
  match s with
  | EmptyString => None
  | String c rest =>
      if Ascii.eqb c dquote then Some (EmptyString, rest)
      else if Ascii.eqb c backslash then
        match rest with
        | EmptyString => None
        | String e rest1 =>
            if Ascii.eqb e "u" then
              match rest1 with
              | String h1 (String h2 (String h3 (String h4 rest2))) =>
                  uni ← decode_uXXXX h1 h2 h3 h4;
                  let single :=
                    '(str, r) ← scanstring rest2;
                    Some (utf8 uni +:+ str, r) in
                  if is_high_surrogate uni then
                    match rest2 with
                    | String b (String u
                        (String g1 (String g2 (String g3 (String g4 rest3)))))
                      =>
                        if Ascii.eqb b backslash && Ascii.eqb u "u" then
                          uni2 ← decode_uXXXX g1 g2 g3 g4;
                          if is_low_surrogate uni2 then
                            '(str, r) ← scanstring rest3;
                            Some (utf8 (65536
                                        + N.lor (N.shiftl (uni - 55296) 10)
                                                (uni2 - 56320))
                                  +:+ str, r)
                          else single
                        else single
                    | _ => single
                    end
                  else single
              | _ => None
              end
            else
              char ← backslash_escape e;
              '(str, r) ← scanstring rest1;
              Some (String char str, r)
        end
      else if (code c <? 32)%N then None
      else
        '(str, r) ← scanstring rest;
        Some (String c str, r)
  end.

(** [s[0:1] == c]. *)
Definition starts (c : ascii) (s : string) : bool :=
  match s with
  | String x _ => Ascii.eqb x c
  | EmptyString => false
  end.

(** [s[1:]]. *)
Definition tail (s : string) : string :=
  match s with
  | String _ r => r
  | EmptyString => EmptyString
  end.

(** The longest run of digits at the head of [s]. *)
Fixpoint span_digits (s : string) : string * string :=
  match s with
  | String c s' =>
      if is_digit c
      then let '(ds, r) := span_digits s' in (String c ds, r)
      else (EmptyString, s)
  | EmptyString => (EmptyString, EmptyString)
  end.

(** [NUMBER_RE], matched at the head of [s], one function per group: the
    integer (an optional minus, then a zero or a run of digits that does
    not start with a zero), the fraction (a dot and at least one digit) and
    the exponent (e or E, an optional sign, at least one digit).  Each
    returns its group and the text after it. *)
Definition match_unsigned (s : string) : option (string * string) :=
  if starts "0" s then Some ("0", tail s)
  else
    match span_digits s with
    | (EmptyString, _) => None
    | (ds, r) => Some (ds, r)
    end.

Definition match_integer (s : string) : option (string * string) :=
  if starts "-" s
  then '(ds, r) ← match_unsigned (tail s); Some (String "-" ds, r)
  else match_unsigned s.

Definition match_frac (s : string) : string * string :=
  if starts "." s then
    match span_digits (tail s) with
    | (EmptyString, _) => (EmptyString, s)
    | (ds, r) => (String "." ds, r)
    end
  else (EmptyString, s).

Definition match_exp (s : string) : string * string :=
  match s with
  | String e r =>
      if Ascii.eqb e "e" || Ascii.eqb e "E" then
        let '(sign, r1) :=
          if starts "-" r then ("-", tail r)
          else if starts "+" r then ("+", tail r)
          else (EmptyString, r) in
        match span_digits r1 with
        | (EmptyString, _) => (EmptyString, s)
        | (ds, r') => (String e (sign +:+ ds), r')
        end
      else (EmptyString, s)
  | EmptyString => (EmptyString, s)
  end.

(** The number branch of [scan_once]: a float when there is a fraction or
    an exponent, an int otherwise. *)
Definition match_number (s : string) : option (pyval * string) :=
  '(integer, r1) ← match_integer s;
  let '(frac, r2) := match_frac r1 in
  let '(exp, r3) := match_exp r2 in
  if is_empty frac && is_empty exp
  then n ← NilZero.int_of_string integer; Some (PInt (Z.of_int n), r3)
  else Some (PFloat (integer +:+ frac +:+ exp), r3).

Fixpoint drop (n : nat) (s : string) : string :=
  match n, s with
  | S n', String _ s' => drop n' s'
  | _, _ => s
  end.

(** [dict(pairs)]: a later value for a key replaces the earlier one, at the
    place of the earlier one. *)
Fixpoint dict_set (k : string) (v : pyval) (d : list (string * pyval))
  : list (string * pyval) :=
  match d with
  | [] => [(k, v)]
  | (k', v') :: d' =>
      if String.eqb k' k then (k, v) :: d' else (k', v') :: dict_set k v d'
  end.

Definition dict_of_pairs (pairs : list (string * pyval))
  : list (string * pyval) :=
  foldl (λ d kv, dict_set kv.1 kv.2 d) [] pairs.

Definition scanner := string → option (pyval * string).

(** The loop of [JSONArray], entered at the first value; [n] bounds the
    number of values. *)
Fixpoint array_loop (scan_once : scanner) (n : nat) (s : string)
  : option (list pyval * string) :=
  match n with
  | 0 => None
  | S n' =>
      '(value, r) ← scan_once s;
      let r := skip_ws r in
      if starts "]" r then Some ([value], tail r)
      else if starts "," r then
        '(values, r2) ← array_loop scan_once n' (skip_ws (tail r));
        Some (value :: values, r2)
      else None
  end.

(** [JSONArray] from just after the opening bracket. *)
Definition JSONArray (scan_once : scanner) (s : string)
  : option (pyval * string) :=
  let s := skip_ws s in
  if starts "]" s then Some (PList [], tail s)
  else
    '(values, r) ← array_loop scan_once (String.length s) s;
    Some (PList values, r).

(** The loop of [JSONObject], entered just after the opening quote of a
    key; [n] bounds the number of entries. *)
Fixpoint object_loop (scan_once : scanner) (n : nat) (s : string)
  : option (list (string * pyval) * string) :=
  match n with
  | 0 => None
  | S n' =>
      '(key, r) ← scanstring s;
      let r := skip_ws r in
      if starts ":" r then
        '(value, r2) ← scan_once (skip_ws (tail r));
        let r2 := skip_ws r2 in
        if starts "}" r2 then Some ([(key, value)], tail r2)
        else if starts "," r2 then
          let r3 := skip_ws (tail r2) in
          if starts dquote r3 then
            '(pairs, r4) ← object_loop scan_once n' (tail r3);
            Some ((key, value) :: pairs, r4)
          else None
        else None
      else None
  end.

(** [JSONObject] from just after the opening brace. *)
Definition JSONObject (scan_once : scanner) (s : string)
  : option (pyval * string) :=
  let s := skip_ws s in
  if starts "}" s then Some (PDict [], tail s)
  else if starts dquote s then
    '(pairs, r) ← object_loop scan_once (String.length s) (tail s);
    Some (PDict (dict_of_pairs pairs), r)
  else None.

(** [scan_once]; [depth] bounds the nesting, and [None] is the
    [StopIteration] or [JSONDecodeError] of the decoder. *)
Fixpoint scan_once (depth : nat) (s : string) : option (pyval * string) :=
  match depth with
  | 0 => None
  | S depth' =>
      match s with
      | EmptyString => None
      | String c rest =>
          if Ascii.eqb c dquote then
            '(str, r) ← scanstring rest; Some (PStr str, r)
          else if Ascii.eqb c "{" then JSONObject (scan_once depth') rest
          else if Ascii.eqb c "[" then JSONArray (scan_once depth') rest
          else if startswith "null" s then Some (PNone, drop 4 s)
          else if startswith "true" s then Some (PBool true, drop 4 s)
          else if startswith "false" s then Some (PBool false, drop 5 s)
          else
            match match_number s with
            | Some res => Some res
            | None =>
                if startswith "NaN" s then Some (PFloat "NaN", drop 3 s)
                else if startswith "Infinity" s
                  then Some (PFloat "Infinity", drop 8 s)
                else if startswith "-Infinity" s
                  then Some (PFloat "-Infinity", drop 9 s)
                else None
            end
      end
  end.

(** [json.loads(s)]: one value, with white space around it and nothing
    else; [None] is [JSONDecodeError]. *)
Definition loads (s : string) : option pyval :=
  let s1 := skip_ws s in
  '(obj, r) ← scan_once (String.length s1) s1;
  if is_empty (skip_ws r) then Some obj else None.

(** *** The values that are written and read back unchanged *)

(** The text of a float as the decoder reads it: what [NUMBER_RE] matches
    in full with a fraction or an exponent, or one of the three constants
    for the floats that are not finite. *)
Definition float_text (repr : string) : bool :=
  match match_number repr with
  | Some (PFloat l, EmptyString) => String.eqb l repr
  | _ => false
  end
  || String.eqb repr "NaN" || String.eqb repr "Infinity"
  || String.eqb repr "-Infinity".

(** [s.endswith(c)] for a one-character [c]. *)
Fixpoint ends_with (c : ascii) (s : string) : bool :=
  match s with
  | EmptyString => false
  | String x EmptyString => Ascii.eqb x c
  | String _ s' => ends_with c s'
  end.

Definition all_digits (s : string) : bool :=
  negb (is_empty s) && forallb is_digit (chars s).

(** The positional texts [float.__repr__] writes: digits, a dot, digits,
    with no zero before the whole part or after the fraction that could be
    left out.  A text of this shape with at most 15 significant digits and
    a value from 0.0001 on denotes a float whose repr is this text: the
    format holds 15 decimal digits, and repr writes the fewest digits that
    denote the float, in positional notation from 1e-4 to 1e16. *)
Definition decimal_repr (repr : string) : bool :=
  let body := if starts "-" repr then tail repr else repr in
  match split1 "." body with
  | (whole, Some frac) =>
      all_digits whole && all_digits frac
      && (String.eqb whole "0" || negb (starts "0" whole))
      && (String.eqb frac "0" || negb (ends_with "0" frac))
      && (String.length whole
          + (if String.eqb frac "0" then 0 else String.length frac) <=? 15)
      && negb (String.eqb whole "0" && startswith "0000" frac)
  | (_, None) => false
  end.

(** The texts of a finite float that [json.dumps] writes and [json.loads]
    reads back as the same float. *)
Definition float_repr (repr : string) : bool :=
  float_text repr && decimal_repr repr.

(** [sys.get_int_max_str_digits()]: an int of more digits is neither
    written nor read, both conversions raise [ValueError]. *)
Definition max_str_digits : nat := 4300.

Definition int_digits (n : Z) : nat := String.length (int_repr (Z.abs n)).

Definition int_fits (n : Z) : bool := int_digits n <=? max_str_digits.

(** The values all of whose ints are within the limit. *)
Fixpoint within_limits (v : pyval) : bool :=
  match v with
  | PInt n => int_fits n
  | PList items => forallb within_limits items
  | PDict entries => forallb (λ kv, within_limits kv.2) entries
  | _ => true
  end.

Fixpoint distinct (keys : list string) : bool :=
  match keys with
  | [] => true
  | k :: keys' => negb (bool_decide (k ∈ keys')) && distinct keys'
  end.

(** A value as a Python value is and as [json] writes it and reads it back:
    its strings and keys are texts, its ints are within the limit, its
    floats are finite and carried by their repr, and its dicts have one
    entry per key. *)
Fixpoint plain (v : pyval) : bool :=
  match v with
  | PNone | PBool _ => true
  | PInt n => int_fits n
  | PStr s => unicode_text s
  | PFloat repr => float_repr repr
  | PList items => forallb plain items
  | PDict entries =>
      distinct (map fst entries)
      && forallb (λ kv, unicode_text kv.1 && plain kv.2) entries
  end.

(** *** Notions the facts about the decoder are stated with *)

(** What may follow a number in the text [dumps] writes: nothing, a comma
    or a closing bracket or brace. *)
Definition number_stop (t : string) : bool :=
  match t with
  | EmptyString => true
  | String c _ => has_char c ",]}"
  end.

Definition extend (t : string) {A} (p : A * string) : A * string :=
  (p.1, p.2 +:+ t).

Definition leading_zero (d : Decimal.uint) : bool :=
  match d with Decimal.D0 _ => true | _ => false end.

(** The characters a number and a value can start with. *)
Definition number_start (c : ascii) : bool :=
  Ascii.eqb c "-" || is_digit c.

Definition value_start (c : ascii) : bool :=
  number_start c
  || has_char c (String dquote "{[ntfNI").

Definition value_head (s : string) : Prop :=
  ∃ c s', s = String c s' ∧ value_start c = true.

(** [scan] reads the text of [v] back, whatever follows it. *)
Definition reads_back (scan : scanner) (v : pyval) : Prop :=
  value_head (dumps v)
  ∧ ∀ r, number_stop r = true → scan (dumps v +:+ r) = Some (v, r).

(** The text of one entry of a dict. *)
Definition entry_text (kv : string * pyval) : string :=
  encode_basestring_ascii kv.1 +:+ ": " +:+ dumps kv.2.

End Json.


(** ** Exceptions, results and the world *)

Import PyStr Json.

(** The exception classes that occur, with the classes they derive from.
    [LibraryError] stands for the error classes of the transcript library,
    which derive from [Exception]. *)
Inductive exn_class :=
| BaseException | Exception
| TypeError | ValueError | RuntimeError | NotImplementedError
| LookupError | KeyError | AttributeError
| OSError | FileNotFoundError | NotADirectoryError
| UnicodeError | UnicodeDecodeError | JSONDecodeError | ValidationError
| KeyboardInterrupt | SystemExit | CancelledError
| LibraryError (name : string).

Global Instance exn_class_eq_dec : EqDecision exn_class.
Proof. solve_decision. Defined.

Definition exn_base (c : exn_class) : option exn_class :=
  match c with
  | BaseException => None
  | Exception | KeyboardInterrupt | SystemExit | CancelledError =>
      Some BaseException
  | TypeError | ValueError | RuntimeError | LookupError | AttributeError
  | OSError | LibraryError _ => Some Exception
  | NotImplementedError => Some RuntimeError
  | KeyError => Some LookupError
  | FileNotFoundError | NotADirectoryError => Some OSError
  | UnicodeError | JSONDecodeError | ValidationError => Some ValueError
  | UnicodeDecodeError => Some UnicodeError
  end.

(** [issubclass(c, d)]; no chain of bases is longer than four. *)
Fixpoint issubclass_upto (n : nat) (c d : exn_class) : bool :=
  bool_decide (c = d)
  || match n, exn_base c with
     | S n', Some b => issubclass_upto n' b d
     | _, _ => false
     end.

Definition issubclass_exn (c d : exn_class) : bool := issubclass_upto 4 c d.

(** An exception: its class and [str(e)]. *)
Record exn := { exn_type : exn_class; exn_str : string }.

Inductive result (A : Type) :=
| Ok (a : A)
| Raise (e : exn).
Arguments Ok {A} a.
Arguments Raise {A} e.

Global Instance result_ret : MRet result := λ A a, Ok a.
Global Instance result_bind : MBind result :=
  λ A B f m, match m with Ok a => f a | Raise e => Raise e end.

Definition throw {A} (c : exn_class) (msg : string) : result A :=
  Raise {| exn_type := c; exn_str := msg |}.

(** What the program asks of the outside, in the order it asks: the calls
    on the cache directory and its files, whether they succeed or fail, the
    calls of the service and the entries of the log. *)
Inductive event :=
| EvMkdir
| EvExists (file : string)
| EvRead (file : string)
| EvWrite (file : string)
| EvFetch (video_id : string)
| EvLog (msg : string).

Global Instance event_eq_dec : EqDecision event.
Proof. solve_decision. Defined.

(** The directory [xdg_cache_home() / "mcp-youtube" / "transcripts"]:
    whether it exists, and the files in it with their contents, as bytes;
    and the events so far.  The directory holds plain files and nothing
    else, which is how the program leaves it: a key of [cache_files] is the
    name of a file, and there are files only when there is a directory.
    What can go wrong with a name is in the model ([path_error]); what can
    go wrong with the disk, the permissions or the path above the directory
    is not. *)
Record world := {
  cache_dir : bool;
  cache_files : gmap string string;
  trace : list event;
}.

(** The transcript service and the texts the libraries make of their own:
    pydantic's error text, [str(e)] for an [OSError] with its number and its
    path and for a [UnicodeDecodeError], the exception [json.loads] raises
    on a text it does not read (a [JSONDecodeError] that tells the place,
    or the [ValueError] of the limit on the digits of an int, whichever
    comes first in the text), and [str(v)] of a list or a dict.  The answer
    of the service may depend on everything that happened before. *)
Class Services := {
  get_transcript : list event → string → result pyval;
  validation_error_str :
    string → list (string * string) → list (string * pyval) → string;
  os_error_str : N → string → string;
  unicode_error_str : string → string;
  loads_error : string → exn;
  format_value : pyval → string;
}.

(** A computation on the world that may raise. *)
Definition M (A : Type) : Type := world → result A * world.

Global Instance M_ret : MRet M := λ A a w, (Ok a, w).
Global Instance M_bind : MBind M :=
  λ A B f m w,
    match m w with
    | (Ok a, w') => f a w'
    | (Raise e, w') => (Raise e, w')
    end.

Definition raise {A} (c : exn_class) (msg : string) : M A :=
  λ w, (throw c msg, w).

Definition lift {A} (r : result A) : M A := λ w, (r, w).

Definition emit (ev : event) (w : world) : world :=
  {| cache_dir := cache_dir w; cache_files := cache_files w;
     trace := trace w ++ [ev] |}.

(** [try: body except Exception as e: handler(e)]. *)
Definition try_except_Exception {A} (body : M A) (handler : exn → M A)
  : M A :=
  λ w,
    match body w with
    | (Ok a, w') => (Ok a, w')
    | (Raise e, w') =>
        if issubclass_exn (exn_type e) Exception then handler e w'
        else (Raise e, w')
    end.

(** [logger.exception(msg)]. *)
Definition logger_exception (msg : string) : M unit :=
  λ w, (Ok (), emit (EvLog msg) w).

(** *** Paths below the directory *)

Definition nul : ascii := Eval cbv in ascii_of_nat 0.

(** [NAME_MAX]: the bytes the name of a file can have. *)
Definition NAME_MAX : nat := 255.

Definition too_long (name : string) : bool := NAME_MAX <? String.length name.

(** The steps of a path as pathlib keeps them: the empty ones and the dots
    are dropped. *)
Definition path_parts (file : string) : list string :=
  List.filter (λ step, negb (is_empty step || String.eqb step "."))
              (split "/" file).

(** Where [transcripts_dir.joinpath(file)] leads.  A text without a slash
    is the name of an entry of the directory.  A path of several steps
    whose first step is a name leads below that name.  Every other text
    leads elsewhere: it begins at the root (a leading slash makes
    [joinpath] drop the directory) or with [..], or it is another spelling
    of a shorter path (a leading dot, a trailing slash), or it is empty or
    a dot and names the directory itself. *)
Inductive place := entry | below | elsewhere.

Definition place_of (file : string) : place :=
  let first := first_seg (split "/" file) in
  if is_empty first || String.eqb first "." || String.eqb first ".."
  then elsewhere
  else
    match path_parts file with
    | [_] => if has_char "/" file then elsewhere else entry
    | _ => below
    end.

(** The paths the model follows: those that lead to an entry or below one,
    and those that hold a NUL, which no system call takes.  A path that
    leads elsewhere is taken as the name it is written as. *)
Definition followed (file : string) : bool :=
  has_char nul file
  || match place_of file with elsewhere => false | _ => true end.

Definition ENOENT : N := 2.
Definition ENOTDIR : N := 20.
Definition ENAMETOOLONG : N := 36.

(** The name on the path that is too long for the kernel to look up, if
    there is one: the name of the entry, or the first step of a path below
    one. *)
Definition name_too_long (file : string) : bool :=
  match place_of file with
  | entry => too_long file
  | below => too_long (first_seg (split "/" file))
  | elsewhere => false
  end.

(** The error of a system call on the path, if any, in the order the
    kernel walks the path: the directory is not there; a name is too long;
    the first step of a path below an entry is a file, or it is nothing
    (the directory has no directories in it). *)
Definition path_error (w : world) (file : string) : option N :=
  if negb (cache_dir w) then Some ENOENT
  else if name_too_long file then Some ENAMETOOLONG
  else
    match place_of file with
    | below =>
        if bool_decide (is_Some (cache_files w !! first_seg (split "/" file)))
        then Some ENOTDIR
        else Some ENOENT
    | _ => None
    end.

(** [text.replace("\r\n", "\n").replace("\r", "\n")]: the universal
    newlines of a file opened for reading as text. *)
Fixpoint universal_newlines (text : string) : string :=
  match text with
  | EmptyString => EmptyString
  | String c rest =>
      if Ascii.eqb c ch_cr then
        String ch_lf
          match rest with
          | String c' rest' =>
              if Ascii.eqb c' ch_lf then universal_newlines rest'
              else universal_newlines rest
          | EmptyString => EmptyString
          end
      else String c (universal_newlines rest)
  end.

Section cache.
Context `{Services}.

(** The [OSError] of a number: the class and the text. *)
Definition os_error (errno : N) (file : string) : exn :=
  {| exn_type := if (errno =? ENOENT)%N then FileNotFoundError
                 else if (errno =? ENOTDIR)%N then NotADirectoryError
                 else OSError;
     exn_str := os_error_str errno file |}.

(** [transcripts_dir.mkdir(parents=True, exist_ok=True)]. *)
Definition mkdir : M unit :=
  λ w, (Ok (), {| cache_dir := true; cache_files := cache_files w;
                  trace := trace w ++ [EvMkdir] |}).

(** [transcripts_dir.joinpath(file).exists()]: [stat] on the path.  It
    answers [False] for a path that leads to nothing ([ENOENT], [ENOTDIR])
    and for one with a NUL, and lets the error of a name that is too long
    pass.  Where it answers, the answer is whether the directory has the
    file: a path that leads to nothing is the name of no file. *)
Definition path_exists (file : string) : M bool :=
  λ w,
    (if negb (has_char nul file) && cache_dir w && name_too_long file
     then Raise (os_error ENAMETOOLONG file)
     else Ok (bool_decide (is_Some (cache_files w !! file))),
     emit (EvExists file) w).

(** [transcripts_dir.joinpath(file).write_text(data)]: the file is opened
    for writing, which creates it, and the text is written.  A failed call
    leaves the directory as it is.  The handler writes texts of ASCII, which
    no encoding refuses. *)
Definition write_text (file data : string) : M unit :=
  λ w,
    if has_char nul file
    then (throw ValueError "embedded null byte", emit (EvWrite file) w)
    else
      match path_error w file with
      | Some errno => (Raise (os_error errno file), emit (EvWrite file) w)
      | None =>
          (Ok (), {| cache_dir := cache_dir w;
                     cache_files := <[file := data]> (cache_files w);
                     trace := trace w ++ [EvWrite file] |})
      end.

(** [transcripts_dir.joinpath(file).read_text()]: the bytes of the file
    are decoded as UTF-8, and the ends of the lines are made line feeds. *)
Definition read_text (file : string) : M string :=
  λ w,
    (if has_char nul file then throw ValueError "embedded null byte"
     else
       match cache_files w !! file with
       | Some data =>
           if unicode_text data then Ok (universal_newlines data)
           else throw UnicodeDecodeError (unicode_error_str data)
       | None => Raise (os_error (default ENOENT (path_error w file)) file)
       end,
     emit (EvRead file) w).

End cache.

(** ** tools.py *)

(** *** Classes, tool descriptions and argument binding *)

Inductive field_type := TStr.

(** A declared field; the fields of the source have no default, so each is
    required. *)
Record field := { field_name : string; field_annotation : field_type }.

(** A class is known by the module that defines it and its name there. *)
Definition class_ref : Type := string * string.

Definition object_ref : class_ref := ("builtins", "object").
Definition BaseModel_ref : class_ref := ("pydantic.main", "BaseModel").
Definition ToolArgs_ref : class_ref := ("mcp_youtube.tools", "ToolArgs").
Definition DownloadClosedCaptions_ref : class_ref :=
  ("mcp_youtube.tools", "DownloadClosedCaptions").

(** A class: [__name__], [__module__], [__doc__], the classes along its
    method resolution order, itself first, and, for a pydantic model defined
    in the source, its declared fields. *)
Record pyclass := {
  cls_name : string;
  cls_module : string;
  cls_doc : option string;
  cls_mro : list class_ref;
  cls_fields : list field;
}.

Definition class_id (c : pyclass) : class_ref := (cls_module c, cls_name c).

Definition BaseModel : pyclass :=
  {| cls_name := "BaseModel"; cls_module := "pydantic.main"; cls_doc := None;
     cls_mro := [BaseModel_ref; object_ref]; cls_fields := [] |}.

(** [class ToolArgs(BaseModel)]. *)
Definition ToolArgs : pyclass :=
  {| cls_name := "ToolArgs"; cls_module := "mcp_youtube.tools";
     cls_doc := None;
     cls_mro := [ToolArgs_ref; BaseModel_ref; object_ref];
     cls_fields := [] |}.

(** [class DownloadClosedCaptions(ToolArgs)] with [video_url: str]. *)
Definition DownloadClosedCaptions : pyclass :=
  {| cls_name := "DownloadClosedCaptions"; cls_module := "mcp_youtube.tools";
     cls_doc := Some "Download closed captions from YouTube video.";
     cls_mro := [DownloadClosedCaptions_ref; ToolArgs_ref; BaseModel_ref;
                 object_ref];
     cls_fields := [ {| field_name := "video_url";
                        field_annotation := TStr |} ] |}.

(** The classes the module imports; only their names and bases matter. *)
Definition imported (name module : string) (bases : list class_ref)
  : pyclass :=
  {| cls_name := name; cls_module := module; cls_doc := None;
     cls_mro := (module, name) :: bases; cls_fields := [] |}.

Definition ServerSession : pyclass :=
  imported "ServerSession" "mcp.server.session"
           [("mcp.shared.session", "BaseSession"); ("typing", "Generic");
            object_ref].

(** [inspect.getmembers(tools, inspect.isclass)]: the classes in the
    namespace of the module, sorted by name. *)
Definition getmembers_isclass : list (string * pyclass) :=
  [ ("BaseModel", BaseModel);
    ("ConfigDict",
       imported "ConfigDict" "pydantic.config"
                [("builtins", "dict"); object_ref]);
    ("DownloadClosedCaptions", DownloadClosedCaptions);
    ("EmbeddedResource",
       imported "EmbeddedResource" "mcp.types" [BaseModel_ref; object_ref]);
    ("ImageContent",
       imported "ImageContent" "mcp.types" [BaseModel_ref; object_ref]);
    ("ServerSession", ServerSession);
    ("TextContent",
       imported "TextContent" "mcp.types" [BaseModel_ref; object_ref]);
    ("Tool", imported "Tool" "mcp.types" [BaseModel_ref; object_ref]);
    ("ToolArgs", ToolArgs);
    ("YouTubeTranscriptApi",
       imported "YouTubeTranscriptApi" "youtube_transcript_api._api"
                [object_ref]) ].

(** [c == d] on classes. *)
Definition same_class (c d : pyclass) : bool :=
  bool_decide (class_id c = class_id d).

(** [issubclass(c, d)]: [d] is on the method resolution order of [c]. *)
Definition issubclass (c d : pyclass) : bool :=
  bool_decide (class_id d ∈ cls_mro c).

(** [args.model_json_schema()]: title, description, one property per field
    and the names of the required fields. *)
Record JsonSchema := {
  schema_title : string;
  schema_description : option string;
  schema_properties : list (string * field_type);
  schema_required : list string;
}.

Definition model_json_schema (c : pyclass) : JsonSchema :=
  {| schema_title := cls_name c;
     schema_description := cls_doc c;
     schema_properties :=
       map (λ f, (field_name f, field_annotation f)) (cls_fields c);
     schema_required := map field_name (cls_fields c) |}.

Record Tool := {
  name : string;
  description : option string;
  inputSchema : JsonSchema;
}.

Definition tool_description (args : pyclass) : Tool :=
  {| name := cls_name args;
     description := cls_doc args;
     inputSchema := model_json_schema args |}.

(** An instance of a model: its class and its validated fields. *)
Record instance := {
  inst_class : pyclass;
  inst_fields : list (string * pyval);
}.

(** The objects handed to [tool_runner]. *)
Inductive pyobj :=
| OSession
| OInstance (i : instance).

Definition class_of (o : pyobj) : pyclass :=
  match o with
  | OSession => ServerSession
  | OInstance i => inst_class i
  end.

(** [d[k]] on an association list. *)
Fixpoint assoc {A} (k : string) (d : list (string * A)) : option A :=
  match d with
  | [] => None
  | (k', a) :: d' => if String.eqb k' k then Some a else assoc k d'
  end.

Section tools.
Context `{PyLib} `{Services}.
Import Urllib.

(** pydantic's validation of one field under the default configuration:
    a missing field and a value that is not a string are errors. *)
Definition validate_field (data : list (string * pyval)) (f : field)
  : (string * pyval) + (string * string) :=
  match assoc (field_name f) data, field_annotation f with
  | None, _ => inr (field_name f, "missing")
  | Some (PStr s), TStr => inl (field_name f, PStr s)
  | Some _, TStr => inr (field_name f, "string_type")
  end.

Definition lefts {A B} (l : list (A + B)) : list A :=
  omap (λ x, match x with inl a => Some a | inr _ => None end) l.
Definition rights {A B} (l : list (A + B)) : list B :=
  omap (λ x, match x with inl _ => None | inr b => Some b end) l.

(** The constructor call of a pydantic model with the default [ConfigDict()]:
    every field is validated, keys that name no field are ignored, and one
    [ValidationError] reports all the errors. *)
Definition model_init (cls : pyclass) (data : list (string * pyval))
  : result instance :=
  let checked := map (validate_field data) (cls_fields cls) in
  match rights checked with
  | [] => Ok {| inst_class := cls; inst_fields := lefts checked |}
  | errors =>
      throw ValidationError (validation_error_str (cls_name cls) errors data)
  end.

(** [tool_args] called with keyword arguments: the class of that name in the
    namespace of the module is called with the keywords.  A keyword called
    [tool] clashes with the first parameter.  Only the names in [mapping]
    reach the lookup, and they name classes. *)
Definition tool_args (tool : Tool) (kwargs : list (string * pyval))
  : result instance :=
  match assoc "tool" kwargs with
  | Some _ =>
      throw TypeError "tool_args() got multiple values for argument 'tool'"
  | None =>
      match assoc (name tool) getmembers_isclass with
      | Some cls => model_init cls kwargs
      | None => throw KeyError ("'" +:+ name tool +:+ "'")
      end
  end.

(** *** The URL parser *)

Definition _parse_youtube_url (url : string) : option string :=
  if contains "youtu.be" url
  then Some (first_seg (split "?" (last_seg (split "/" url))))
  else
    match urlparse url with
    | Some parsed_url =>
        if contains "youtube.com" (netloc parsed_url) then
          let params := parse_qs (query parsed_url) in
          match params !! "v" with
          | Some (v :: _) => Some v
          | _ => None
          end
        else None
    | None => None
    end.

(** *** The transcript handler *)

Record TextContent := { type : string; text : string }.

(** [bool(v)]. *)
Definition truthy (v : pyval) : bool :=
  match v with
  | PNone => false
  | PBool b => b
  | PInt n => negb (n =? 0)%Z
  | PFloat repr =>
      negb (forallb (λ c, has_char c "-0.")
                    (chars (split1 "e" (lower repr)).1))
  | PStr s => negb (is_empty s)
  | PList items => match items with [] => false | _ => true end
  | PDict entries => match entries with [] => false | _ => true end
  end.

(** [isinstance(v, list)]. *)
Definition is_list (v : pyval) : bool :=
  match v with PList _ => true | _ => false end.

Definition type_name (v : pyval) : string :=
  match v with
  | PNone => "NoneType" | PBool _ => "bool" | PInt _ => "int"
  | PFloat _ => "float" | PStr _ => "str" | PList _ => "list"
  | PDict _ => "dict"
  end.

(** [for line in transcript]: the items of a list, the keys of a dict, the
    characters of a string, one string for each code point. *)
Definition iterate (v : pyval) : result (list pyval) :=
  match v with
  | PList items => Ok items
  | PDict entries => Ok (map (λ kv, PStr kv.1) entries)
  | PStr s => Ok (map (λ p, PStr (utf8 p)) (points s))
  | _ => throw TypeError ("'" +:+ type_name v +:+ "' object is not iterable")
  end.

(** [line["text"]]. *)
Definition subscript_text (line : pyval) : result pyval :=
  match line with
  | PDict entries =>
      match assoc "text" entries with
      | Some v => Ok v
      | None => throw KeyError "'text'"
      end
  | PStr _ => throw TypeError "string indices must be integers, not 'str'"
  | PList _ =>
      throw TypeError "list indices must be integers or slices, not str"
  | _ =>
      throw TypeError
            ("'" +:+ type_name line +:+ "' object is not subscriptable")
  end.

Fixpoint mapM {A B} (f : A → result B) (l : list A) : result (list B) :=
  match l with
  | [] => Ok []
  | a :: l' => b ← f a; bs ← mapM f l'; Ok (b :: bs)
  end.

(** The items of [" ".join(items)] must be strings: the first one that is
    not is reported with its place, counted from [i]. *)
Fixpoint str_items (i : nat) (items : list pyval) : result (list string) :=
  match items with
  | [] => Ok []
  | PStr s :: rest => strs ← str_items (S i) rest; Ok (s :: strs)
  | v :: _ =>
      throw TypeError
        ("sequence item " +:+ int_repr (Z.of_nat i)
           +:+ ": expected str instance, " +:+ type_name v +:+ " found")
  end.

(** [args.video_url], as far as the handler gets with it.  A str is what
    the parser and the error message take.  With another value the handler
    ends in the parser or just after it: the test [in] raises for a value
    that holds nothing; a list or a dict that holds the text [youtu.be] has
    no [split]; and any other list or dict fails in [urlparse], inside the
    [try], so that the parser returns [None] and the handler raises the
    error of an unrecognized URL with the value formatted in it. *)
Definition attr_video_url (args : pyobj) : result string :=
  match args with
  | OInstance i =>
      match assoc "video_url" (inst_fields i) with
      | Some (PStr s) => Ok s
      | Some (PList items as v) =>
          if existsb (λ item, match item with
                              | PStr s => String.eqb s "youtu.be"
                              | _ => false
                              end) items
          then throw AttributeError "'list' object has no attribute 'split'"
          else throw ValueError
                     ("Unrecognized YouTube URL: " +:+ format_value v)
      | Some (PDict entries as v) =>
          if bool_decide ("youtu.be" ∈ map fst entries)
          then throw AttributeError "'dict' object has no attribute 'split'"
          else throw ValueError
                     ("Unrecognized YouTube URL: " +:+ format_value v)
      | Some v =>
          throw TypeError
            ("argument of type '" +:+ type_name v +:+ "' is not iterable")
      | None =>
          throw AttributeError
            ("'" +:+ cls_name (inst_class i)
                 +:+ "' object has no attribute 'video_url'")
      end
  | OSession =>
      throw AttributeError
        "'ServerSession' object has no attribute 'video_url'"
  end.

(** [json.dumps(v, indent=None)] and [json.loads(s)] under the limit on the
    digits of an int. *)
Definition json_dumps (v : pyval) : result string :=
  if within_limits v then Ok (dumps v)
  else
    throw ValueError
      ("Exceeds the limit (4300 digits) for integer string conversion; "
         +:+ "use sys.set_int_max_str_digits() to increase the limit").

Definition json_loads (s : string) : result pyval :=
  match loads s with
  | Some v => if within_limits v then Ok v else Raise (loads_error s)
  | None => Raise (loads_error s)
  end.

(** [YouTubeTranscriptApi.get_transcript(video_id)]. *)
Definition fetch (video_id : string) : M pyval :=
  λ w, (get_transcript (trace w) video_id, emit (EvFetch video_id) w).

Definition download_closed_captions (args : pyobj) : M (list TextContent) :=
  _ ← mkdir;
  video_url ← lift (attr_video_url args);
  match _parse_youtube_url video_url with
  | None | Some EmptyString =>
      raise ValueError ("Unrecognized YouTube URL: " +:+ video_url)
  | Some video_id =>
      let file := video_id +:+ ".json" in
      cached ← path_exists file;
      transcript ←
        (if negb cached then
           transcript ← fetch video_id;
           if negb (truthy transcript) || negb (is_list transcript)
           then raise ValueError "No transcript found for the video."
           else
             json_data ← lift (json_dumps transcript);
             _ ← write_text file json_data;
             mret transcript
         else
           json_data ← read_text file;
           lift (json_loads json_data));
      lines ← lift (iterate transcript);
      texts ← lift (mapM subscript_text lines);
      strs ← lift (str_items 0 texts);
      let content := join " " strs in
      mret [ {| type := "text"; text := content |} ]
  end.

(** *** The single-dispatch runner *)

Inductive implementation :=
| tool_runner_default
| download_closed_captions_impl.

(** The registry of [tool_runner]: the default under [object] and the one
    function registered with [@tool_runner.register], under the class its
    parameter is annotated with. *)
Definition tool_runner_registry : list (class_ref * implementation) :=
  [ (object_ref, tool_runner_default);
    (DownloadClosedCaptions_ref, download_closed_captions_impl) ].

Definition registered (c : class_ref) : option implementation :=
  snd <$> List.find (λ entry, bool_decide (entry.1 = c)) tool_runner_registry.

(** [dispatch(cls)]: the implementation of the first class along the
    method resolution order that has one. *)
Definition dispatch (cls : pyclass) : implementation :=
  default tool_runner_default (head (omap registered (cls_mro cls))).

Definition impl_name (f : implementation) : string :=
  match f with
  | tool_runner_default => "tool_runner"
  | download_closed_captions_impl => "download_closed_captions"
  end.

Definition class_repr (c : pyclass) : string :=
  "<class '" +:+ cls_module c +:+ "." +:+ cls_name c +:+ "'>".

(** A call of an implementation with positional arguments; each takes
    exactly one. *)
Definition call_implementation (f : implementation) (args : list pyobj)
  : M (list TextContent) :=
  match args with
  | [a] =>
      match f with
      | tool_runner_default =>
          raise NotImplementedError
                ("Unsupported type: " +:+ class_repr (class_of a))
      | download_closed_captions_impl => download_closed_captions a
      end
  | _ =>
      raise TypeError
            (impl_name f +:+ "() takes 1 positional argument but "
               +:+ int_repr (Z.of_nat (length args)) +:+ " were given")
  end.

(** The wrapper that [singledispatch] builds: dispatch on the class of the
    first positional argument, then call with all of them. *)
Definition tool_runner (args : list pyobj) : M (list TextContent) :=
  match args with
  | [] => raise TypeError "tool_runner requires at least 1 positional argument"
  | a :: _ => call_implementation (dispatch (class_of a)) args
  end.

End tools.

(** ** server.py *)

(** *** The cached enumeration *)

(** The interpreter state the enumeration lives in: the generator objects,
    each with the pairs it has still to yield, the value [functools.cache]
    holds for the call without arguments, and the debug log. *)
Record interp := {
  generators : list (list (string * Tool));
  enumerate_cache : option nat;
  debug_log : list string;
}.

Definition interp_start : interp :=
  {| generators := []; enumerate_cache := None; debug_log := [] |}.

(** The body of [enumerate_available_tools], run to its end: one pair for
    each class of the namespace that derives from [ToolArgs] and is not
    [ToolArgs] itself. *)
Definition enumerate_body : list (string * Tool) :=
  map (λ tool_args,
         let description := tool_description tool_args in
         (name description, description))
      (filter (λ tool_args,
                 issubclass tool_args ToolArgs
                 && negb (same_class tool_args ToolArgs))
              (map snd getmembers_isclass)).

(** A call of [enumerate_available_tools()] under [@cache]: the first call
    makes a generator object and stores it; every call returns the stored
    object. *)
Definition enumerate_available_tools (st : interp) : nat * interp :=
  match enumerate_cache st with
  | Some g => (g, st)
  | None =>
      let g := length (generators st) in
      (g, {| generators := generators st ++ [enumerate_body];
             enumerate_cache := Some g;
             debug_log := debug_log st |})
  end.

(** Iterating a generator object to its end, as [dict(g)] and [list(g)] do:
    it yields what it has still to yield and is exhausted afterwards. *)
Definition exhaust (g : nat) (st : interp) : list (string * Tool) * interp :=
  match generators st !! g with
  | Some pending =>
      (pending,
       {| generators := <[g := []]> (generators st);
          enumerate_cache := enumerate_cache st;
          debug_log :=
            debug_log st
            ++ map (λ p, "Found tool: <class 'mcp_youtube.tools." +:+ p.1
                          +:+ "'>") pending |})
  | None => ([], st)
  end.

(** [dict(pairs)]: a later pair replaces an earlier one with the same key. *)
Definition dict_of (pairs : list (string * Tool)) : gmap string Tool :=
  foldl (λ m p, <[p.1 := p.2]> m) ∅ pairs.

(** The module level of [server.py]:
    [mapping = dict(enumerate_available_tools())]. *)
Definition import_server : gmap string Tool * interp :=
  let '(g, st1) := enumerate_available_tools interp_start in
  let '(pairs, st2) := exhaust g st1 in
  (dict_of pairs, st2).

Definition mapping : gmap string Tool := import_server.1.

(** [list_tools]. *)
Definition list_tools : list Tool := (map_to_list mapping).*2.

(** *** Prompts *)

Record PromptArgument := {
  argument_name : string;
  argument_description : string;
  argument_required : bool;
}.

Record Prompt := {
  prompt_name : string;
  prompt_description : string;
  prompt_arguments : list PromptArgument;
}.

(** [list_prompts]. *)
Definition list_prompts : list Prompt :=
  [ {| prompt_name := "YoutubeVideoSummary";
       prompt_description := "Create a summary of the given video.";
       prompt_arguments := [ {| argument_name := "yt_url";
                         argument_description := "URL of the video";
                         argument_required := true |} ] |} ].

Record PromptMessage := { role : string; content : TextContent }.

Definition prompt_text (url : string) : string :=
  "Create a summary of the video " +:+ url
    +:+ " using closed captions. Define key takeaways, "
    +:+ "interesting facts, and the main topic of the video.".

(** [get_prompt(name, args)]; the result is the list of messages. *)
Definition get_prompt (name : string) (args : option (gmap string string))
  : result (list PromptMessage) :=
  if String.eqb name "YoutubeVideoSummary" then
    let url :=
      match args with
      | Some a => if bool_decide (a = ∅) then None else a !! "yt_url"
      | None => None
      end in
    match url with
    | Some (String _ _ as url) =>
        Ok [ {| role := "user";
                content := {| type := "text"; text := prompt_text url |} |} ]
    | _ => throw ValueError "yt_url is required"
    end
  else throw ValueError ("Unknown prompt: " +:+ name).

(** *** The dispatcher *)

Section server.
Context `{PyLib} `{Services}.

(** [call_tool(name, arguments)]; [app.request_context.session] is the
    session of the request being served. *)
Definition call_tool (name : string) (arguments : pyval)
  : M (list TextContent) :=
  match arguments with
  | PDict kwargs =>
      match mapping !! name with
      | None => raise ValueError ("Unknown tool: " +:+ name)
      | Some tool =>
          try_except_Exception
            (args ← lift (tool_args tool kwargs);
             tool_runner [OSession; OInstance args])
            (λ e,
               _ ← logger_exception ("Error running tool: " +:+ name);
               raise RuntimeError
                     ("Caught Exception. Error: " +:+ exn_str e))
      end
  | _ => raise TypeError "arguments must be dictionary"
  end.

End server.

(** ** Notions the claims are stated with *)

(** [DownloadClosedCaptions(video_url=url)], as binding builds it. *)
Definition closed_captions_args (video_url : string) : pyobj :=
  OInstance {| inst_class := DownloadClosedCaptions;
               inst_fields := [("video_url", PStr video_url)] |}.

(** The world after the directory has been made and [more] has happened. *)
Definition after_mkdir (w : world) (more : list event) : world :=
  {| cache_dir := true; cache_files := cache_files w;
     trace := trace w ++ EvMkdir :: more |}.

Definition is_fetch (ev : event) : bool :=
  match ev with EvFetch _ => true | _ => false end.

(** The number of calls of the transcript service among the events. *)
Definition fetch_calls (t : list event) : nat :=
  length (List.filter is_fetch t).

(** The values a record holds: [None], a boolean, a number or a string. *)
Definition scalar_value (v : pyval) : bool :=
  match v with
  | PList _ | PDict _ => false
  | _ => plain v
  end.

(** A record: a dict of such values. *)
Definition record (v : pyval) : bool :=
  match v with
  | PDict entries => plain v && forallb (λ kv, scalar_value kv.2) entries
  | _ => false
  end.

(** A caption record: a record with a string under ["text"], next to
    whatever else the service puts there (the timing). *)
Definition caption_record (v : pyval) : bool :=
  match v with
  | PDict entries =>
      match assoc "text" entries with
      | Some (PStr _) => record v
      | _ => false
      end
  | _ => false
  end.

Definition caption_text (v : pyval) : string :=
  match v with
  | PDict entries =>
      match assoc "text" entries with
      | Some (PStr s) => s
      | _ => EmptyString
      end
  | _ => EmptyString
  end.

(** What the handler makes of a transcript once it has one. *)
Definition render (transcript : pyval) : result (list TextContent) :=
  lines ← iterate transcript;
  texts ← mapM subscript_text lines;
  strs ← str_items 0 texts;
  Ok [ {| type := "text"; text := PyStr.join " " strs |} ].

(** The name of a file of the directory: no slash and no NUL in it, at
    most [NAME_MAX] bytes, and not one of the two dots. *)
Definition file_name (file : string) : bool :=
  negb (has_char "/" file) && negb (has_char nul file)
  && negb (too_long file)
  && negb (is_empty file || String.eqb file "." || String.eqb file "..").

(** [isinstance(v, dict)]. *)
Definition is_dict (v : pyval) : bool :=
  match v with PDict _ => true | _ => false end.

(** What the call of the default runner with two arguments raises. *)
Definition two_arguments_error : exn :=
  {| exn_type := TypeError;
     exn_str := "tool_runner() takes 1 positional argument but 2 were given" |}.

(** The error the dispatcher raises in place of [e]. *)
Definition wrapped (e : exn) : exn :=
  {| exn_type := RuntimeError;
     exn_str := "Caught Exception. Error: " +:+ exn_str e |}.

Section forms.
Context `{PyLib}.
Import PyStr Urllib.

(** [s.endswith(suffix)]. *)
Definition endswith (suffix s : string) : bool :=
  startswith (String.rev suffix) (String.rev s).

(** The two URL forms in the words of the specification, read by the host of
    the URL: a short link is a URL of the host [youtu.be], the canonical form
    a URL of the host [youtube.com] (or of a host under it) with a [v]
    parameter in its query. *)
Definition host_is (domain url : string) : bool :=
  match urlparse url with
  | Some parsed =>
      String.eqb (netloc parsed) domain
      || endswith ("." +:+ domain) (netloc parsed)
  | None => false
  end.

Definition spec_short_link_form (url : string) : bool := host_is "youtu.be" url.

Definition spec_canonical_form (url : string) : bool :=
  host_is "youtube.com" url
  && match urlparse url with
     | Some parsed => bool_decide (is_Some (parse_qs (query parsed) !! "v"))
     | None => false
     end.

End forms.

(** *** A library and services for the closed examples *)

(** The URLs of the examples hold no percent sign, no bracket and no
    character outside ASCII, so they never reach the functions of this
    library. *)
Definition example_lib : PyLib :=
  {| unquote_escaped := λ s, s;
     check_bracketed_netloc := λ _, false;
     checknetloc_nfkc := λ _, false |}.

Definition example_transcript : pyval :=
  PList [ PDict [("text", PStr "never gonna"); ("start", PFloat "0.0");
                 ("duration", PFloat "1.5")];
          PDict [("text", PStr "give you up"); ("start", PFloat "1.5");
                 ("duration", PFloat "2.25")] ].

Definition example_error_str (model : string) (errors : list (string * string))
    (data : list (string * pyval)) : string :=
  int_repr (Z.of_nat (length errors)) +:+ " validation error for " +:+ model.

(** Stand-ins for the texts of the libraries in the examples: an [OSError]
    shows its number and the path as the program wrote it, and no example
    formats a value or depends on the text of a decoding error. *)
Definition example_os_error_str (errno : N) (file : string) : string :=
  "[Errno " +:+ int_repr (Z.of_N errno) +:+ "] " +:+ file.

Definition example_loads_error (text : string) : exn :=
  {| exn_type := JSONDecodeError; exn_str := "Expecting value" |}.

(** A service that answers every call with [example_transcript]. *)
Definition example_services : Services :=
  {| get_transcript := λ _ _, Ok example_transcript;
     validation_error_str := example_error_str;
     os_error_str := example_os_error_str;
     unicode_error_str := λ _, "invalid start byte";
     loads_error := example_loads_error;
     format_value := dumps |}.


(** A world to start from: no cache directory yet, nothing done. *)
Definition fresh_world : world :=
  {| cache_dir := false; cache_files := ∅; trace := [] |}.

(** ** Notions the further properties are stated with *)

Section notions.
Import Urllib.

(** The characters that end or alter the value of a query parameter: the
    start of the fragment, the field separator, the escapes of [unquote] and
    of [parse_qsl], and the three characters [urlsplit] deletes. *)
Definition reserved (c : ascii) : bool :=
  has_char c "#&%+" || unsafe_url_byte c.

Definition unreserved (s : string) : bool :=
  forallb (λ c, negb (reserved c)) (chars s).

(** The alphabet of the identifiers YouTube hands out: letters, digits,
    [_] and [-]. *)
Definition id_char (c : ascii) : bool :=
  is_upper c || is_lower c || is_digit c || has_char c "_-".

Definition id_text (s : string) : bool :=
  negb (is_empty s) && forallb id_char (chars s).

(** The characters of a host name as it is written in a URL. *)
Definition host_char (c : ascii) : bool := id_char c || Ascii.eqb c ".".

Definition host_text (s : string) : bool := forallb host_char (chars s).

(** The printable characters of ASCII, from the space to the tilde. *)
Definition printable_char (c : ascii) : bool :=
  (32 <=? code c)%N && (code c <=? 126)%N.

Definition printable (s : string) : bool := forallb printable_char (chars s).

(** The step of the loop of [parse_qs]. *)
Definition qs_step (parsed_result : gmap string (list string))
    (nv : string * string) : gmap string (list string) :=
  let '(name, value) := nv in
  <[name := default [] (parsed_result !! name) ++ [value]]> parsed_result.

End notions.

(** The test of [enumerate_available_tools] on a class of the namespace. *)
Definition is_tool_class (tool_args : pyclass) : bool :=
  issubclass tool_args ToolArgs && negb (same_class tool_args ToolArgs).

(** The body of [enumerate_available_tools] over a namespace, given as the
    list [inspect.getmembers] returns for it: what the function yields when
    classes are added to [tools.py]. *)
Definition enumerate_members (members : list (string * pyclass))
  : list (string * Tool) :=
  map (λ tool_args,
         let description := tool_description tool_args in
         (name description, description))
      (filter (λ tool_args, is_tool_class tool_args) (map snd members)).

Section outcomes.
Context `{PyLib} `{Services}.

(** What the handler does once the file of the video is found, with the
    bytes of the file, and what it does once it is not. *)
Definition served (data : string) : result (list TextContent) :=
  if unicode_text data
  then transcript ← json_loads (universal_newlines data); render transcript
  else throw UnicodeDecodeError (unicode_error_str data).

Definition fetched (w : world) (video_id : string)
  : result (list TextContent) * world :=
  let file := video_id +:+ ".json" in
  match get_transcript (trace w ++ [EvMkdir; EvExists file]) video_id with
  | Raise e => (Raise e, after_mkdir w [EvExists file; EvFetch video_id])
  | Ok transcript =>
      if negb (truthy transcript) || negb (is_list transcript)
      then (throw ValueError "No transcript found for the video.",
            after_mkdir w [EvExists file; EvFetch video_id])
      else
        match json_dumps transcript with
        | Raise e => (Raise e, after_mkdir w [EvExists file; EvFetch video_id])
        | Ok json_data =>
            let failed e :=
              (Raise e, after_mkdir w [EvExists file; EvFetch video_id;
                                       EvWrite file]) in
            if has_char nul file
            then failed {| exn_type := ValueError;
                           exn_str := "embedded null byte" |}
            else
              match path_error (after_mkdir w []) file with
              | Some errno => failed (os_error errno file)
              | None =>
                  (render transcript,
                   {| cache_dir := true;
                      cache_files := <[file := json_data]> (cache_files w);
                      trace := trace w ++ [EvMkdir; EvExists file;
                                           EvFetch video_id;
                                           EvWrite file] |})
              end
        end
  end.

(** The ways an invocation of the handler goes, each with its result and
    the world it leaves: no [video_url] to read, no identifier in the URL,
    a name too long to look for, the file of the video in the cache, a miss
    that ends in an error before anything is written (of the service, the
    no-transcript error, or an int of too many digits), a miss whose write
    fails, and a miss that writes the file. *)
Inductive outcome (args : pyobj) (w : world)
  : result (list TextContent) * world → Prop :=
| no_attribute e :
    attr_video_url args = Raise e →
    outcome args w (Raise e, after_mkdir w [])
| unrecognized url :
    attr_video_url args = Ok url →
    outcome args w
      (throw ValueError ("Unrecognized YouTube URL: " +:+ url),
       after_mkdir w [])
| not_looked_for url video_id e :
    attr_video_url args = Ok url →
    _parse_youtube_url url = Some video_id →
    outcome args w (Raise e, after_mkdir w [EvExists (video_id +:+ ".json")])
| hit url video_id data r :
    attr_video_url args = Ok url →
    _parse_youtube_url url = Some video_id →
    cache_files w !! (video_id +:+ ".json") = Some data →
    outcome args w
      (r, after_mkdir w [EvExists (video_id +:+ ".json");
                         EvRead (video_id +:+ ".json")])
| miss_failed url video_id e :
    attr_video_url args = Ok url →
    _parse_youtube_url url = Some video_id →
    cache_files w !! (video_id +:+ ".json") = None →
    outcome args w
      (Raise e, after_mkdir w [EvExists (video_id +:+ ".json");
                               EvFetch video_id])
| write_failed url video_id e :
    attr_video_url args = Ok url →
    _parse_youtube_url url = Some video_id →
    cache_files w !! (video_id +:+ ".json") = None →
    outcome args w
      (Raise e, after_mkdir w [EvExists (video_id +:+ ".json");
                               EvFetch video_id;
                               EvWrite (video_id +:+ ".json")])
| miss_written url video_id transcript :
    attr_video_url args = Ok url →
    _parse_youtube_url url = Some video_id →
    cache_files w !! (video_id +:+ ".json") = None →
    truthy transcript = true → is_list transcript = true →
    outcome args w
      (render transcript,
       {| cache_dir := true;
          cache_files := <[video_id +:+ ".json" := dumps transcript]>
                           (cache_files w);
          trace := trace w ++ [EvMkdir; EvExists (video_id +:+ ".json");
                               EvFetch video_id;
                               EvWrite (video_id +:+ ".json")] |}).

End outcomes.




(** * Facts *)

(** ** Strings *)

Module PyStrFacts.
Import PyStr.

Lemma str_app_cons (c : ascii) (s t : string) :
  String c s +:+ t = String c (s +:+ t).
Proof. reflexivity. Qed.

Lemma str_app_nil_l (s : string) : EmptyString +:+ s = s.
Proof. reflexivity. Qed.

(** Appends are kept folded by [simpl]; this pushes them inwards. *)
Ltac norm_app := repeat (rewrite str_app_cons || rewrite str_app_nil_l).

Lemma str_app_nil_r (s : string) : s +:+ EmptyString = s.
Proof. induction s as [|c s IH]; norm_app; [reflexivity | by rewrite IH]. Qed.

Lemma str_app_assoc (a b c : string) : (a +:+ b) +:+ c = a +:+ (b +:+ c).
Proof. induction a as [|x a IH]; norm_app; [reflexivity | by rewrite IH]. Qed.

Lemma str_length_app (a b : string) :
  String.length (a +:+ b) = String.length a + String.length b.
Proof.
  induction a as [|x a IH]; norm_app; simpl; [reflexivity | by rewrite IH].
Qed.

Lemma has_char_app (c : ascii) (a b : string) :
  has_char c (a +:+ b) = has_char c a || has_char c b.
Proof.
  induction a as [|x a IH]; norm_app; simpl; [reflexivity |].
  rewrite IH. by rewrite orb_assoc.
Qed.

(** [startswith] and [contains] mean what their names say. *)
Lemma startswith_spec (p s : string) :
  startswith p s = true ↔ ∃ post, s = p +:+ post.
Proof.
  revert s. induction p as [|a p IH]; intros s; simpl.
  - split; [intros _; by exists s | done].
  - destruct s as [|b s].
    + split; [done | intros [post Hp]; discriminate].
    + rewrite andb_true_iff, IH. split.
      * intros [Hab [post ->]]. apply Ascii.eqb_eq in Hab as ->.
        by exists post.
      * intros [post Hp]. injection Hp as -> ->.
        split; [apply Ascii.eqb_refl | by exists post].
Qed.

Lemma contains_spec (sub s : string) :
  contains sub s = true ↔ ∃ pre post, s = pre +:+ sub +:+ post.
Proof.
  induction s as [|c s IH].
  - simpl. rewrite orb_false_r, startswith_spec. split.
    + intros [post Hp]. by exists EmptyString, post.
    + intros [pre [post Hp]]. destruct pre; [by exists post | discriminate].
  - cbn [contains]. rewrite orb_true_iff, startswith_spec, IH. split.
    + intros [[post Hp] | [pre [post Hp]]].
      * by exists EmptyString, post.
      * exists (String c pre), post. simpl. by rewrite Hp.
    + intros [pre [post Hp]]. destruct pre as [|x pre].
      * left. by exists post.
      * right. injection Hp as -> ->. by exists pre, post.
Qed.

Lemma split_nonempty (sep : ascii) (s : string) : split sep s ≠ [].
Proof.
  induction s as [|c s IH]; simpl; [done |].
  destruct (Ascii.eqb c sep); [done |]. by destruct (split sep s).
Qed.

(** Joining the pieces of a split with the separator gives the string
    back, and no piece holds the separator. *)
Lemma join_split (sep : ascii) (s : string) :
  join (String sep EmptyString) (split sep s) = s.
Proof.
  induction s as [|c s IH]; simpl; [reflexivity |].
  pose proof (split_nonempty sep s) as Hne.
  destruct (Ascii.eqb c sep) eqn:Hc.
  - apply Ascii.eqb_eq in Hc as ->.
    destruct (split sep s) as [|seg segs]; [done |].
    change (join (String sep EmptyString) (EmptyString :: seg :: segs))
      with (EmptyString +:+ String sep EmptyString
              +:+ join (String sep EmptyString) (seg :: segs)).
    rewrite IH. reflexivity.
  - destruct (split sep s) as [|seg segs]; [done |].
    destruct segs as [|seg' segs].
    + simpl in *. by rewrite IH.
    + change (join (String sep EmptyString) (String c seg :: seg' :: segs))
        with (String c (join (String sep EmptyString) (seg :: seg' :: segs))).
      by rewrite IH.
Qed.

Lemma split_no_sep (sep : ascii) (s : string) :
  Forall (λ seg, has_char sep seg = false) (split sep s).
Proof.
  induction s as [|c s IH]; simpl.
  - by constructor.
  - destruct (Ascii.eqb c sep) eqn:Hc.
    + by constructor.
    + destruct (split sep s) as [|seg segs].
      * constructor; [simpl; by rewrite Hc | constructor].
      * inversion IH; subst. constructor; [|done].
        simpl. rewrite Hc. done.
Qed.

Lemma join_snoc (sep : string) (l : list string) (x : string) :
  l ≠ [] → join sep (l ++ [x]) = join sep l +:+ sep +:+ x.
Proof.
  induction l as [|a l IH]; [done |]. intros _.
  destruct l as [|b l]; [reflexivity |].
  change (join sep ((a :: b :: l) ++ [x]))
    with (a +:+ sep +:+ join sep ((b :: l) ++ [x])).
  rewrite IH by done.
  change (join sep (a :: b :: l)) with (a +:+ sep +:+ join sep (b :: l)).
  by rewrite !str_app_assoc.
Qed.

(** The last piece: it holds no separator, and in [s] it is preceded by
    nothing at all or by a text that ends with the separator. *)
Lemma split_last (sep : ascii) (s : string) :
  has_char sep (last_seg (split sep s)) = false
  ∧ (s = last_seg (split sep s)
     ∨ ∃ pre, s = pre +:+ String sep (last_seg (split sep s))).
Proof.
  unfold last_seg.
  pose proof (split_nonempty sep s) as Hne.
  pose proof (split_no_sep sep s) as Hno.
  pose proof (join_split sep s) as Hj.
  revert Hne Hno Hj. generalize (split sep s) as l. intros l Hne Hno Hj.
  rewrite (app_removelast_last EmptyString Hne) in Hno, Hj.
  apply Forall_app in Hno as [_ Hno].
  apply Forall_cons in Hno as [Hlast _].
  split; [done |].
  destruct (removelast l) as [|a front] eqn:Hf.
  - left. simpl in Hj. done.
  - right. rewrite join_snoc in Hj by done.
    exists (join (String sep EmptyString) (a :: front)).
    rewrite <- Hj. reflexivity.
Qed.

(** The first piece: it holds no separator, and in [s] it is followed by
    nothing at all or by the separator. *)
Lemma split_first (sep : ascii) (s : string) :
  has_char sep (first_seg (split sep s)) = false
  ∧ (s = first_seg (split sep s)
     ∨ ∃ post, s = first_seg (split sep s) +:+ String sep post).
Proof.
  unfold first_seg.
  pose proof (split_nonempty sep s) as Hne.
  pose proof (split_no_sep sep s) as Hno.
  pose proof (join_split sep s) as Hj.
  destruct (split sep s) as [|x rest]; [done |].
  apply Forall_cons in Hno as [Hfirst _]. split; [done |].
  destruct rest as [|y rest].
  - left. simpl in *. done.
  - right. exists (join (String sep EmptyString) (y :: rest)).
    rewrite <- Hj. reflexivity.
Qed.

End PyStrFacts.

(** ** json: what is written is read back *)

Module JsonFacts.
Import PyStr PyStrFacts Json.


(** *** Strings *)

Lemma scanstring_escape_char (c : ascii) (x : string) :
  (code c <? 128)%N = true →
  scanstring (escape_char c +:+ x)
  = '(str, r) ← scanstring x; Some (String c str, r).
Proof.
  destruct c as [[] [] [] [] [] [] [] []]; intros Hc;
    first [discriminate Hc | reflexivity].
Qed.

Lemma hex_value_digit (d : N) :
  (d < 16)%N → hex_value (hex_digit d) = Some d.
Proof.
  intros Hd. rewrite <- (N2Nat.id d).
  assert (Hn : (N.to_nat d < 16)%nat) by lia.
  revert Hn. generalize (N.to_nat d). intros n Hn.
  do 16 (destruct n as [|n]; [reflexivity |]). lia.
Qed.

Ltac div_lia := zify; Z.to_euclidean_division_equations; lia.

Lemma decode_hex4 (n : N) :
  (n < 65536)%N →
  decode_uXXXX (hex_digit (n / 4096)) (hex_digit ((n / 256) mod 16))
               (hex_digit ((n / 16) mod 16)) (hex_digit (n mod 16))
  = Some n.
Proof.
  intros Hn. unfold decode_uXXXX.
  rewrite !hex_value_digit by div_lia.
  cbn [mbind option_bind]. f_equal. div_lia.
Qed.

(** One escape that is no high surrogate is one character. *)
Lemma scanstring_escape_u (n : N) (x : string) :
  (n < 65536)%N → is_high_surrogate n = false →
  scanstring (escape_u n +:+ x)
  = '(str, r) ← scanstring x; Some (utf8 n +:+ str, r).
Proof.
  intros Hn Hh. unfold escape_u, hex4. norm_app.
  change (scanstring (String backslash (String "u" ?t)))
    with (match t with
          | String h1 (String h2 (String h3 (String h4 rest2))) =>
              uni ← decode_uXXXX h1 h2 h3 h4;
              let single :=
                '(str, r) ← scanstring rest2;
                Some (utf8 uni +:+ str, r) in
              if is_high_surrogate uni then
                match rest2 with
                | String b (String u
                    (String g1 (String g2 (String g3 (String g4 rest3)))))
                  =>
                    if Ascii.eqb b backslash && Ascii.eqb u "u" then
                      uni2 ← decode_uXXXX g1 g2 g3 g4;
                      if is_low_surrogate uni2 then
                        '(str, r) ← scanstring rest3;
                        Some (utf8 (65536
                                    + N.lor (N.shiftl (uni - 55296) 10)
                                            (uni2 - 56320))
                              +:+ str, r)
                      else single
                    else single
                | _ => single
                end
              else single
          | _ => None
          end).
  cbv iota beta. rewrite decode_hex4 by done.
  cbn [mbind option_bind]. cbv zeta. by rewrite Hh.
Qed.

(** The two surrogates of a character beyond the basic plane. *)
Lemma low_bits_disjoint (a b : N) :
  N.land a 1023 = 0%N → (b < 1024)%N → N.lor a b = (a + b)%N.
Proof.
  intros Ha Hb.
  assert (Hd : N.land a b = 0%N).
  { rewrite <- (N.mod_small b 1024) by done.
    change 1024%N with (2 ^ 10)%N. rewrite <- N.land_ones.
    change (N.ones 10) with 1023%N.
    rewrite (N.land_comm b 1023), N.land_assoc.
    by rewrite Ha, N.land_0_l. }
  rewrite <- N.lxor_lor by done. symmetry. by apply N.add_nocarry_lxor.
Qed.

Lemma surrogates_of (p : N) :
  (65536 <= p)%N → (p < 1114112)%N →
  let n := (p - 65536)%N in
  let high := N.lor 55296 (N.land (N.shiftr n 10) 1023) in
  let low := N.lor 56320 (N.land n 1023) in
  (high < 65536)%N ∧ (low < 65536)%N
  ∧ is_high_surrogate high = true ∧ is_low_surrogate low = true
  ∧ (65536 + N.lor (N.shiftl (high - 55296) 10) (low - 56320))%N = p.
Proof.
  intros Hlo Hhi n high low.
  assert (Hq : N.land (N.shiftr n 10) 1023 = (n / 1024)%N).
  { change 1023%N with (N.ones 10). rewrite N.land_ones, N.shiftr_div_pow2.
    change (2 ^ 10)%N with 1024%N. apply N.mod_small. unfold n. div_lia. }
  assert (Hr : N.land n 1023 = (n mod 1024)%N).
  { change 1023%N with (N.ones 10). by rewrite N.land_ones. }
  assert (Hhigh : high = (55296 + n / 1024)%N).
  { unfold high. rewrite Hq. apply low_bits_disjoint; [reflexivity |].
    unfold n. div_lia. }
  assert (Hlow : low = (56320 + n mod 1024)%N).
  { unfold low. rewrite Hr. apply low_bits_disjoint; [reflexivity |].
    div_lia. }
  assert (Hjoin : N.lor (N.shiftl (n / 1024) 10) (n mod 1024) = n).
  { rewrite low_bits_disjoint.
    - rewrite N.shiftl_mul_pow2. change (2 ^ 10)%N with 1024%N. div_lia.
    - change 1023%N with (N.ones 10).
      rewrite N.land_ones, N.shiftl_mul_pow2. by apply N.Div0.mod_mul.
    - div_lia. }
  rewrite Hhigh, Hlow. unfold is_high_surrogate, is_low_surrogate.
  repeat split.
  - unfold n. div_lia.
  - div_lia.
  - apply andb_true_iff. split; [apply N.leb_le | apply N.leb_le];
      unfold n; div_lia.
  - apply andb_true_iff. split; [apply N.leb_le | apply N.leb_le]; div_lia.
  - replace (55296 + n / 1024 - 55296)%N with (n / 1024)%N by lia.
    replace (56320 + n mod 1024 - 56320)%N with (n mod 1024)%N by lia.
    rewrite Hjoin. unfold n. lia.
Qed.

Lemma scanstring_escape_pair (high low : N) (x : string) :
  (high < 65536)%N → (low < 65536)%N →
  is_high_surrogate high = true → is_low_surrogate low = true →
  scanstring (escape_u high +:+ escape_u low +:+ x)
  = '(str, r) ← scanstring x;
    Some (utf8 (65536 + N.lor (N.shiftl (high - 55296) 10) (low - 56320))
          +:+ str, r).
Proof.
  intros Hh Hl Hhigh Hlow. unfold escape_u, hex4. norm_app.
  change (scanstring (String backslash (String "u" ?t)))
    with (match t with
          | String h1 (String h2 (String h3 (String h4 rest2))) =>
              uni ← decode_uXXXX h1 h2 h3 h4;
              let single :=
                '(str, r) ← scanstring rest2;
                Some (utf8 uni +:+ str, r) in
              if is_high_surrogate uni then
                match rest2 with
                | String b (String u
                    (String g1 (String g2 (String g3 (String g4 rest3)))))
                  =>
                    if Ascii.eqb b backslash && Ascii.eqb u "u" then
                      uni2 ← decode_uXXXX g1 g2 g3 g4;
                      if is_low_surrogate uni2 then
                        '(str, r) ← scanstring rest3;
                        Some (utf8 (65536
                                    + N.lor (N.shiftl (uni - 55296) 10)
                                            (uni2 - 56320))
                              +:+ str, r)
                      else single
                    else single
                | _ => single
                end
              else single
          | _ => None
          end).
  cbv iota beta. rewrite (decode_hex4 high), (decode_hex4 low) by done.
  cbn [mbind option_bind]. cbv zeta. rewrite Hhigh, Hlow.
  reflexivity.
Qed.

Lemma scanstring_escape_point (p : N) (x : string) :
  scalar p = true →
  scanstring (escape_point p +:+ x)
  = '(str, r) ← scanstring x; Some (utf8 p +:+ str, r).
Proof.
  unfold scalar. intros [Hp Hs]%andb_true_iff.
  apply N.ltb_lt in Hp. apply negb_true_iff, orb_false_iff in Hs as [Hh Hl].
  unfold escape_point.
  destruct (p <? 128)%N eqn:H1.
  - rewrite scanstring_escape_char.
    + unfold utf8. rewrite H1. reflexivity.
    + unfold byte, code. apply N.ltb_lt in H1.
      rewrite N_ascii_embedding by lia. by apply N.ltb_lt.
  - destruct (p <? 65536)%N eqn:H2.
    + apply N.ltb_lt in H2. by apply scanstring_escape_u.
    + apply N.ltb_ge in H2. cbv zeta.
      destruct (surrogates_of p H2 Hp) as (B1 & B2 & S1 & S2 & Hj).
      cbv zeta in *. rewrite str_app_assoc.
      rewrite scanstring_escape_pair by done. by rewrite Hj.
Qed.

Lemma scanstring_points (ps : list N) (rest : string) :
  forallb scalar ps = true →
  scanstring (foldr (λ p text, escape_point p +:+ text) EmptyString ps
              +:+ String dquote rest)
  = Some (encode ps, rest).
Proof.
  induction ps as [|p ps IH]; [reflexivity |].
  cbn [forallb foldr encode]. intros [Hp Hps]%andb_true_iff.
  rewrite str_app_assoc, scanstring_escape_point by done.
  unfold encode in IH. by rewrite IH.
Qed.

(** A text is read back from its escapes. *)
Lemma scanstring_escape (s rest : string) :
  unicode_text s = true →
  scanstring (escape s +:+ String dquote rest) = Some (s, rest).
Proof.
  unfold unicode_text. intros [Hs He%String.eqb_eq]%andb_true_iff.
  unfold escape. rewrite scanstring_points by done. by rewrite He.
Qed.

(** *** Numbers: a number is matched the same with more text after it *)

Lemma stop_char (c : ascii) :
  has_char c ",]}" = true → c = ","%char ∨ c = "]"%char ∨ c = "}"%char.
Proof.
  cbn [has_char]. rewrite orb_false_r, !orb_true_iff, !Ascii.eqb_eq.
  intuition auto.
Qed.

Lemma starts_stop (c : ascii) (t : string) :
  number_stop t = true → has_char c ",]}" = false → starts c t = false.
Proof.
  destruct t as [|x t]; cbn [number_stop starts]; [done |].
  intros Hx Hc. destruct (Ascii.eqb x c) eqn:E; [|done].
  apply Ascii.eqb_eq in E as ->. congruence.
Qed.

Lemma starts_app (c : ascii) (s t : string) :
  number_stop t = true → has_char c ",]}" = false →
  starts c (s +:+ t) = starts c s.
Proof.
  intros Ht Hc. destruct s as [|x s]; [|reflexivity].
  rewrite str_app_nil_l. by apply starts_stop.
Qed.

Lemma tail_app (c : ascii) (s t : string) :
  starts c s = true → tail (s +:+ t) = tail s +:+ t.
Proof. by destruct s. Qed.

Lemma span_digits_stop (t : string) :
  number_stop t = true → span_digits t = (EmptyString, t).
Proof.
  destruct t as [|x t]; [done |]. simpl. intros Hx.
  apply stop_char in Hx as [-> | [-> | ->]]; reflexivity.
Qed.

Lemma span_digits_app (s t : string) :
  number_stop t = true →
  span_digits (s +:+ t) = ((span_digits s).1, (span_digits s).2 +:+ t).
Proof.
  intros Ht. induction s as [|c s IH].
  - rewrite str_app_nil_l. by apply span_digits_stop.
  - rewrite str_app_cons. simpl. destruct (is_digit c); [|reflexivity].
    rewrite IH. by destruct (span_digits s).
Qed.

Lemma match_unsigned_app (s t : string) :
  number_stop t = true →
  match_unsigned (s +:+ t) = extend t <$> match_unsigned s.
Proof.
  intros Ht. unfold match_unsigned.
  rewrite starts_app by done.
  destruct (starts "0" s) eqn:H0.
  - simpl. by rewrite (tail_app "0").
  - rewrite span_digits_app by done.
    destruct (span_digits s) as [[|d ds] r]; reflexivity.
Qed.

Lemma match_integer_app (s t : string) :
  number_stop t = true →
  match_integer (s +:+ t) = extend t <$> match_integer s.
Proof.
  intros Ht. unfold match_integer.
  rewrite starts_app by done.
  destruct (starts "-" s) eqn:Hm.
  - rewrite (tail_app "-") by done. rewrite match_unsigned_app by done.
    destruct (match_unsigned (tail s)) as [[ds r]|]; reflexivity.
  - by apply match_unsigned_app.
Qed.

Lemma match_frac_app (s t : string) :
  number_stop t = true →
  match_frac (s +:+ t) = extend t (match_frac s).
Proof.
  intros Ht. unfold match_frac.
  rewrite starts_app by done.
  destruct (starts "." s) eqn:Hd; [|reflexivity].
  rewrite (tail_app ".") by done. rewrite span_digits_app by done.
  destruct (span_digits (tail s)) as [[|d ds] r]; reflexivity.
Qed.

Lemma match_exp_app (s t : string) :
  number_stop t = true →
  match_exp (s +:+ t) = extend t (match_exp s).
Proof.
  intros Ht. unfold match_exp. destruct s as [|e r].
  - rewrite str_app_nil_l. destruct t as [|x t]; [reflexivity |].
    simpl in Ht. apply stop_char in Ht as [-> | [-> | ->]]; reflexivity.
  - rewrite str_app_cons.
    destruct (Ascii.eqb e "e" || Ascii.eqb e "E"); [|reflexivity].
    rewrite !starts_app by done.
    destruct (starts "-" r) eqn:Hm.
    + rewrite (tail_app "-") by done. rewrite span_digits_app by done.
      destruct (span_digits (tail r)) as [[|d ds] r']; reflexivity.
    + destruct (starts "+" r) eqn:Hp.
      * rewrite (tail_app "+") by done. rewrite span_digits_app by done.
        destruct (span_digits (tail r)) as [[|d ds] r']; reflexivity.
      * rewrite span_digits_app by done.
        destruct (span_digits r) as [[|d ds] r']; reflexivity.
Qed.

Lemma match_number_app (s t : string) :
  number_stop t = true →
  match_number (s +:+ t) = extend t <$> match_number s.
Proof.
  intros Ht. unfold match_number.
  rewrite match_integer_app by done.
  destruct (match_integer s) as [[integer r1]|]; [|reflexivity].
  cbn [fmap option_fmap option_map mbind option_bind extend fst snd].
  rewrite match_frac_app by done.
  destruct (match_frac r1) as [frac r2]. cbn [extend fst snd].
  rewrite match_exp_app by done.
  destruct (match_exp r2) as [exp r3]. cbn [extend fst snd].
  destruct (is_empty frac && is_empty exp); [|reflexivity].
  destruct (NilZero.int_of_string integer); reflexivity.
Qed.

(** *** Integers *)

Lemma unorm_no_leading_zero (d : Decimal.uint) :
  Decimal.unorm d = Decimal.D0 Decimal.Nil
  ∨ leading_zero (Decimal.unorm d) = false.
Proof. induction d; simpl; auto. Qed.

Lemma to_uint_no_leading_zero (p : positive) :
  leading_zero (Pos.to_uint p) = false.
Proof.
  pose proof (DecimalPos.Unsigned.to_of (Pos.to_uint p)) as Hn.
  rewrite DecimalPos.Unsigned.of_to in Hn. simpl in Hn.
  destruct (unorm_no_leading_zero (Pos.to_uint p)) as [H0 | Hl].
  - rewrite <- Hn in H0. by apply Unsigned.to_uint_nonzero in H0.
  - by rewrite <- Hn in Hl.
Qed.

Lemma span_digits_uint (d : Decimal.uint) :
  span_digits (NilEmpty.string_of_uint d)
  = (NilEmpty.string_of_uint d, EmptyString).
Proof. induction d; simpl; rewrite ?IHd; reflexivity. Qed.

Lemma match_unsigned_uint (p : positive) :
  match_unsigned (NilZero.string_of_uint (Pos.to_uint p))
  = Some (NilZero.string_of_uint (Pos.to_uint p), EmptyString).
Proof.
  pose proof (to_uint_no_leading_zero p) as Hl.
  pose proof (Unsigned.to_uint_nonnil p) as Hn.
  unfold match_unsigned, NilZero.string_of_uint.
  destruct (Pos.to_uint p) as [|d|d|d|d|d|d|d|d|d|d] eqn:Hp;
    try done;
    rewrite span_digits_uint; reflexivity.
Qed.

Lemma match_integer_int (n : Z) :
  match_integer (int_repr n) = Some (int_repr n, EmptyString).
Proof.
  unfold int_repr. destruct n as [|p|p]; simpl.
  - reflexivity.
  - unfold match_integer.
    pose proof (match_unsigned_uint p) as Hu.
    pose proof (to_uint_no_leading_zero p) as Hl.
    pose proof (Unsigned.to_uint_nonnil p) as Hn.
    unfold NilZero.string_of_uint in *.
    destruct (Pos.to_uint p); try done; simpl in *; exact Hu.
  - unfold match_integer. cbn [starts tail]. 
    change (Ascii.eqb "-" "-") with true. cbv iota.
    rewrite match_unsigned_uint. reflexivity.
Qed.

Lemma int_of_string_repr (n : Z) :
  NilZero.int_of_string (int_repr n) = Some (Z.to_int n).
Proof.
  unfold int_repr. apply NilZero.isi.
  - destruct n; simpl; try discriminate.
    intros [= Hp]. by apply Unsigned.to_uint_nonnil in Hp.
  - destruct n; simpl; try discriminate.
    intros [= Hp]. by apply Unsigned.to_uint_nonnil in Hp.
Qed.

Lemma match_number_int (n : Z) :
  match_number (int_repr n) = Some (PInt n, EmptyString).
Proof.
  unfold match_number. rewrite match_integer_int.
  cbn. rewrite int_of_string_repr. cbn. by rewrite DecimalZ.of_to.
Qed.

(** *** The first character of a number and of a value *)

Lemma span_digits_head (s ds r : string) :
  span_digits s = (ds, r) → ds ≠ EmptyString →
  ∃ c s', s = String c s' ∧ is_digit c = true.
Proof.
  destruct s as [|c s']; simpl; [by intros [= <- <-] |].
  destruct (is_digit c) eqn:Hc; [eauto |]. by intros [= <- <-].
Qed.

Lemma match_unsigned_head (s ds r : string) :
  match_unsigned s = Some (ds, r) →
  ∃ c s', s = String c s' ∧ is_digit c = true.
Proof.
  unfold match_unsigned. destruct (starts "0" s) eqn:H0.
  - destruct s as [|c s']; [done |]. simpl in H0.
    apply Ascii.eqb_eq in H0 as ->. eauto.
  - destruct (span_digits s) as [[|d ds'] r'] eqn:Hs; [done |].
    intros _. by eapply span_digits_head.
Qed.

Lemma match_number_head (s : string) (res : pyval * string) :
  match_number s = Some res →
  ∃ c s', s = String c s' ∧ number_start c = true.
Proof.
  unfold match_number, match_integer, number_start.
  destruct (starts "-" s) eqn:Hm.
  - destruct s as [|c s']; [done |]. simpl in Hm. intros _.
    exists c, s'. by rewrite Hm.
  - destruct (match_unsigned s) as [[ds r]|] eqn:Hu; [|done].
    intros _. apply match_unsigned_head in Hu as (c & s' & -> & Hc).
    exists c, s'. by rewrite Hc, orb_true_r.
Qed.

Lemma value_start_facts (c : ascii) :
  value_start c = true →
  is_ws c = false ∧ Ascii.eqb c "]" = false ∧ Ascii.eqb c "}" = false.
Proof.
  destruct c as [[] [] [] [] [] [] [] []]; try discriminate; done.
Qed.

Lemma value_head_app (s t : string) : value_head s → value_head (s +:+ t).
Proof. intros (c & s' & -> & Hc). exists c, (s' +:+ t). done. Qed.

Lemma skip_ws_head (s : string) : value_head s → skip_ws s = s.
Proof.
  intros (c & s' & -> & Hc). apply value_start_facts in Hc as (Hw & _).
  unfold skip_ws. simpl. by rewrite Hw.
Qed.

Lemma starts_head (s : string) :
  value_head s → starts "]" s = false ∧ starts "}" s = false.
Proof.
  intros (c & s' & -> & Hc). apply value_start_facts in Hc as (_ & H1 & H2).
  done.
Qed.

Lemma float_text_cases (repr : string) :
  float_text repr = true →
  match_number repr = Some (PFloat repr, EmptyString)
  ∨ repr = "NaN" ∨ repr = "Infinity" ∨ repr = "-Infinity".
Proof.
  unfold float_text. rewrite !orb_true_iff, !String.eqb_eq.
  intros [[[Hm | ?] | ?] | ?]; auto.
  left. destruct (match_number repr) as [[[] []]|]; try done.
  apply String.eqb_eq in Hm as ->. done.
Qed.

Lemma dumps_head (v : pyval) : plain v = true → value_head (dumps v).
Proof.
  destruct v as [| [] | n | repr | s | items | entries]; intros Hp;
    try (eexists _, _; split; [reflexivity | reflexivity]).
  - destruct (match_number_head _ _ (match_number_int n))
      as (c & s' & Hs & Hc).
    exists c, s'. split; [exact Hs |]. unfold value_start. by rewrite Hc.
  - cbn [plain] in Hp. apply andb_true_iff in Hp as [Hp _].
    apply float_text_cases in Hp as [Hm | [-> | [-> | ->]]];
      try (eexists _, _; split; [reflexivity | reflexivity]).
    destruct (match_number_head _ _ Hm) as (c & s' & Hs & Hc).
    exists c, s'. split; [exact Hs |]. unfold value_start. by rewrite Hc.
Qed.

(** *** Atoms *)

Lemma scan_once_number (depth : nat) (c : ascii) (x : string) :
  number_start c = true →
  scan_once (S depth) (String c x)
  = match match_number (String c x) with
    | Some res => Some res
    | None =>
        if startswith "-Infinity" (String c x)
        then Some (PFloat "-Infinity", drop 9 (String c x))
        else None
    end.
Proof.
  destruct c as [[] [] [] [] [] [] [] []]; try discriminate; reflexivity.
Qed.

Lemma scan_once_number_text (depth : nat) (text rest : string) (v : pyval) :
  match_number text = Some (v, EmptyString) →
  number_stop rest = true →
  scan_once (S depth) (text +:+ rest) = Some (v, rest).
Proof.
  intros Hm Hr.
  destruct (match_number_head _ _ Hm) as (c & s' & -> & Hc).
  rewrite str_app_cons, scan_once_number by done.
  rewrite <- str_app_cons, match_number_app, Hm by done. reflexivity.
Qed.

(** *** Lists *)

Lemma join_cons2 (sep x y : string) (l : list string) :
  join sep (x :: y :: l) = x +:+ sep +:+ join sep (y :: l).
Proof. reflexivity. Qed.

Lemma join_single (sep x : string) : join sep [x] = x.
Proof. reflexivity. Qed.

Local Arguments join : simpl never.

Lemma join_head (sep : string) (l : list string) (t : string) :
  l ≠ [] → Forall value_head l → value_head (join sep l +:+ t).
Proof.
  destruct l as [|x [|y l]]; [done | |]; intros _ Hl;
    apply Forall_cons in Hl as [Hx _].
  - by apply value_head_app.
  - rewrite join_cons2. by do 2 apply value_head_app.
Qed.

Lemma length_join_items (sep : string) (l : list string) :
  Forall value_head l → length l ≤ String.length (join sep l) + 0
  ∧ (l ≠ [] → length l ≤ String.length (join sep l)).
Proof.
  induction l as [|x l IH]; intros Hl; [simpl; split; [lia | done] |].
  apply Forall_cons in Hl as [(c & s' & -> & _) Hl].
  destruct (IH Hl) as [IH1 _].
  destruct l as [|y l].
  - rewrite join_single. simpl. split; lia.
  - rewrite join_cons2, !str_length_app. simpl in *. split; lia.
Qed.

Lemma length_join_member (sep x : string) (l : list string) :
  x ∈ l → String.length x ≤ String.length (join sep l).
Proof.
  induction l as [|y l IH]; [by intros ?%elem_of_nil |].
  intros [-> | Hx]%elem_of_cons.
  - destruct l; [rewrite join_single; lia |].
    rewrite join_cons2, str_length_app; lia.
  - destruct l as [|z l]; [by apply elem_of_nil in Hx |].
    rewrite join_cons2, !str_length_app. specialize (IH Hx). lia.
Qed.

Lemma skip_ws_nonws (c : ascii) (s : string) :
  is_ws c = false → skip_ws (String c s) = String c s.
Proof. intros Hc. unfold skip_ws. simpl. by rewrite Hc. Qed.

Lemma skip_ws_ws (c : ascii) (s : string) :
  is_ws c = true → skip_ws (String c s) = skip_ws s.
Proof. intros Hc. unfold skip_ws. simpl. by rewrite Hc. Qed.

Lemma starts_cons (c x : ascii) (s : string) :
  starts c (String x s) = Ascii.eqb x c.
Proof. reflexivity. Qed.

Lemma tail_cons (x : ascii) (s : string) : tail (String x s) = s.
Proof. reflexivity. Qed.

(** One step of the decoder on a text whose next character is known. *)
Ltac scan_step :=
  repeat first
    [ rewrite skip_ws_nonws by reflexivity
    | rewrite skip_ws_ws by reflexivity
    | rewrite starts_cons
    | rewrite tail_cons ];
  repeat match goal with
    | |- context [Ascii.eqb ?a ?b] =>
        let r := eval vm_compute in (Ascii.eqb a b) in
        change (Ascii.eqb a b) with r
    end;
  cbv match.

Lemma array_loop_dumps (scan : scanner) (items : list pyval)
    (rest : string) (n : nat) :
  items ≠ [] → length items ≤ n → Forall (reads_back scan) items →
  array_loop scan n (join ", " (map dumps items) +:+ String "]" rest)
  = Some (items, rest).
Proof.
  revert n. induction items as [|x items IH]; [done |].
  intros n _ Hn Hall. apply Forall_cons in Hall as [[Hhx Hx] Hall].
  destruct n as [|n]; [simpl in Hn; lia |].
  destruct items as [|y items].
  - cbn [map array_loop]. rewrite join_single, Hx by done.
    cbn [mbind option_bind]. scan_step. reflexivity.
  - cbn [map]. rewrite join_cons2, !str_app_assoc. norm_app.
    cbn [array_loop]. rewrite Hx by done.
    cbn [mbind option_bind]. scan_step.
    rewrite skip_ws_head.
    2:{ apply (join_head _ (map dumps (y :: items))); [done |].
        apply Forall_fmap. eapply Forall_impl; [exact Hall |].
        by intros v [Hv _]. }
    change (dumps y :: map dumps items) with (map dumps (y :: items)).
    rewrite IH; [reflexivity | done | simpl in *; lia | done].
Qed.

(** *** Dicts *)

Lemma entry_text_unfold (k : string) (v : pyval) (t : string) :
  entry_text (k, v) +:+ t
  = String dquote (escape k +:+ String dquote
                     (String ":" (String " " (dumps v +:+ t)))).
Proof.
  unfold entry_text, encode_basestring_ascii. cbn [fst snd].
  rewrite !str_app_assoc. norm_app. rewrite !str_app_assoc. norm_app.
  reflexivity.
Qed.

Lemma entries_head (entries : list (string * pyval)) (t : string) :
  entries ≠ [] →
  ∃ body, join ", " (map entry_text entries) +:+ t = String dquote body.
Proof.
  destruct entries as [|[k v] [|kv entries]]; [done | |]; intros _;
    cbn [map].
  - rewrite join_single, entry_text_unfold. eauto.
  - rewrite join_cons2, !str_app_assoc, entry_text_unfold. eauto.
Qed.

Lemma object_loop_dumps (scan : scanner) (entries : list (string * pyval))
    (rest body : string) (n : nat) :
  entries ≠ [] → length entries ≤ n →
  Forall (λ kv, unicode_text kv.1 = true ∧ reads_back scan kv.2) entries →
  String dquote body
  = join ", " (map entry_text entries) +:+ String "}" rest →
  object_loop scan n body = Some (entries, rest).
Proof.
  revert n body. induction entries as [|[k v] entries IH]; [done |].
  intros n body _ Hn Hall Hbody.
  apply Forall_cons in Hall as [[Hk [Hhv Hv]] Hall]. cbn [fst snd] in *.
  destruct n as [|n]; [simpl in Hn; lia |].
  destruct entries as [|kv2 entries].
  - cbn [map] in Hbody. rewrite join_single, entry_text_unfold in Hbody.
    injection Hbody as ->.
    cbn [object_loop]. rewrite scanstring_escape by done.
    cbn [mbind option_bind]. scan_step.
    rewrite skip_ws_head by by apply value_head_app.
    rewrite Hv by done. cbn [mbind option_bind]. scan_step. reflexivity.
  - rewrite !map_cons, join_cons2, !str_app_assoc in Hbody.
    rewrite entry_text_unfold in Hbody. injection Hbody as ->.
    cbn [object_loop]. rewrite scanstring_escape by done.
    cbn [mbind option_bind]. scan_step.
    rewrite skip_ws_head by by apply value_head_app.
    rewrite Hv by done. cbn [mbind option_bind].
    rewrite (str_app_cons ","), (str_app_cons " "), str_app_nil_l. scan_step.
    destruct (entries_head (kv2 :: entries) (String "}" rest))
      as [body2 Hb2]; [done |].
    rewrite map_cons in Hb2. rewrite Hb2. scan_step.
    rewrite (IH n body2); [reflexivity | done | simpl in *; lia | done |].
    by rewrite map_cons, Hb2.
Qed.

Lemma dict_set_fresh (k : string) (v : pyval) (d : list (string * pyval)) :
  k ∉ (map fst d) → dict_set k v d = d ++ [(k, v)].
Proof.
  induction d as [|[k' v'] d IH]; [done |]. cbn [map fst]. intros Hk.
  apply not_elem_of_cons in Hk as [Hne Hk]. cbn [dict_set].
  destruct (String.eqb k' k) eqn:E.
  - apply String.eqb_eq in E. congruence.
  - by rewrite IH.
Qed.

Lemma distinct_cons (k : string) (keys : list string) :
  distinct (k :: keys) = true ↔ (k ∉ keys) ∧ (distinct keys = true).
Proof.
  cbn [distinct]. rewrite andb_true_iff, negb_true_iff, bool_decide_eq_false.
  done.
Qed.

Lemma dict_of_pairs_distinct (pairs : list (string * pyval)) :
  distinct (map fst pairs) = true → dict_of_pairs pairs = pairs.
Proof.
  unfold dict_of_pairs.
  enough (Hgen : ∀ acc,
             distinct (map fst (acc ++ pairs)) = true →
             foldl (λ d kv, dict_set kv.1 kv.2 d) acc pairs = acc ++ pairs)
    by (intros Hd; exact (Hgen [] Hd)).
  induction pairs as [|[k v] pairs IH]; intros acc Hd.
  - by rewrite List.app_nil_r.
  - cbn [foldl fst snd]. rewrite dict_set_fresh.
    + rewrite IH; rewrite <- List.app_assoc; [reflexivity | exact Hd].
    + clear IH.
      induction acc as [|[k' v'] acc IHacc]; [apply not_elem_of_nil |].
      cbn [app map fst] in Hd. apply distinct_cons in Hd as [Hk' Hd].
      cbn [map fst]. apply not_elem_of_cons. split; [|by apply IHacc].
      intros ->. apply Hk'. rewrite map_app. apply elem_of_app. right.
      cbn [map fst]. by left.
Qed.

(** *** Every plain value is read back *)

Lemma dumps_list (items : list pyval) (rest : string) :
  dumps (PList items) +:+ rest
  = String "[" (join ", " (map dumps items) +:+ String "]" rest).
Proof. cbn [dumps]. rewrite !str_app_assoc. reflexivity. Qed.

Lemma dumps_dict (entries : list (string * pyval)) (rest : string) :
  dumps (PDict entries) +:+ rest
  = String "{" (join ", " (map entry_text entries) +:+ String "}" rest).
Proof. cbn [dumps]. rewrite !str_app_assoc. reflexivity. Qed.

Lemma length_dumps_list (items : list pyval) :
  String.length (dumps (PList items))
  = S (String.length (join ", " (map dumps items)) + 1).
Proof.
  cbn [dumps]. rewrite str_app_cons, str_app_nil_l. simpl.
  by rewrite str_length_app.
Qed.

Lemma length_dumps_dict (entries : list (string * pyval)) :
  String.length (dumps (PDict entries))
  = S (String.length (join ", " (map entry_text entries)) + 1).
Proof.
  cbn [dumps]. rewrite str_app_cons, str_app_nil_l. simpl.
  by rewrite str_length_app.
Qed.

Lemma length_entry_text (kv : string * pyval) :
  String.length (dumps kv.2) ≤ String.length (entry_text kv).
Proof. unfold entry_text. rewrite !str_length_app. lia. Qed.

Lemma entry_text_head (kv : string * pyval) : value_head (entry_text kv).
Proof. eexists dquote, _. split; reflexivity. Qed.

Lemma scan_once_dumps (v : pyval) :
  plain v = true →
  ∀ depth rest,
    String.length (dumps v) ≤ depth → number_stop rest = true →
    scan_once depth (dumps v +:+ rest) = Some (v, rest).
Proof.
  induction v as [| b | n | repr | s | items IH | entries IH]
    using pyval_ind; intros Hp depth rest Hd Hr.
  - destruct depth as [|depth]; [simpl in Hd; lia | reflexivity].
  - destruct depth as [|depth]; [destruct b; simpl in Hd; lia |].
    destruct b; reflexivity.
  - destruct depth as [|depth].
    { destruct (dumps_head (PInt n) Hp) as (c & s' & Hs & _).
      rewrite Hs in Hd. simpl in Hd. lia. }
    apply scan_once_number_text; [apply match_number_int | done].
  - destruct depth as [|depth].
    { destruct (dumps_head (PFloat repr) Hp) as (c & s' & Hs & _).
      rewrite Hs in Hd. simpl in Hd. lia. }
    cbn [plain] in Hp. apply andb_true_iff in Hp as [Hp _].
    apply float_text_cases in Hp as [Hm | [-> | [-> | ->]]];
      [by apply scan_once_number_text | reflexivity ..].
  - destruct depth as [|depth]; [simpl in Hd; lia |].
    cbn [dumps]. unfold encode_basestring_ascii.
    rewrite str_app_cons, str_app_assoc, str_app_cons, str_app_nil_l.
    cbn [scan_once]. scan_step. rewrite scanstring_escape by done.
    reflexivity.
  - destruct depth as [|depth]; [simpl in Hd; lia |].
    rewrite length_dumps_list in Hd. rewrite dumps_list.
    cbn [scan_once]. scan_step. unfold JSONArray.
    destruct items as [|x items].
    { cbn [map]. change (join ", " []) with EmptyString.
      rewrite str_app_nil_l. scan_step. reflexivity. }
    cbn [plain] in Hp. rewrite forallb_forall in Hp.
    assert (Hheads : Forall value_head (map dumps (x :: items))).
    { apply Forall_fmap, Forall_forall. intros y Hy. apply dumps_head, Hp.
      by apply list_elem_of_In. }
    assert (Hne : map dumps (x :: items) ≠ []) by done.
    pose proof (join_head ", " _ (String "]" rest) Hne Hheads) as Hh.
    rewrite skip_ws_head by done.
    destruct (starts_head _ Hh) as [-> _].
    rewrite array_loop_dumps; [reflexivity | done | |].
    + rewrite str_length_app.
      destruct (length_join_items ", " _ Hheads) as [_ Hl].
      specialize (Hl Hne). rewrite length_map in Hl. lia.
    + rewrite Forall_forall in IH. apply Forall_forall. intros y Hy.
      split; [apply dumps_head, Hp; by apply list_elem_of_In |].
      intros r Hr'.
      apply IH; [done | apply Hp; by apply list_elem_of_In | | done].
      pose proof (length_join_member ", " (dumps y) (map dumps (x :: items))
                    ltac:(by apply list_elem_of_fmap_2)).
      lia.
  - destruct depth as [|depth]; [simpl in Hd; lia |].
    rewrite length_dumps_dict in Hd. rewrite dumps_dict.
    cbn [scan_once]. scan_step. unfold JSONObject.
    destruct entries as [|kv entries].
    { cbn [map]. change (join ", " []) with EmptyString.
      rewrite str_app_nil_l. scan_step. reflexivity. }
    cbn [plain] in Hp. apply andb_true_iff in Hp as [Hk Hp].
    rewrite forallb_forall in Hp.
    destruct (entries_head (kv :: entries) (String "}" rest))
      as [body Hb]; [done |].
    rewrite Hb. scan_step.
    rewrite (object_loop_dumps _ (kv :: entries) rest body).
    + cbn [mbind option_bind]. by rewrite dict_of_pairs_distinct.
    + done.
    + assert (Hheads : Forall value_head (map entry_text (kv :: entries))).
      { apply Forall_fmap, Forall_forall. intros y _. apply entry_text_head. }
      destruct (length_join_items ", " _ Hheads) as [_ Hl].
      specialize (Hl ltac:(done)). rewrite length_map in Hl.
      apply (f_equal String.length) in Hb. rewrite str_length_app in Hb.
      cbn [map length String.length] in *. lia.
    + rewrite Forall_forall in IH. apply Forall_forall. intros y Hy.
      assert (Hy' : unicode_text y.1 = true ∧ plain y.2 = true).
      { apply andb_true_iff, Hp. by apply list_elem_of_In. }
      destruct Hy' as [Hy1 Hy2]. split; [done |].
      split; [by apply dumps_head |].
      intros r Hr'.
      apply IH; [done | done | | done].
      pose proof (length_join_member ", " (entry_text y)
                    (map entry_text (kv :: entries))
                    ltac:(by apply list_elem_of_fmap_2)).
      pose proof (length_entry_text y). lia.
    + done.
Qed.

(** [json.loads(json.dumps(v)) == v]. *)
Theorem loads_dumps (v : pyval) : plain v = true → loads (dumps v) = Some v.
Proof.
  intros Hp. unfold loads.
  rewrite skip_ws_head by by apply dumps_head.
  rewrite <- (str_app_nil_r (dumps v)) at 2.
  rewrite scan_once_dumps by done. reflexivity.
Qed.

End JsonFacts.

Import PyStr PyStrFacts Json JsonFacts Urllib.

(** ** The text of the encoder *)

Lemma printable_app (a b : string) :
  printable (a +:+ b) = printable a && printable b.
Proof.
  unfold printable, chars.
  induction a as [|c a IH]; norm_app; cbn [list_ascii_of_string forallb];
    [reflexivity |].
  by rewrite IH, andb_assoc.
Qed.

Lemma printable_cons (c : ascii) (s : string) :
  printable (String c s) = printable_char c && printable s.
Proof. reflexivity. Qed.

Lemma escape_char_printable (c : ascii) : printable (escape_char c) = true.
Proof. destruct c as [[] [] [] [] [] [] [] []]; vm_compute; reflexivity. Qed.

Lemma hex_digit_printable (d : N) :
  (d < 16)%N → printable_char (hex_digit d) = true.
Proof.
  intros Hd. rewrite <- (N2Nat.id d).
  assert (Hn : (N.to_nat d < 16)%nat) by lia.
  revert Hn. generalize (N.to_nat d). intros n Hn.
  do 16 (destruct n as [|n]; [reflexivity |]). lia.
Qed.

Lemma escape_u_printable (n : N) :
  (n < 65536)%N → printable (escape_u n) = true.
Proof.
  intros Hn. unfold escape_u, hex4. rewrite !printable_cons.
  rewrite !hex_digit_printable by div_lia. reflexivity.
Qed.

Lemma low_bits_bound (a n : N) :
  N.land a 1023 = 0%N → (N.lor a (N.land n 1023) < a + 1024)%N.
Proof.
  intros Ha. rewrite low_bits_disjoint; [| done |].
  - change 1023%N with (N.ones 10). rewrite N.land_ones.
    change (2 ^ 10)%N with 1024%N. div_lia.
  - change 1023%N with (N.ones 10). rewrite N.land_ones.
    change (2 ^ 10)%N with 1024%N. div_lia.
Qed.

Lemma escape_point_printable (p : N) : printable (escape_point p) = true.
Proof.
  unfold escape_point. destruct (p <? 128)%N; [apply escape_char_printable |].
  destruct (p <? 65536)%N eqn:Hp.
  - apply N.ltb_lt in Hp. by apply escape_u_printable.
  - cbv zeta. rewrite printable_app.
    pose proof (low_bits_bound 55296 (N.shiftr (p - 65536) 10) eq_refl).
    pose proof (low_bits_bound 56320 (p - 65536) eq_refl).
    rewrite !escape_u_printable by lia. reflexivity.
Qed.

Lemma escape_printable (s : string) : printable (escape s) = true.
Proof.
  unfold escape. induction (points s) as [|p ps IH]; [reflexivity |].
  cbn [foldr]. by rewrite printable_app, escape_point_printable, IH.
Qed.

Lemma encode_printable (s : string) :
  printable (encode_basestring_ascii s) = true.
Proof.
  unfold encode_basestring_ascii.
  by rewrite printable_cons, printable_app, escape_printable.
Qed.

Lemma is_digit_printable (c : ascii) :
  is_digit c = true → printable_char c = true.
Proof. destruct c as [[] [] [] [] [] [] [] []]; vm_compute; congruence. Qed.

Lemma span_digits_printable (s ds r : string) :
  span_digits s = (ds, r) → printable ds = true.
Proof.
  revert ds. induction s as [|c s IH]; intros ds; cbn [span_digits].
  - by intros [= <- <-].
  - destruct (is_digit c) eqn:Hc; [|by intros [= <- <-]].
    destruct (span_digits s) as [ds' r']. intros [= <- <-].
    rewrite printable_cons, (is_digit_printable c Hc). by apply IH.
Qed.

Lemma match_unsigned_printable (s ds r : string) :
  match_unsigned s = Some (ds, r) → printable ds = true.
Proof.
  unfold match_unsigned. destruct (starts "0" s); [by intros [= <- <-] |].
  destruct (span_digits s) as [[|d ds'] r'] eqn:E; [done |].
  intros [= <- <-]. by eapply span_digits_printable.
Qed.

Lemma match_integer_printable (s ds r : string) :
  match_integer s = Some (ds, r) → printable ds = true.
Proof.
  unfold match_integer. destruct (starts "-" s).
  - destruct (match_unsigned (tail s)) as [[ds' r'] |] eqn:E; [|done].
    cbn. intros [= <- <-]. rewrite printable_cons.
    by rewrite (match_unsigned_printable _ _ _ E).
  - apply match_unsigned_printable.
Qed.

Lemma match_frac_printable (s : string) :
  printable (match_frac s).1 = true.
Proof.
  unfold match_frac. destruct (starts "." s); [|reflexivity].
  destruct (span_digits (tail s)) as [[|d ds] r] eqn:E; [reflexivity |].
  cbn [fst]. rewrite printable_cons.
  by rewrite (span_digits_printable _ _ _ E).
Qed.

Lemma match_exp_printable (s : string) :
  printable (match_exp s).1 = true.
Proof.
  unfold match_exp. destruct s as [|e r]; [reflexivity |].
  destruct (Ascii.eqb e "e" || Ascii.eqb e "E") eqn:He; [|reflexivity].
  assert (Hp : printable_char e = true).
  { apply orb_true_iff in He as [He | He]; apply Ascii.eqb_eq in He as ->;
      reflexivity. }
  assert (Hsign : ∀ sign r1,
            printable sign = true →
            printable (match span_digits r1 with
                       | (EmptyString, _) => (EmptyString, String e r)
                       | (ds, r') => (String e (sign +:+ ds), r')
                       end).1 = true).
  { intros sign r1 Hs.
    destruct (span_digits r1) as [[|d ds] r'] eqn:E; [reflexivity |].
    cbn [fst]. rewrite printable_cons, printable_app, Hp, Hs.
    by rewrite (span_digits_printable _ _ _ E). }
  destruct (starts "-" r); [by apply Hsign |].
  destruct (starts "+" r); by apply Hsign.
Qed.

Lemma match_number_printable (s l r : string) :
  match_number s = Some (PFloat l, r) → printable l = true.
Proof.
  unfold match_number.
  destruct (match_integer s) as [[integer r1] |] eqn:Hi; [|done]. cbn.
  pose proof (match_frac_printable r1) as Hf.
  destruct (match_frac r1) as [frac r2].
  pose proof (match_exp_printable r2) as He.
  destruct (match_exp r2) as [exp r3]. cbn [fst] in *.
  destruct (is_empty frac && is_empty exp).
  - destruct (NilZero.int_of_string integer); [|done]. done.
  - intros [= <- <-]. rewrite !printable_app, Hf, He.
    by rewrite (match_integer_printable _ _ _ Hi).
Qed.

Lemma float_text_printable (repr : string) :
  float_text repr = true → printable repr = true.
Proof.
  intros [Hm | [-> | [-> | ->]]]%float_text_cases; try reflexivity.
  by eapply match_number_printable.
Qed.

Lemma digits_printable (d : Decimal.uint) :
  printable (NilEmpty.string_of_uint d) = true.
Proof.
  induction d as [|d IH|d IH|d IH|d IH|d IH|d IH|d IH|d IH|d IH|d IH];
    cbn [NilEmpty.string_of_uint]; rewrite ?printable_cons, ?IH; reflexivity.
Qed.

Lemma string_of_uint_printable (d : Decimal.uint) :
  printable (NilZero.string_of_uint d) = true.
Proof.
  unfold NilZero.string_of_uint. destruct d; try reflexivity;
    apply digits_printable.
Qed.

Lemma int_repr_printable (n : Z) : printable (int_repr n) = true.
Proof.
  unfold int_repr, NilZero.string_of_int.
  destruct (Z.to_int n); [|rewrite printable_cons];
    by rewrite string_of_uint_printable.
Qed.

Lemma join_printable (sep : string) (l : list string) :
  printable sep = true → Forall (λ s, printable s = true) l →
  printable (join sep l) = true.
Proof.
  intros Hsep Hl. induction Hl as [|x l Hx Hl IH]; [reflexivity |].
  destruct l as [|y l]; [exact Hx |].
  change (join sep (x :: y :: l)) with (x +:+ sep +:+ join sep (y :: l)).
  by rewrite !printable_app, Hx, Hsep, IH.
Qed.

(** The text [json.dumps] writes for a value is printable ASCII. *)
Lemma dumps_printable (v : pyval) :
  plain v = true → printable (dumps v) = true.
Proof.
  induction v as [| [] | n | repr | s | items IH | entries IH]
    using pyval_ind; intros Hp; try reflexivity.
  - apply int_repr_printable.
  - cbn [plain] in Hp. apply andb_true_iff in Hp as [Hp _].
    by apply float_text_printable.
  - apply encode_printable.
  - cbn [dumps plain] in *. rewrite !printable_app.
    rewrite join_printable; [reflexivity | reflexivity |].
    apply Forall_fmap, Forall_forall. intros x Hx. unfold compose.
    rewrite forallb_forall in Hp. rewrite Forall_forall in IH.
    apply IH; [done |]. apply Hp. by apply list_elem_of_In.
  - cbn [dumps plain] in *. apply andb_true_iff in Hp as [_ Hp].
    rewrite !printable_app.
    rewrite join_printable; [reflexivity | reflexivity |].
    apply Forall_fmap, Forall_forall. intros [k x] Hx.
    unfold compose. cbn [fst snd].
    rewrite forallb_forall in Hp. rewrite Forall_forall in IH.
    rewrite !printable_app, encode_printable.
    specialize (IH (k, x) Hx). cbn [snd] in IH. rewrite IH; [reflexivity |].
    by destruct (andb_prop _ _ (Hp (k, x) ltac:(by apply list_elem_of_In))).
Qed.


(** ** The transcript handler, case by case *)

Import PyStr PyStrFacts Json JsonFacts Urllib.

(** Unfolding the computations on the world, and nothing below them. *)
Ltac run_M :=
  cbv beta iota zeta
      delta [mbind mret M_bind M_ret lift raise emit mkdir path_exists
             read_text write_text fetch throw];
  cbn [cache_dir cache_files trace].

Ltac world_eq :=
  cbn [cache_dir cache_files trace]; rewrite <- ?List.app_assoc; cbn [app];
  reflexivity.

Ltac handler_start :=
  cbv beta iota zeta
      delta [download_closed_captions closed_captions_args attr_video_url
             assoc inst_fields String.eqb Ascii.eqb Bool.eqb
             mbind mret M_bind M_ret lift mkdir];
  cbn [cache_dir cache_files trace].

(** ** Names, texts and values *)

Lemma has_char_false_app (c : ascii) (a b : string) :
  has_char c (a +:+ b) = false ↔ has_char c a = false ∧ has_char c b = false.
Proof. rewrite has_char_app. apply orb_false_iff. Qed.

Lemma split_no_char (sep : ascii) (s : string) :
  has_char sep s = false → split sep s = [s].
Proof.
  induction s as [|c s IH]; [reflexivity |]. cbn [has_char split].
  intros [Hc Hs]%orb_false_iff. rewrite Hc, (IH Hs). reflexivity.
Qed.

(** The name of a file leads to an entry of the directory, and no system
    call fails on it. *)
Lemma file_name_place (file : string) :
  file_name file = true →
  has_char nul file = false ∧ place_of file = entry
  ∧ name_too_long file = false.
Proof.
  unfold file_name. rewrite !andb_true_iff, !negb_true_iff.
  intros [[[Hslash Hnul] Hlong] Hdots].
  assert (Hplace : place_of file = entry).
  { unfold place_of, path_parts. rewrite (split_no_char "/" file Hslash).
    cbn [first_seg hd List.filter]. rewrite <- orb_assoc in Hdots.
    apply orb_false_iff in Hdots as [He Hd]. rewrite He.
    apply orb_false_iff in Hd as [Hd1 Hd2]. rewrite Hd1, Hd2.
    cbn [orb negb]. by rewrite Hslash. }
  split; [done |]. split; [done |].
  unfold name_too_long. by rewrite Hplace.
Qed.

Lemma file_name_path_error (file : string) (w : world) :
  file_name file = true → cache_dir w = true → path_error w file = None.
Proof.
  intros (_ & Hplace & Hlong)%file_name_place Hdir.
  unfold path_error. by rewrite Hdir, Hlong, Hplace.
Qed.

Lemma file_name_followed (file : string) :
  file_name file = true → followed file = true.
Proof.
  intros (_ & Hplace & _)%file_name_place. unfold followed.
  rewrite Hplace. apply orb_true_r.
Qed.

Lemma printable_char_facts (c : ascii) :
  printable_char c = true →
  (code c <? 128)%N = true ∧ Ascii.eqb c ch_cr = false
  ∧ Ascii.eqb c nul = false ∧ byte (code c) = c.
Proof.
  destruct c as [[] [] [] [] [] [] [] []]; intros Hc;
    first [discriminate Hc | repeat split; reflexivity].
Qed.

(** A text of printable ASCII is the UTF-8 of itself, and has no line end
    to translate. *)
Lemma printable_points (s : string) :
  printable s = true →
  forallb scalar (points s) = true ∧ encode (points s) = s.
Proof.
  induction s as [|c s IH]; [done |].
  change (printable (String c s)) with (printable_char c && printable s).
  intros [Hc Hs]%andb_true_iff. destruct (IH Hs) as [IH1 IH2].
  assert (Hp : points (String c s) = code c :: points s).
  { destruct c as [[] [] [] [] [] [] [] []];
      first [discriminate Hc | reflexivity]. }
  rewrite Hp. cbn [forallb encode foldr]. unfold encode in IH2.
  rewrite IH1, IH2.
  destruct (printable_char_facts c Hc) as (Hlt & _ & _ & Hb).
  split.
  - rewrite andb_true_r. unfold scalar, is_high_surrogate, is_low_surrogate.
    apply N.ltb_lt in Hlt. apply andb_true_iff. split.
    + apply N.ltb_lt. lia.
    + apply negb_true_iff, orb_false_iff. split; apply andb_false_iff; left;
        apply N.leb_gt; lia.
  - unfold utf8. by rewrite Hlt, Hb.
Qed.

Lemma printable_unicode_text (s : string) :
  printable s = true → unicode_text s = true.
Proof.
  intros [H1 H2]%printable_points. unfold unicode_text.
  rewrite H1, H2. by rewrite String.eqb_refl.
Qed.

Lemma printable_universal_newlines (s : string) :
  printable s = true → universal_newlines s = s.
Proof.
  induction s as [|c s IH]; [done |].
  change (printable (String c s)) with (printable_char c && printable s).
  intros [Hc Hs]%andb_true_iff.
  destruct (printable_char_facts c Hc) as (_ & Hcr & _).
  cbn [universal_newlines]. by rewrite Hcr, (IH Hs).
Qed.

(** A plain value is within the limits. *)
Lemma plain_within_limits (v : pyval) :
  plain v = true → within_limits v = true.
Proof.
  induction v as [| b | n | repr | s | items IH | entries IH]
    using pyval_ind; intros Hp; try done.
  - cbn [plain within_limits] in *. apply forallb_forall. intros x Hx.
    rewrite forallb_forall in Hp. rewrite Forall_forall in IH.
    apply IH; [by apply list_elem_of_In | by apply Hp].
  - cbn [plain within_limits] in *. apply andb_true_iff in Hp as [_ Hp].
    apply forallb_forall. intros x Hx.
    rewrite forallb_forall in Hp. rewrite Forall_forall in IH.
    apply IH; [by apply list_elem_of_In |].
    by destruct (andb_prop _ _ (Hp x Hx)).
Qed.

Lemma json_dumps_plain (v : pyval) :
  plain v = true → json_dumps v = Ok (dumps v).
Proof.
  intros Hp. unfold json_dumps. by rewrite plain_within_limits.
Qed.

Section handler_facts.
Context `{PyLib} `{Services}.

Lemma json_loads_dumps (v : pyval) :
  plain v = true → json_loads (dumps v) = Ok v.
Proof.
  intros Hp. unfold json_loads.
  by rewrite loads_dumps, plain_within_limits.
Qed.

(** A recognised identifier is one the handler's own test lets through. *)
Lemma handler_unrecognized (url : string) (w : world) :
  _parse_youtube_url url = None
  ∨ _parse_youtube_url url = Some EmptyString →
  download_closed_captions (closed_captions_args url) w
  = (throw ValueError ("Unrecognized YouTube URL: " +:+ url),
     after_mkdir w []).
Proof.
  intros Hp. handler_start.
  destruct Hp as [-> | ->]; reflexivity.
Qed.

(** The handler on a URL with an identifier, case by case. *)
Lemma handler_run (url video_id : string) (w : world) :
  _parse_youtube_url url = Some video_id → video_id ≠ EmptyString →
  download_closed_captions (closed_captions_args url) w
  = let file := video_id +:+ ".json" in
    if negb (has_char nul file) && name_too_long file
    then (Raise (os_error ENAMETOOLONG file), after_mkdir w [EvExists file])
    else
      match cache_files w !! file with
      | Some data =>
          (if has_char nul file then throw ValueError "embedded null byte"
           else served data,
           after_mkdir w [EvExists file; EvRead file])
      | None => fetched w video_id
      end.
Proof.
  intros Hp Hne. handler_start. rewrite Hp.
  destruct video_id as [|c id]; [done |].
  set (video_id := String c id) in *.
  set (file := video_id +:+ ".json") in *.
  unfold after_mkdir, fetched, served, render. cbv zeta. fold file. run_M.
  destruct (negb (has_char nul file) && name_too_long file) eqn:Hlong.
  { cbn [andb]. rewrite andb_true_r, Hlong. world_eq. }
  rewrite andb_true_r, Hlong.
  destruct (cache_files w !! file) as [data |] eqn:Hfile.
  - rewrite bool_decide_eq_true_2 by eauto. cbn [negb]. run_M.
    rewrite Hfile.
    destruct (has_char nul file); [world_eq |].
    destruct (unicode_text data); [|world_eq].
    destruct (json_loads _) as [transcript | e]; [|world_eq].
    cbn [mbind result_bind].
    destruct (iterate transcript) as [lines | e]; [|world_eq].
    cbn [mbind result_bind].
    destruct (mapM subscript_text lines) as [texts | e]; [|world_eq].
    cbn [mbind result_bind].
    destruct (str_items 0 texts) as [strs | e]; world_eq.
  - rewrite bool_decide_eq_false_2 by (intros [? ?]; discriminate).
    cbn [negb]. run_M. rewrite <- !List.app_assoc. cbn [app].
    destruct (get_transcript _ _) as [transcript | e]; [|world_eq].
    destruct (negb (truthy transcript) || negb (is_list transcript));
      [world_eq |].
    run_M. destruct (json_dumps transcript) as [json_data | e]; [|world_eq].
    run_M. destruct (has_char nul file); [world_eq |].
    unfold path_error. cbn [cache_dir cache_files negb].
    destruct (name_too_long file); [world_eq |].
    destruct (place_of file); try destruct (bool_decide _);
      try world_eq.
    all: cbn [mbind result_bind];
      destruct (iterate transcript) as [lines | e]; [|world_eq];
      cbn [mbind result_bind];
      destruct (mapM subscript_text lines) as [texts | e]; [|world_eq];
      cbn [mbind result_bind];
      destruct (str_items 0 texts) as [strs | e]; world_eq.
Qed.

Lemma handler_miss (url video_id : string) (w : world) :
  _parse_youtube_url url = Some video_id → video_id ≠ EmptyString →
  file_name (video_id +:+ ".json") = true →
  cache_files w !! (video_id +:+ ".json") = None →
  download_closed_captions (closed_captions_args url) w
  = let file := video_id +:+ ".json" in
    match get_transcript (trace w ++ [EvMkdir; EvExists file]) video_id with
    | Raise e => (Raise e, after_mkdir w [EvExists file; EvFetch video_id])
    | Ok transcript =>
        if negb (truthy transcript) || negb (is_list transcript)
        then (throw ValueError "No transcript found for the video.",
              after_mkdir w [EvExists file; EvFetch video_id])
        else
          match json_dumps transcript with
          | Raise e =>
              (Raise e, after_mkdir w [EvExists file; EvFetch video_id])
          | Ok json_data =>
              (render transcript,
               {| cache_dir := true;
                  cache_files := <[file := json_data]> (cache_files w);
                  trace := trace w ++ [EvMkdir; EvExists file;
                                       EvFetch video_id; EvWrite file] |})
          end
    end.
Proof.
  intros Hp Hne Hname Hmiss. rewrite (handler_run url video_id) by done.
  cbv zeta. destruct (file_name_place _ Hname) as (Hnul & _ & Hlong).
  rewrite Hnul, Hlong, Hmiss. cbn [negb andb]. unfold fetched. cbv zeta.
  rewrite Hnul, file_name_path_error by done. reflexivity.
Qed.

Lemma handler_hit (url video_id data : string) (w : world) :
  _parse_youtube_url url = Some video_id → video_id ≠ EmptyString →
  file_name (video_id +:+ ".json") = true →
  cache_files w !! (video_id +:+ ".json") = Some data →
  download_closed_captions (closed_captions_args url) w
  = let file := video_id +:+ ".json" in
    (served data, after_mkdir w [EvExists file; EvRead file]).
Proof.
  intros Hp Hne Hname Hhit. rewrite (handler_run url video_id) by done.
  cbv zeta. destruct (file_name_place _ Hname) as (Hnul & _ & Hlong).
  by rewrite Hnul, Hlong, Hhit.
Qed.



(** A file that holds the text of a plain value is served as the value. *)
Lemma served_dumps (v : pyval) :
  plain v = true → served (dumps v) = render v.
Proof.
  intros Hp. pose proof (dumps_printable v Hp) as Hpr. unfold served.
  rewrite printable_unicode_text, printable_universal_newlines by done.
  by rewrite json_loads_dumps.
Qed.

(** The text of a transcript made of caption records. *)
Lemma render_captions (items : list pyval) :
  forallb caption_record items = true →
  render (PList items)
  = Ok [ {| type := "text"; text := join " " (map caption_text items) |} ].
Proof.
  intros Hc. unfold render. cbn [iterate mbind result_bind].
  assert (Ht : mapM subscript_text items
               = Ok (map (λ v, PStr (caption_text v)) items)).
  { induction items as [|v items IH]; [reflexivity |].
    cbn [forallb] in Hc. apply andb_true_iff in Hc as [Hv Hc].
    destruct v as [| | | | | |entries]; try discriminate.
    cbn [caption_record] in Hv.
    destruct (assoc "text" entries) as [[| | | |s| |]|] eqn:E;
      try discriminate.
    cbn [mapM subscript_text map caption_text]. rewrite E, (IH Hc).
    reflexivity. }
  rewrite Ht. cbn [mbind result_bind].
  assert (Hs : ∀ i, str_items i (map (λ v, PStr (caption_text v)) items)
                    = Ok (map caption_text items)).
  { clear. induction items as [|v items IH]; intros i; [reflexivity |].
    cbn [map str_items mbind result_bind]. by rewrite IH. }
  rewrite Hs. reflexivity.
Qed.

Lemma record_plain (v : pyval) : record v = true → plain v = true.
Proof.
  destruct v; try discriminate. unfold record.
  by intros [? _]%andb_true_iff.
Qed.

Lemma caption_record_record (v : pyval) :
  caption_record v = true → record v = true.
Proof.
  destruct v as [| | | | | |entries]; try discriminate.
  unfold caption_record.
  by destruct (assoc "text" entries) as [[]|].
Qed.

Lemma records_plain (items : list pyval) :
  forallb record items = true → plain (PList items) = true.
Proof.
  cbn [plain]. rewrite !forallb_forall. intros Hc v Hv.
  by apply record_plain, Hc.
Qed.

Lemma caption_records_plain (items : list pyval) :
  forallb caption_record items = true → plain (PList items) = true.
Proof.
  intros Hc. apply records_plain. rewrite forallb_forall in *.
  intros v Hv. by apply caption_record_record, Hc.
Qed.

End handler_facts.

Lemma fetch_calls_app (a b : list event) :
  fetch_calls (a ++ b) = fetch_calls a + fetch_calls b.
Proof. unfold fetch_calls. by rewrite List.filter_app, List.length_app. Qed.

(** ** The URL parser *)

Section parser_facts.
Context `{PyLib}.

(** Every list of values in the result of [parse_qs] has a first item. *)
Lemma parse_qs_values (qs name : string) (values : list string) :
  parse_qs qs !! name = Some values → values ≠ [].
Proof.
  unfold parse_qs.
  enough (Hgen : ∀ pairs (m : gmap string (list string)),
             (∀ k vs, m !! k = Some vs → vs ≠ []) →
             ∀ k vs,
               foldl (λ parsed_result '(name, value),
                        <[name := default [] (parsed_result !! name)
                                  ++ [value]]> parsed_result) m pairs
               !! k = Some vs → vs ≠ []).
  { apply Hgen. intros k vs Hk. by rewrite lookup_empty in Hk. }
  induction pairs as [|[n v] pairs IH]; intros m Hm k vs; [apply Hm |].
  cbn [foldl]. apply IH. intros k' vs'.
  destruct (decide (n = k')) as [-> | Hne].
  - rewrite lookup_insert_eq. intros [= <-]. by destruct (default [] (m !! k')).
  - rewrite lookup_insert_ne by done. apply Hm.
Qed.

(** The short-link branch: the last piece after a slash, cut at the first
    question mark. *)
Lemma short_link_segment (url : string) :
  let video_id := first_seg (split "?" (last_seg (split "/" url))) in
  ∃ pre post,
    url = pre +:+ video_id +:+ post
    ∧ (pre = EmptyString ∨ ∃ p, pre = p +:+ "/")
    ∧ (post = EmptyString ∨ ∃ q, post = "?" +:+ q)
    ∧ has_char "/" (video_id +:+ post) = false
    ∧ has_char "?" video_id = false.
Proof.
  cbv zeta.
  destruct (split_last "/" url) as [Hslash Hlast].
  set (seg := last_seg (split "/" url)) in *.
  destruct (split_first "?" seg) as [Hq Hfirst].
  set (video_id := first_seg (split "?" seg)) in *.
  assert (Hseg : ∃ post, seg = video_id +:+ post
                         ∧ (post = EmptyString ∨ ∃ q, post = "?" +:+ q)).
  { destruct Hfirst as [Hs | [q Hs]].
    - exists EmptyString. split; [by rewrite str_app_nil_r | by left].
    - exists (String "?" q). split; [exact Hs | right; by exists q]. }
  destruct Hseg as (post & Hseg & Hpost).
  assert (Hurl : ∃ pre, url = pre +:+ seg
                        ∧ (pre = EmptyString ∨ ∃ p, pre = p +:+ "/")).
  { destruct Hlast as [Hu | [p Hu]].
    - exists EmptyString. split; [exact Hu | by left].
    - exists (p +:+ "/"). split; [|right; by exists p].
      by rewrite str_app_assoc. }
  destruct Hurl as (pre & Hurl & Hpre).
  exists pre, post. rewrite <- Hseg. done.
Qed.

End parser_facts.

(** ** The registry and the dispatcher *)

Lemma mapping_eq :
  mapping
  = {[ "DownloadClosedCaptions" := tool_description DownloadClosedCaptions ]}.
Proof. vm_compute. reflexivity. Qed.

Lemma mapping_lookup (name : string) :
  mapping !! name
  = if String.eqb name "DownloadClosedCaptions"
    then Some (tool_description DownloadClosedCaptions) else None.
Proof.
  rewrite mapping_eq. destruct (String.eqb_spec name "DownloadClosedCaptions").
  - subst. apply lookup_singleton_eq.
  - by apply lookup_singleton_ne.
Qed.

Lemma wrapped_contains (e : exn) :
  contains (exn_str e) (exn_str (wrapped e)) = true.
Proof.
  apply contains_spec. exists "Caught Exception. Error: ", EmptyString.
  cbn [wrapped exn_str]. by rewrite str_app_nil_r.
Qed.

(** An exception that does not derive from [Exception] passes through the
    [except Exception] clause. *)
Lemma try_except_passes (A : Type) (body : M A) (handler : exn → M A)
    (e : exn) (w w' : world) :
  body w = (Raise e, w') →
  issubclass_exn (exn_type e) Exception = false →
  try_except_Exception body handler w = (Raise e, w').
Proof. intros Hb He. unfold try_except_Exception. by rewrite Hb, He. Qed.

Section dispatch_facts.
Context `{PyLib} `{Services}.

(** Whatever binding raises derives from [Exception]. *)
Lemma tool_args_raises (tool : Tool) (kwargs : list (string * pyval))
    (e : exn) :
  tool_args tool kwargs = Raise e →
  issubclass_exn (exn_type e) Exception = true.
Proof.
  unfold tool_args, model_init, throw.
  destruct (assoc "tool" kwargs); [by intros [= <-] |].
  destruct (assoc (name tool) getmembers_isclass); [|by intros [= <-]].
  destruct (rights _); [done | by intros [= <-]].
Qed.

(** The runner is called with the session first: the dispatch is on the
    class of the session, it selects the default implementation, and that
    one takes a single argument. *)
Lemma tool_runner_with_session (args : pyobj) (w : world) :
  tool_runner [OSession; args] w
  = (Raise two_arguments_error, w).
Proof. reflexivity. Qed.

Lemma call_tool_registered (name : string) (tool : Tool)
    (kwargs : list (string * pyval)) (w : world) :
  mapping !! name = Some tool →
  call_tool name (PDict kwargs) w
  = let e := match tool_args tool kwargs with
             | Raise e => e
             | Ok _ => two_arguments_error
             end in
    (Raise (wrapped e), emit (EvLog ("Error running tool: " +:+ name)) w).
Proof.
  intros Hm. unfold call_tool. rewrite Hm.
  unfold try_except_Exception, mbind, M_bind, lift.
  destruct (tool_args tool kwargs) as [args | e] eqn:Hb.
  - rewrite tool_runner_with_session. reflexivity.
  - rewrite (tool_args_raises _ _ _ Hb). reflexivity.
Qed.

End dispatch_facts.

(** * Further facts *)

(** ** Strings and URLs *)

Lemma remove_app (p : ascii → bool) (a b : string) :
  remove p (a +:+ b) = remove p a +:+ remove p b.
Proof.
  induction a as [|c a IH]; norm_app; cbn [remove]; [reflexivity |].
  rewrite IH. by destruct (p c).
Qed.

Lemma remove_none (p : ascii → bool) (s : string) :
  forallb (λ c, negb (p c)) (chars s) = true → remove p s = s.
Proof.
  induction s as [|c s IH]; cbn [remove chars list_ascii_of_string forallb];
    [done |].
  intros [Hc Hs]%andb_true_iff. apply negb_true_iff in Hc as ->.
  f_equal. by apply IH.
Qed.

Lemma unreserved_has_char (c : ascii) (s : string) :
  unreserved s = true → reserved c = true → has_char c s = false.
Proof.
  intros Hs Hc. induction s as [|x s IH]; [reflexivity |].
  unfold unreserved in Hs. cbn [chars list_ascii_of_string forallb] in Hs.
  apply andb_true_iff in Hs as [Hx Hs]. cbn [has_char].
  rewrite (IH Hs), orb_false_r.
  destruct (Ascii.eqb_spec x c) as [-> |]; [|reflexivity].
  by rewrite Hc in Hx.
Qed.

Lemma unreserved_remove (s : string) :
  unreserved s = true → remove unsafe_url_byte s = s.
Proof.
  intros Hs. apply remove_none. unfold unreserved in Hs.
  rewrite forallb_forall in *. intros c Hc. specialize (Hs c Hc).
  unfold reserved in Hs. apply negb_true_iff in Hs.
  apply orb_false_iff in Hs as [_ ->]. reflexivity.
Qed.

Lemma split1_found (sep : ascii) (a b x y : string) :
  split1 sep a = (x, Some y) → split1 sep (a +:+ b) = (x, Some (y +:+ b)).
Proof.
  revert x. induction a as [|c a IH]; intros x; cbn [split1]; [done |].
  norm_app. cbn [split1]. destruct (Ascii.eqb c sep).
  - by intros [= <- <-].
  - destruct (split1 sep a) as [a1 o] eqn:E. intros [= <- ->].
    by rewrite (IH a1 eq_refl).
Qed.

Lemma split1_not_found (sep : ascii) (a b : string) :
  has_char sep a = false →
  split1 sep (a +:+ b) = (a +:+ (split1 sep b).1, (split1 sep b).2).
Proof.
  induction a as [|c a IH]; norm_app; cbn [has_char split1].
  - intros _. by destruct (split1 sep b).
  - intros [Hc Ha]%orb_false_iff. rewrite Hc, (IH Ha). reflexivity.
Qed.

Lemma split1_join (sep : ascii) (s a b : string) :
  split1 sep s = (a, Some b) → s = a +:+ String sep b.
Proof.
  revert a. induction s as [|c s IH]; intros a; cbn [split1]; [done |].
  destruct (Ascii.eqb_spec c sep) as [-> |].
  - by intros [= <- <-].
  - destruct (split1 sep s) as [a1 o]. intros [= <- ->]. norm_app.
    by rewrite <- (IH a1 eq_refl).
Qed.

Lemma split_none (sep : ascii) (a : string) :
  has_char sep a = false → split sep a = [a].
Proof.
  induction a as [|c a IH]; cbn [has_char split]; [done |].
  intros [Hc Ha]%orb_false_iff. by rewrite Hc, (IH Ha).
Qed.

Lemma split_at_sep (sep : ascii) (a b : string) :
  has_char sep a = false →
  split sep (a +:+ String sep b) = a :: split sep b.
Proof.
  induction a as [|c a IH]; norm_app; cbn [has_char split].
  - intros _. by rewrite Ascii.eqb_refl.
  - intros [Hc Ha]%orb_false_iff. by rewrite Hc, (IH Ha).
Qed.

Lemma last_seg_after_sep (sep : ascii) (a b : string) :
  last_seg (split sep (a +:+ String sep b)) = last_seg (split sep b).
Proof.
  unfold last_seg. pose proof (split_nonempty sep b) as Hb.
  induction a as [|c a IH]; norm_app; cbn [split].
  - rewrite Ascii.eqb_refl. by destruct (split sep b).
  - pose proof (split_nonempty sep (a +:+ String sep b)) as Ha.
    destruct (Ascii.eqb c sep).
    + rewrite <- IH. by destruct (split sep (a +:+ String sep b)).
    + rewrite <- IH. destruct (split sep (a +:+ String sep b)) as [|x l] eqn:E;
        [done |].
      destruct l as [|y l]; [|reflexivity].
      (* a single piece cannot hold the separator *)
      exfalso. pose proof (split_no_sep sep (a +:+ String sep b)) as Hno.
      pose proof (join_split sep (a +:+ String sep b)) as Hj.
      rewrite E in Hno, Hj. cbn in Hj. subst x.
      apply Forall_cons in Hno as [Hno _].
      rewrite has_char_app in Hno. cbn [has_char] in Hno.
      rewrite Ascii.eqb_refl in Hno. cbn in Hno.
      by rewrite orb_true_r in Hno.
Qed.

(** The piece between the last slash and the question mark after it. *)
Lemma short_link_pieces (pre video_id more : string) :
  has_char "/" video_id = false → has_char "?" video_id = false →
  more = EmptyString
  ∨ (starts "?" more = true ∧ has_char "/" more = false) →
  first_seg (split "?" (last_seg (split "/"
                                    (pre +:+ "/" +:+ video_id +:+ more))))
  = video_id.
Proof.
  intros Hslash Hq Hmore.
  change (pre +:+ "/" +:+ video_id +:+ more)
    with (pre +:+ String "/" (video_id +:+ more)).
  rewrite last_seg_after_sep.
  rewrite (split_none "/" (video_id +:+ more)).
  2:{ rewrite has_char_app, Hslash. destruct Hmore as [-> | [_ ->]]; done. }
  cbn [last_seg List.last].
  destruct Hmore as [-> | [Hs _]].
  - rewrite str_app_nil_r, split_none by done. reflexivity.
  - destruct more as [|c more]; [done |]. cbn [starts] in Hs.
    apply Ascii.eqb_eq in Hs as ->. by rewrite split_at_sep.
Qed.

Lemma replace_none (a b : ascii) (s : string) :
  has_char a s = false → replace a b s = s.
Proof.
  induction s as [|c s IH]; cbn [has_char replace]; [done |].
  intros [Hc Hs]%orb_false_iff. by rewrite Hc, (IH Hs).
Qed.

Lemma replace_nonempty (a b : ascii) (s : string) :
  s ≠ EmptyString → replace a b s ≠ EmptyString.
Proof. by destruct s. Qed.

Lemma lstrip_head (p : ascii → bool) (c : ascii) (s : string) :
  p c = false → lstrip p (String c s) = String c s.
Proof. intros Hc. cbn [lstrip]. by rewrite Hc. Qed.

Lemma lstrip_suffix (p : ascii → bool) (s : string) :
  ∃ a, s = a +:+ lstrip p s.
Proof.
  induction s as [|c s [a IH]]; [by exists EmptyString |].
  cbn [lstrip]. destruct (p c).
  - exists (String c a). norm_app. by rewrite <- IH.
  - by exists EmptyString.
Qed.

Lemma contains_suffix (sub a b : string) :
  contains sub b = true → contains sub (a +:+ b) = true.
Proof.
  rewrite !contains_spec. intros (pre & post & ->).
  exists (a +:+ pre), post. by rewrite str_app_assoc.
Qed.

Lemma contains_needs_char (c : ascii) (sub s : string) :
  has_char c sub = true → has_char c s = false → contains sub s = false.
Proof.
  intros Hsub Hs. destruct (contains sub s) eqn:Hc; [|done].
  apply contains_spec in Hc as (pre & post & ->).
  rewrite !has_char_app, Hsub in Hs. by rewrite orb_true_r in Hs.
Qed.

Lemma id_char_facts (c : ascii) :
  id_char c = true →
  reserved c = false ∧ Ascii.eqb c "/" = false ∧ Ascii.eqb c "?" = false
  ∧ Ascii.eqb c "." = false.
Proof.
  destruct c as [[] [] [] [] [] [] [] []]; vm_compute; intros Hc;
    try discriminate; repeat split.
Qed.

Lemma id_text_facts (s : string) :
  id_text s = true →
  s ≠ EmptyString ∧ unreserved s = true ∧ has_char "/" s = false
  ∧ has_char "?" s = false ∧ has_char "." s = false.
Proof.
  unfold id_text. intros [Hne Hs]%andb_true_iff.
  split; [by destruct s |]. clear Hne.
  induction s as [|c s IH]; [done |].
  cbn [chars list_ascii_of_string forallb] in Hs.
  apply andb_true_iff in Hs as [Hc Hs].
  destruct (IH Hs) as (Hu & H1 & H2 & H3).
  destruct (id_char_facts c Hc) as (Hr & Hc1 & Hc2 & Hc3).
  unfold unreserved, chars in *. cbn [list_ascii_of_string forallb has_char].
  by rewrite Hr, Hu, Hc1, Hc2, Hc3, H1, H2, H3.
Qed.

(** An identifier of at most 250 letters, digits, [_] and [-] makes the
    name of a file. *)
Lemma id_text_file_name (s : string) :
  id_text s = true → String.length s ≤ 250 →
  file_name (s +:+ ".json") = true.
Proof.
  intros Hid Hlen.
  destruct (id_text_facts s Hid) as (Hne & _ & Hslash & _ & Hdot).
  assert (Hnul : has_char nul s = false).
  { unfold id_text in Hid. apply andb_true_iff in Hid as [_ Hs]. clear -Hs.
    induction s as [|c s IH]; [done |].
    cbn [chars list_ascii_of_string forallb] in Hs.
    apply andb_true_iff in Hs as [Hc Hs]. cbn [has_char].
    rewrite (IH Hs), orb_false_r. clear -Hc.
    destruct c as [[] [] [] [] [] [] [] []]; first [discriminate Hc | done]. }
  unfold file_name, too_long, NAME_MAX.
  rewrite !has_char_app, Hslash, Hnul, str_length_app. cbn [has_char].
  destruct s as [|c s]; [done |]. rewrite str_app_cons.
  cbn [has_char] in Hdot. apply orb_false_iff in Hdot as [Hc _].
  cbn [is_empty String.eqb orb]. rewrite Hc. cbn [orb negb andb].
  apply andb_true_iff. split; [|done]. apply negb_true_iff, Nat.ltb_ge.
  cbn [String.length] in *. lia.
Qed.

Lemma host_char_facts (c : ascii) :
  host_char c = true →
  unsafe_url_byte c = false ∧ has_char c "/?#" = false
  ∧ Ascii.eqb c "[" = false ∧ Ascii.eqb c "]" = false ∧ isascii c = true.
Proof.
  destruct c as [[] [] [] [] [] [] [] []]; vm_compute; intros Hc;
    try discriminate; repeat split.
Qed.

Section parser_further.
Context `{PyLib}.

Lemma host_text_facts (host : string) :
  host_text host = true →
  remove unsafe_url_byte host = host ∧ netloc_ok host = true.
Proof.
  intros Hh.
  assert (Hall : remove unsafe_url_byte host = host
                 ∧ has_char "[" host = false ∧ has_char "]" host = false
                 ∧ all_ascii host = true).
  { unfold host_text, all_ascii, chars in *.
    induction host as [|c host IH]; [done |].
    cbn [list_ascii_of_string forallb] in Hh.
    apply andb_true_iff in Hh as [Hc Hh].
    destruct (IH Hh) as (H1 & H2 & H3 & H4).
    destruct (host_char_facts c Hc) as (Hc1 & _ & Hc3 & Hc4 & Hc5).
    cbn [remove has_char list_ascii_of_string forallb].
    by rewrite Hc1, Hc3, Hc4, Hc5, H1, H2, H3, H4. }
  destruct Hall as (H1 & H2 & H3 & H4). split; [exact H1 |].
  unfold netloc_ok. rewrite H2, H3, H4. cbn. by rewrite orb_true_r.
Qed.

Lemma splitnetloc_found (a b n r : string) (c : ascii) :
  splitnetloc a = (n, String c r) →
  splitnetloc (a +:+ b) = (n, String c r +:+ b).
Proof.
  revert n. induction a as [|x a IH]; intros n; cbn [splitnetloc]; [done |].
  norm_app. cbn [splitnetloc]. destruct (has_char x "/?#").
  - by intros [= <- <- <-].
  - destruct (splitnetloc a) as [n1 r1] eqn:E. intros [= <- ->].
    by rewrite (IH n1 eq_refl).
Qed.

Lemma split_scheme_suffix (url : string) :
  ∃ a, url = a +:+ (split_scheme url).2.
Proof.
  unfold split_scheme.
  destruct (split1 ":" url) as [[|c before] [after |]] eqn:E;
    try by exists EmptyString.
  destruct (isascii c && (is_lower c || is_upper c)
            && forallb scheme_char (chars (String c before)));
    [|by exists EmptyString].
  exists (String c before +:+ ":"). cbn [snd].
  rewrite (split1_join _ _ _ _ E). by rewrite str_app_assoc.
Qed.

(** Without two slashes in a row there is no network location. *)
Lemma urlparse_no_netloc (url : string) :
  contains "//" (remove unsafe_url_byte url) = false →
  ∃ parsed, urlparse url = Some parsed ∧ netloc parsed = EmptyString.
Proof.
  intros Hno. unfold urlparse.
  set (u := remove unsafe_url_byte (lstrip c0_control_or_space url)).
  assert (Hu : ∀ a b, u = a +:+ b → contains "//" b = false).
  { intros a b Hab. destruct (contains "//" b) eqn:Hb; [|done].
    destruct (lstrip_suffix c0_control_or_space url) as [pre Hpre].
    rewrite Hpre, remove_app in Hno. fold u in Hno. rewrite Hab in Hno.
    rewrite contains_suffix in Hno; [done |]. by apply contains_suffix. }
  destruct (split_scheme_suffix u) as [a Ha].
  destruct (split_scheme u) as [sch rest]. cbn [snd] in Ha.
  pose proof (Hu _ _ Ha) as Hrest.
  assert (Hnet : match rest with
                 | String "/" (String "/" r) => splitnetloc r
                 | _ => (EmptyString, rest)
                 end = (EmptyString, rest)).
  { destruct rest as [|c1 rest']; [reflexivity |].
    destruct (Ascii.eqb_spec c1 "/") as [-> | Hc1].
    2:{ destruct c1 as [[] [] [] [] [] [] [] []]; try reflexivity. done. }
    destruct rest' as [|c2 r]; [reflexivity |].
    destruct (Ascii.eqb_spec c2 "/") as [-> | Hc2].
    2:{ destruct c2 as [[] [] [] [] [] [] [] []]; try reflexivity. done. }
    cbn in Hrest. done. }
  rewrite Hnet.
  destruct (split1 "#" rest) as [u1 [f |]];
    destruct (split1 "?" u1) as [u2 [q |]];
    destruct (bool_decide (sch ∈ uses_params) && has_char ";" u2);
    try destruct (splitparams u2);
    change (netloc_ok EmptyString) with true; cbv iota;
    eexists; split; reflexivity.
Qed.

(** A network location like [host] ends at the slash that follows it. *)
Lemma splitnetloc_host (host rest : string) :
  host_text host = true →
  splitnetloc (host +:+ String "/" rest) = (host, String "/" rest).
Proof.
  unfold host_text, chars.
  induction host as [|c host IH]; norm_app; [reflexivity |].
  cbn [list_ascii_of_string forallb splitnetloc].
  intros [Hc Hh]%andb_true_iff.
  destruct (host_char_facts c Hc) as (_ & -> & _). by rewrite (IH Hh).
Qed.

Lemma urlparse_watch (host video_id more : string) :
  host_text host = true → unreserved video_id = true →
  ∃ parsed,
    urlparse ("https://" +:+ host +:+ "/watch?v=" +:+ video_id +:+ more)
    = Some parsed
    ∧ netloc parsed = host
    ∧ query parsed
      = "v=" +:+ video_id
             +:+ (split1 "#" (remove unsafe_url_byte more)).1.
Proof.
  intros Hh Hu. unfold urlparse.
  destruct (host_text_facts host Hh) as (Hremove & Hok).
  rewrite str_app_cons, lstrip_head, <- str_app_cons by reflexivity.
  rewrite !remove_app, Hremove, (unreserved_remove video_id) by done.
  change (remove unsafe_url_byte "https://") with "https://".
  change (remove unsafe_url_byte "/watch?v=") with "/watch?v=".
  set (rest := remove unsafe_url_byte more).
  unfold split_scheme.
  rewrite (split1_found ":" "https://" _ "https" "//") by reflexivity.
  change (isascii "h" && (is_lower "h" || is_upper "h")
          && forallb scheme_char (chars "https")) with true.
  change (lower "https") with "https".
  cbv iota beta.
  change ("//" +:+ host +:+ "/watch?v=" +:+ video_id +:+ rest)
    with (String "/" (String "/"
            (host +:+ String "/" ("watch?v=" +:+ video_id +:+ rest)))).
  cbv iota beta. rewrite splitnetloc_host by done.
  change (String "/" ("watch?v=" +:+ video_id +:+ rest))
    with ("/watch?v=" +:+ video_id +:+ rest).
  rewrite (split1_not_found "#" "/watch?v=") by reflexivity.
  rewrite (split1_not_found "#" video_id)
    by (apply unreserved_has_char; [done | reflexivity]).
  destruct (split1 "#" rest) as [m1 frag] eqn:Hm. cbn [fst snd].
  assert (Hq : split1 "?" ("/watch?v=" +:+ video_id +:+ m1)
               = ("/watch", Some ("v=" +:+ video_id +:+ m1))).
  { by rewrite (split1_found "?" "/watch?v=" _ "/watch" "v="). }
  destruct frag as [f |]; cbv iota beta; rewrite Hq; cbv iota beta;
    change (bool_decide ("https" ∈ uses_params) && has_char ";" "/watch")
      with false;
    rewrite Hok; cbv iota beta; eexists; (split; [reflexivity |]);
    split; reflexivity.
Qed.

Lemma parse_qs_fold (qs : string) :
  parse_qs qs = foldl qs_step ∅ (parse_qsl qs).
Proof. reflexivity. Qed.

(** The first value of a name stays the first. *)
Lemma qs_fold_first (pairs : list (string * string))
    (m : gmap string (list string)) (k v : string) (vs : list string) :
  m !! k = Some (v :: vs) →
  ∃ vs', foldl qs_step m pairs !! k = Some (v :: vs').
Proof.
  revert m vs. induction pairs as [|[n x] pairs IH]; intros m vs Hm.
  - by exists vs.
  - cbn [foldl qs_step]. destruct (decide (n = k)) as [-> | Hne].
    + apply (IH _ (vs ++ [x])). rewrite lookup_insert_eq, Hm. reflexivity.
    + apply (IH _ vs). by rewrite lookup_insert_ne.
Qed.

Lemma qs_fold_values (P : string → Prop) (pairs : list (string * string))
    (m : gmap string (list string)) :
  Forall (λ nv, P nv.2) pairs →
  (∀ k vs, m !! k = Some vs → Forall P vs) →
  ∀ k vs, foldl qs_step m pairs !! k = Some vs → Forall P vs.
Proof.
  revert m. induction pairs as [|[n x] pairs IH]; intros m Hp Hm; [exact Hm |].
  apply Forall_cons in Hp as [Hx Hp]. cbn [foldl qs_step]. apply IH; [done |].
  intros k vs. destruct (decide (n = k)) as [-> | Hne].
  - rewrite lookup_insert_eq. intros [= <-]. apply Forall_app. split.
    + destruct (m !! k) as [l |] eqn:E; [by apply (Hm k) | constructor].
    + by constructor.
  - rewrite lookup_insert_ne by done. apply Hm.
Qed.

Lemma parse_qsl_first (field rest : string) :
  has_char "&" field = false →
  parse_qsl (field +:+ String "&" rest)
  = parse_qsl field ++ parse_qsl rest.
Proof.
  intros Hf. unfold parse_qsl. rewrite split_at_sep by done.
  rewrite (split_none "&" field) by done. cbn [flat_map].
  by rewrite List.app_nil_r.
Qed.

Lemma parse_qsl_v (video_id : string) :
  video_id ≠ EmptyString → unreserved video_id = true →
  parse_qsl ("v=" +:+ video_id) = [("v", video_id)].
Proof.
  intros Hne Hu. unfold parse_qsl.
  rewrite split_none.
  2:{ rewrite has_char_app, (unreserved_has_char "&" video_id) by done.
      reflexivity. }
  cbn [flat_map]. rewrite (split1_found "=" "v=" video_id "v" EmptyString) by done.
  rewrite str_app_nil_l, List.app_nil_r.
  destruct video_id as [|c s]; [done |]. cbn [is_empty].
  unfold unquote.
  rewrite (replace_none "+" " " (String c s))
    by by apply unreserved_has_char.
  rewrite (unreserved_has_char "%" (String c s)) by done.
  reflexivity.
Qed.

Lemma parse_qsl_values (qs : string) :
  (∀ s, s ≠ EmptyString → unquote_escaped s ≠ EmptyString) →
  Forall (λ nv, nv.2 ≠ EmptyString) (parse_qsl qs).
Proof.
  intros Hlib. unfold parse_qsl. apply Forall_flat_map, Forall_forall.
  intros field _. destruct (split1 "=" field) as [n [v |]]; [|constructor].
  destruct v as [|c v]; [constructor |]. cbn [is_empty].
  constructor; [|constructor]. cbn [snd]. unfold unquote.
  destruct (has_char "%" _); [apply Hlib |]; by apply replace_nonempty.
Qed.

Lemma contains_https_prefix (rest : string) :
  contains "youtu.be" ("https://" +:+ rest) = contains "youtu.be" rest.
Proof. norm_app. reflexivity. Qed.

Lemma contains_www_prefix (rest : string) :
  contains "youtu.be" ("www.youtube.com" +:+ "/watch?v=" +:+ rest)
  = contains "youtu.be" rest.
Proof. norm_app. reflexivity. Qed.

(** What is left of [more] in the query: nothing, or further fields. *)
Lemma fragment_cut (more : string) :
  more = EmptyString ∨ starts "&" more = true ∨ starts "#" more = true →
  (split1 "#" (remove unsafe_url_byte more)).1 = EmptyString
  ∨ ∃ q, (split1 "#" (remove unsafe_url_byte more)).1 = String "&" q.
Proof.
  intros [-> | [Hs | Hs]].
  - by left.
  - destruct more as [|c more]; [done |]. cbn [starts] in Hs.
    apply Ascii.eqb_eq in Hs as ->. right. cbn [remove].
    change (unsafe_url_byte "&") with false. cbv iota. cbn [split1].
    change (Ascii.eqb "&" "#") with false. cbv iota.
    destruct (split1 "#" (remove unsafe_url_byte more)) as [a b].
    by exists a.
  - destruct more as [|c more]; [done |]. cbn [starts] in Hs.
    apply Ascii.eqb_eq in Hs as ->. left. cbn [remove].
    change (unsafe_url_byte "#") with false. cbv iota. cbn [split1].
    rewrite Ascii.eqb_refl. reflexivity.
Qed.

(** The first field of the query is the first value of [v]. *)
Lemma watch_query_first (video_id fields : string) :
  video_id ≠ EmptyString → unreserved video_id = true →
  fields = EmptyString ∨ (∃ q, fields = String "&" q) →
  ∃ values,
    parse_qs ("v=" +:+ video_id +:+ fields) !! "v"
    = Some (video_id :: values).
Proof.
  intros Hne Hu Hfields. rewrite parse_qs_fold.
  assert (Hl : ∃ pairs, parse_qsl ("v=" +:+ video_id +:+ fields)
                        = ("v", video_id) :: pairs).
  { destruct Hfields as [-> | [q ->]].
    - exists []. rewrite str_app_nil_r. by apply parse_qsl_v.
    - exists (parse_qsl q). rewrite <- str_app_assoc.
      rewrite parse_qsl_first.
      + by rewrite parse_qsl_v.
      + rewrite has_char_app.
        by rewrite (unreserved_has_char "&" video_id). }
  destruct Hl as [pairs ->]. cbn [foldl qs_step].
  rewrite lookup_empty. cbn [default app].
  apply (qs_fold_first pairs (<["v" := [video_id]]> ∅) "v" video_id []).
  apply lookup_insert_eq.
Qed.

End parser_further.


(** ** The handler *)

Section handler_further.
Context `{PyLib} `{Services}.

Lemma handler_no_attribute (args : pyobj) (e : exn) (w : world) :
  attr_video_url args = Raise e →
  download_closed_captions args w = (Raise e, after_mkdir w []).
Proof.
  intros Ha. unfold download_closed_captions.
  cbv beta iota zeta delta [mbind mret M_bind M_ret lift mkdir].
  rewrite Ha. reflexivity.
Qed.

Lemma handler_attribute (args : pyobj) (url : string) (w : world) :
  attr_video_url args = Ok url →
  download_closed_captions args w
  = download_closed_captions (closed_captions_args url) w.
Proof.
  intros Ha. unfold download_closed_captions.
  cbv beta iota zeta delta [mbind mret M_bind M_ret lift mkdir].
  rewrite Ha. reflexivity.
Qed.

Lemma handler_outcome (args : pyobj) (w : world) :
  outcome args w (download_closed_captions args w).
Proof.
  destruct (attr_video_url args) as [url | e] eqn:Ha.
  2:{ rewrite (handler_no_attribute _ _ _ Ha). by constructor. }
  rewrite (handler_attribute _ _ _ Ha).
  destruct (_parse_youtube_url url) as [[|c id] |] eqn:Hp.
  - rewrite handler_unrecognized by by right. by constructor.
  - set (video_id := String c id) in *.
    rewrite (handler_run url video_id) by done. cbv zeta.
    set (file := video_id +:+ ".json") in *.
    destruct (negb (has_char nul file) && name_too_long file);
      [by eapply not_looked_for |].
    destruct (cache_files w !! file) as [data |] eqn:Hf; [by eapply hit |].
    unfold fetched. cbv zeta. fold file.
    destruct (get_transcript _ _) as [t | e]; [|by eapply miss_failed].
    destruct (truthy t) eqn:Ht; [|by eapply miss_failed].
    destruct (is_list t) eqn:Hl; [|by eapply miss_failed].
    cbn [negb orb]. unfold json_dumps.
    destruct (within_limits t); [|by eapply miss_failed].
    destruct (has_char nul file); [by eapply write_failed |].
    destruct (path_error _ file); [by eapply write_failed |].
    by eapply miss_written.
  - rewrite handler_unrecognized by by left. by constructor.
Qed.

(** Two invocations for URLs of one video, the first on a miss that the
    service answers with a list. *)
Lemma handler_twice (url1 url2 video_id : string) (transcript : pyval)
    (w : world) :
  _parse_youtube_url url1 = Some video_id →
  _parse_youtube_url url2 = Some video_id →
  video_id ≠ EmptyString →
  file_name (video_id +:+ ".json") = true →
  cache_files w !! (video_id +:+ ".json") = None →
  get_transcript (trace w ++ [EvMkdir; EvExists (video_id +:+ ".json")])
                 video_id
  = Ok transcript →
  truthy transcript = true → is_list transcript = true →
  plain transcript = true →
  let file := video_id +:+ ".json" in
  let first := download_closed_captions (closed_captions_args url1) w in
  let second := download_closed_captions (closed_captions_args url2) first.2 in
  first.1 = render transcript
  ∧ second.1 = first.1
  ∧ cache_files second.2 = <[file := dumps transcript]> (cache_files w)
  ∧ trace second.2
    = trace w ++ [EvMkdir; EvExists file; EvFetch video_id; EvWrite file;
                  EvMkdir; EvExists file; EvRead file].
Proof.
  intros Hp1 Hp2 Hne Hname Hmiss Hfetch Ht Hl Hplain. cbv zeta.
  set (file := video_id +:+ ".json") in *.
  assert (Hfirst : download_closed_captions (closed_captions_args url1) w
            = (render transcript,
               {| cache_dir := true;
                  cache_files := <[file := dumps transcript]> (cache_files w);
                  trace := trace w ++ [EvMkdir; EvExists file;
                                       EvFetch video_id; EvWrite file] |})).
  { rewrite (handler_miss url1 video_id) by done.
    cbv zeta. fold file. rewrite Hfetch, Ht, Hl, json_dumps_plain by done.
    reflexivity. }
  rewrite Hfirst. cbn [fst snd].
  rewrite (handler_hit url2 video_id (dumps transcript)); try done.
  - cbv zeta. fold file. rewrite served_dumps by done.
    cbn [fst snd after_mkdir cache_files trace].
    repeat split. rewrite <- List.app_assoc. reflexivity.
  - cbn [cache_files]. apply lookup_insert_eq.
Qed.

End handler_further.

(** ** The registry and binding *)

Lemma dict_of_snoc (pairs : list (string * Tool)) (p : string * Tool) :
  dict_of (pairs ++ [p]) = <[p.1 := p.2]> (dict_of pairs).
Proof. unfold dict_of. by rewrite foldl_app. Qed.

(** A key of [dict(pairs)] holds the value of the last pair with that key. *)
Lemma dict_of_lookup (pairs : list (string * Tool)) (k : string) (t : Tool) :
  dict_of pairs !! k = Some t → (k, t) ∈ pairs.
Proof.
  induction pairs as [|p pairs IH] using rev_ind.
  - unfold dict_of. cbn. by rewrite lookup_empty.
  - rewrite dict_of_snoc. destruct (decide (p.1 = k)) as [<- | Hne].
    + rewrite lookup_insert_eq. intros [= <-]. apply elem_of_app. right.
      destruct p. by apply list_elem_of_singleton.
    + rewrite lookup_insert_ne by done. intros Hk. apply elem_of_app.
      left. by apply IH.
Qed.

Lemma dict_of_member (pairs : list (string * Tool)) (k : string) (t : Tool) :
  (k, t) ∈ pairs → (∀ t', (k, t') ∈ pairs → t' = t) →
  dict_of pairs !! k = Some t.
Proof.
  induction pairs as [|p pairs IH] using rev_ind; [by intros ?%elem_of_nil |].
  intros Hin Huniq. rewrite dict_of_snoc.
  destruct (decide (p.1 = k)) as [<- | Hne].
  - rewrite lookup_insert_eq. f_equal. apply Huniq.
    apply elem_of_app. right. destruct p. by apply list_elem_of_singleton.
  - rewrite lookup_insert_ne by done. apply IH.
    + apply elem_of_app in Hin as [Hin | Hin]; [done |].
      apply list_elem_of_singleton in Hin. by subst p.
    + intros t' Ht'. apply Huniq. apply elem_of_app. by left.
Qed.

Lemma enumerate_members_elem (members : list (string * pyclass))
    (k : string) (t : Tool) :
  (k, t) ∈ enumerate_members members
  ↔ ∃ c, c ∈ map snd members ∧ is_tool_class c = true
         ∧ k = cls_name c ∧ t = tool_description c.
Proof.
  unfold enumerate_members. rewrite list_elem_of_fmap. split.
  - intros (c & [= -> ->] & Hc). apply list_elem_of_filter in Hc as [Ht Hc].
    exists c. repeat split; [done |]. by apply Is_true_true.
  - intros (c & Hc & Ht & -> & ->). exists c. split; [reflexivity |].
    apply list_elem_of_filter. split; [by apply Is_true_true | done].
Qed.

Section binding.
Context `{Services}.

Lemma validate_field_ok (data : list (string * pyval)) (f : field) :
  (∃ kv, validate_field data f = inl kv)
  ↔ ∃ s, assoc (field_name f) data = Some (PStr s).
Proof.
  unfold validate_field. destruct (field_annotation f).
  destruct (assoc (field_name f) data) as [[]|]; split;
    try (intros [? ?]; discriminate); eauto.
Qed.

Lemma rights_nil {A B} (l : list (A + B)) :
  rights l = [] ↔ Forall (λ x, ∃ a, x = inl a) l.
Proof.
  unfold rights. induction l as [|[a | b] l IH]; cbn [omap list_omap].
  - split; [constructor | done].
  - rewrite IH. split; [intros Hl; constructor; eauto |].
    by intros [_ Hl]%Forall_cons.
  - split; [done |]. intros [[a Ha] _]%Forall_cons. discriminate.
Qed.

(** The constructor of a model succeeds exactly when every field is there
    as a string. *)
Lemma model_init_ok (cls : pyclass) (data : list (string * pyval)) :
  (∃ i, model_init cls data = Ok i)
  ↔ Forall (λ f, ∃ s, assoc (field_name f) data = Some (PStr s))
           (cls_fields cls).
Proof.
  unfold model_init.
  destruct (rights (map (validate_field data) (cls_fields cls)))
    as [|e errors] eqn:E.
  - split; [|eauto]. intros _. apply rights_nil in E.
    apply Forall_forall. intros f Hf. apply validate_field_ok.
    rewrite Forall_forall in E. destruct (E (validate_field data f)) as [a Ha].
    + apply list_elem_of_fmap. by exists f.
    + by exists a.
  - split; [intros [? ?]; discriminate |]. intros Hall. exfalso.
    assert (Hr : rights (map (validate_field data) (cls_fields cls)) = []).
    { apply rights_nil, Forall_fmap, Forall_forall. intros f Hf.
      rewrite Forall_forall in Hall.
      destruct (proj2 (validate_field_ok data f) (Hall f Hf)) as [kv Hkv].
      by exists kv. }
    congruence.
Qed.

End binding.


(** * The claims *)

Import PyStr PyStrFacts Json JsonFacts Urllib.




(** C2 (amended).  The parser returns the identifier of the three documented
    URLs and none for [https://example.com/video]; and it returns none for
    every URL that neither holds the text [youtu.be] anywhere nor has
    [youtube.com] in its network location together with a [v] parameter of a
    non-empty value in its query, and for no other URL. *)
Theorem C2_parse_youtube_url `{PyLib} :
  _parse_youtube_url "https://www.youtube.com/watch?v=dQw4w9WgXcQ"
  = Some "dQw4w9WgXcQ"
  ∧ _parse_youtube_url "https://youtu.be/dQw4w9WgXcQ" = Some "dQw4w9WgXcQ"
  ∧ _parse_youtube_url "https://www.youtube.com/watch?v=dQw4w9WgXcQ&t=123"
    = Some "dQw4w9WgXcQ"
  ∧ _parse_youtube_url "https://example.com/video" = None
  ∧ ∀ url,
      _parse_youtube_url url = None
      ↔ contains "youtu.be" url = false
        ∧ ∀ parsed,
            urlparse url = Some parsed →
            contains "youtube.com" (netloc parsed) = true →
            parse_qs (query parsed) !! "v" = None.
Proof.
  repeat (split; [reflexivity |]).
  intros url. unfold _parse_youtube_url.
  destruct (contains "youtu.be" url); [split; [done | by intros [? _]] |].
  destruct (urlparse url) as [parsed |]; [|split; [done | done]].
  destruct (contains "youtube.com" (netloc parsed)) eqn:Hn.
  - destruct (parse_qs (query parsed) !! "v") as [[|v vs] |] eqn:Hv.
    + by apply parse_qs_values in Hv.
    + split; [done |]. intros [_ Hq]. specialize (Hq parsed eq_refl Hn).
      congruence.
    + split; [|done]. intros _. split; [done |]. by intros ? [= <-] _.
  - split; [|done]. intros _. split; [done |]. intros ? [= <-] Hc. congruence.
Qed.

(** C2 as it was stated fails on a URL of another host that holds
    [youtu.be] in its path: read by the host it is neither of the two forms,
    and the parser returns an identifier for it. *)
Lemma C2_counterexample :
  @spec_short_link_form example_lib "https://example.com/youtu.be/abc" = false
  ∧ @spec_canonical_form example_lib "https://example.com/youtu.be/abc" = false
  ∧ @_parse_youtube_url example_lib "https://example.com/youtu.be/abc"
    = Some "abc".
Proof. repeat split; reflexivity. Qed.

(** C2 (amended) on the fourth documented URL. *)
Lemma C2_witness :
  contains "youtu.be" "https://example.com/video" = false
  ∧ @_parse_youtube_url example_lib "https://example.com/video" = None.
Proof.
  split; [reflexivity |].
  apply (proj2 (proj2 (proj2 (proj2 (@C2_parse_youtube_url example_lib))))).
  split; [reflexivity |].
  intros parsed [= <-]. discriminate.
Defined.

(** C3.  The first enumeration yields one pair, for [DownloadClosedCaptions],
    named by the identifier of the class, and [mapping] holds exactly it.
    The second call returns the same generator object, which has nothing
    left to yield. *)
Theorem C3_enumeration_is_consumed_once :
  let '(g1, st1) := enumerate_available_tools interp_start in
  let '(first, st2) := exhaust g1 st1 in
  let '(g2, st3) := enumerate_available_tools st2 in
  let '(second, _) := exhaust g2 st3 in
  first = [ (cls_name DownloadClosedCaptions,
             tool_description DownloadClosedCaptions) ]
  ∧ mapping !! "DownloadClosedCaptions"
    = Some (tool_description DownloadClosedCaptions)
  ∧ g2 = g1
  ∧ second = [].
Proof. vm_compute. repeat split; reflexivity. Qed.

(** C4.  When binding raises [e], and when the call of the runner raises
    [e], the dispatcher logs the failure and raises one [RuntimeError] whose
    message holds the message of [e]; and an exception that leaves
    [call_tool] is such a wrapper, or one of the two errors [call_tool]
    raises itself before it binds anything. *)
Theorem C4_exceptions_are_wrapped `{PyLib} `{Services} :
  (∀ name tool kwargs w e,
     mapping !! name = Some tool →
     tool_args tool kwargs = Raise e →
     call_tool name (PDict kwargs) w
     = (Raise (wrapped e), emit (EvLog ("Error running tool: " +:+ name)) w)
     ∧ contains (exn_str e) (exn_str (wrapped e)) = true)
  ∧ (∀ name tool kwargs w args e w1,
       mapping !! name = Some tool →
       tool_args tool kwargs = Ok args →
       tool_runner [OSession; OInstance args] w = (Raise e, w1) →
       call_tool name (PDict kwargs) w
       = (Raise (wrapped e),
          emit (EvLog ("Error running tool: " +:+ name)) w1)
       ∧ contains (exn_str e) (exn_str (wrapped e)) = true)
  ∧ (∀ name arguments w e w',
       call_tool name arguments w = (Raise e, w') →
       (∃ e0, e = wrapped e0)
       ∨ (is_dict arguments = false
          ∧ e = {| exn_type := TypeError;
                   exn_str := "arguments must be dictionary" |})
       ∨ (mapping !! name = None
          ∧ e = {| exn_type := ValueError;
                   exn_str := "Unknown tool: " +:+ name |})).
Proof.
  split; [|split].
  - intros name tool kwargs w e Hm Hb.
    rewrite (call_tool_registered name tool) by done. rewrite Hb.
    split; [reflexivity | apply wrapped_contains].
  - intros name tool kwargs w args e w1 Hm Hb Hr.
    rewrite tool_runner_with_session in Hr. injection Hr as <- <-.
    rewrite (call_tool_registered name tool) by done. rewrite Hb.
    split; [reflexivity | apply wrapped_contains].
  - intros name arguments w e w' Hc.
    destruct arguments as [| | | | | |kwargs];
      try (right; left; injection Hc as <- <-; by split).
    destruct (mapping !! name) as [tool |] eqn:Hm.
    + rewrite (call_tool_registered name tool) in Hc by done.
      injection Hc as <- <-. left. eauto.
    + unfold call_tool in Hc. rewrite Hm in Hc. injection Hc as <- <-.
      right. right. by split.
Qed.

(** C4 on a call for the registered tool with no arguments: binding raises
    the validation error, and the dispatcher raises its wrapper. *)
Lemma C4_witness :
  mapping !! "DownloadClosedCaptions"
  = Some (tool_description DownloadClosedCaptions)
  ∧ @tool_args example_services (tool_description DownloadClosedCaptions) []
    = Raise {| exn_type := ValidationError;
               exn_str := "1 validation error for DownloadClosedCaptions" |}
  ∧ @call_tool example_lib example_services "DownloadClosedCaptions"
      (PDict []) fresh_world
    = (Raise {| exn_type := RuntimeError;
                exn_str := "Caught Exception. Error: "
                           +:+ "1 validation error for DownloadClosedCaptions" |},
       emit (EvLog "Error running tool: DownloadClosedCaptions") fresh_world).
Proof.
  split; [apply mapping_lookup |]. split; [reflexivity |].
  destruct (proj1 (@C4_exceptions_are_wrapped example_lib example_services)
              "DownloadClosedCaptions"
              (tool_description DownloadClosedCaptions) [] fresh_world
              {| exn_type := ValidationError;
                 exn_str := "1 validation error for DownloadClosedCaptions" |})
    as [Hcall _]; [apply mapping_lookup | reflexivity | exact Hcall].
Defined.

(** C5.  A call for a name that is not in [mapping], with any dict of
    arguments, raises the unknown-tool error and leaves the world as it
    was: nothing is bound, no handler runs, nothing is logged, no file is
    touched and the service is not called. *)
Theorem C5_unknown_tool `{PyLib} `{Services}
    (name : string) (kwargs : list (string * pyval)) (w : world) :
  mapping !! name = None →
  call_tool name (PDict kwargs) w
  = (throw ValueError ("Unknown tool: " +:+ name), w).
Proof. intros Hm. unfold call_tool. rewrite Hm. reflexivity. Qed.

(** C5 on a name that is not registered. *)
Lemma C5_witness :
  mapping !! "Summarize" = None
  ∧ @call_tool example_lib example_services "Summarize"
      (PDict [("video_url", PStr "https://youtu.be/dQw4w9WgXcQ")]) fresh_world
    = (throw ValueError "Unknown tool: Summarize", fresh_world).
Proof.
  split; [apply mapping_lookup |].
  apply (@C5_unknown_tool example_lib example_services). apply mapping_lookup.
Defined.

(** C6 (amended).  For the tool of [mapping] and raw arguments without a key
    called [tool]: binding fails with a validation error when [video_url] is
    missing and when its value is not a string; otherwise it succeeds, with
    the field holding that string, whatever other keys the arguments have:
    keys that name no field are ignored.  Arguments that are not a dict are
    refused by [call_tool] with a [TypeError], before any binding. *)
Theorem C6_binding `{PyLib} `{Services} :
  mapping !! "DownloadClosedCaptions"
  = Some (tool_description DownloadClosedCaptions)
  ∧ (∀ kwargs,
       assoc "tool" kwargs = None →
       tool_args (tool_description DownloadClosedCaptions) kwargs
       = match assoc "video_url" kwargs with
         | Some (PStr s) =>
             Ok {| inst_class := DownloadClosedCaptions;
                   inst_fields := [("video_url", PStr s)] |}
         | Some _ =>
             throw ValidationError
                   (validation_error_str "DownloadClosedCaptions"
                      [("video_url", "string_type")] kwargs)
         | None =>
             throw ValidationError
                   (validation_error_str "DownloadClosedCaptions"
                      [("video_url", "missing")] kwargs)
         end)
  ∧ (∀ name arguments w,
       is_dict arguments = false →
       call_tool name arguments w
       = (throw TypeError "arguments must be dictionary", w)).
Proof.
  split; [by rewrite mapping_lookup |]. split.
  - intros kwargs Ht. unfold tool_args. rewrite Ht.
    cbn [name tool_description cls_name DownloadClosedCaptions].
    change (assoc "DownloadClosedCaptions" getmembers_isclass)
      with (Some DownloadClosedCaptions).
    unfold model_init.
    cbn [cls_fields DownloadClosedCaptions map]. unfold validate_field.
    cbn [field_name field_annotation].
    destruct (assoc "video_url" kwargs) as [[]|]; reflexivity.
  - intros name arguments w Hd. destruct arguments; try reflexivity.
    discriminate.
Qed.

(** C6 as it was stated fails on arguments with a key that names no field:
    they bind, and the key is dropped. *)
Lemma C6_counterexample :
  @tool_args example_services (tool_description DownloadClosedCaptions)
    [("video_url", PStr "https://youtu.be/dQw4w9WgXcQ");
     ("language", PStr "en")]
  = Ok {| inst_class := DownloadClosedCaptions;
          inst_fields :=
            [("video_url", PStr "https://youtu.be/dQw4w9WgXcQ")] |}.
Proof. reflexivity. Qed.

(** C6 (amended) on a [video_url] that is a number. *)
Lemma C6_witness :
  assoc "tool" [("video_url", PInt 7)] = None
  ∧ @tool_args example_services (tool_description DownloadClosedCaptions)
      [("video_url", PInt 7)]
    = throw ValidationError "1 validation error for DownloadClosedCaptions".
Proof.
  split; [reflexivity |].
  apply (proj1 (proj2 (@C6_binding example_lib example_services))
           [("video_url", PInt 7)]).
  reflexivity.
Defined.

(** C7 (amended).  For every URL from which no identifier is extracted (none
    at all, or the empty one), the handler fails with the unrecognized-URL
    error; the service is not called and no cache file is looked for, read
    or written: the files are as they were.  The one thing done is the
    [mkdir] that precedes the parsing, which leaves the cache directory in
    existence. *)
Theorem C7_unrecognized_url `{PyLib} `{Services} (url : string) (w : world) :
  _parse_youtube_url url = None
  ∨ _parse_youtube_url url = Some EmptyString →
  let out := download_closed_captions (closed_captions_args url) w in
  out.1 = throw ValueError ("Unrecognized YouTube URL: " +:+ url)
  ∧ cache_files out.2 = cache_files w
  ∧ trace out.2 = trace w ++ [EvMkdir]
  ∧ fetch_calls (trace out.2) = fetch_calls (trace w)
  ∧ cache_dir out.2 = true.
Proof.
  intros Hp out. unfold out. rewrite handler_unrecognized by done.
  cbn [fst snd after_mkdir cache_files trace cache_dir].
  repeat split. rewrite fetch_calls_app. cbn. lia.
Qed.

(** C7 as it was stated fails in a world without a cache directory: after
    the failed call the directory exists. *)
Lemma C7_counterexample :
  cache_dir fresh_world = false
  ∧ cache_dir
      (@download_closed_captions example_lib example_services
         (closed_captions_args "https://example.com/video") fresh_world).2
    = true.
Proof. split; reflexivity. Qed.

(** C7 (amended) on a URL of another site. *)
Lemma C7_witness :
  @_parse_youtube_url example_lib "https://example.com/video" = None
  ∧ (let out :=
       @download_closed_captions example_lib example_services
         (closed_captions_args "https://example.com/video") fresh_world in
     out.1 = throw ValueError
               "Unrecognized YouTube URL: https://example.com/video"
     ∧ cache_files out.2 = cache_files fresh_world
     ∧ trace out.2 = trace fresh_world ++ [EvMkdir]
     ∧ fetch_calls (trace out.2) = fetch_calls (trace fresh_world)
     ∧ cache_dir out.2 = true).
Proof.
  split; [reflexivity |].
  apply (@C7_unrecognized_url example_lib example_services
           "https://example.com/video" fresh_world).
  left. reflexivity.
Defined.

(** C8 (amended).  For the prompt [YoutubeVideoSummary]: with arguments that
    hold a non-empty [yt_url] the result is a single user message whose text
    holds that URL; with arguments that hold no [yt_url], with arguments
    whose [yt_url] is the empty string, and with no arguments, it fails
    with the missing-argument error.  For every other name it fails with
    the unknown-prompt error. *)
Theorem C8_get_prompt :
  (∀ (args : gmap string string) url,
     args !! "yt_url" = Some url → url ≠ EmptyString →
     ∃ text,
       get_prompt "YoutubeVideoSummary" (Some args)
       = Ok [ {| role := "user";
                 content := {| type := "text"; text := text |} |} ]
       ∧ contains url text = true)
  ∧ (∀ args : gmap string string,
       args !! "yt_url" = None →
       get_prompt "YoutubeVideoSummary" (Some args)
       = throw ValueError "yt_url is required")
  ∧ (∀ args : gmap string string,
       args !! "yt_url" = Some EmptyString →
       get_prompt "YoutubeVideoSummary" (Some args)
       = throw ValueError "yt_url is required")
  ∧ get_prompt "YoutubeVideoSummary" None
    = throw ValueError "yt_url is required"
  ∧ (∀ name args,
       name ≠ "YoutubeVideoSummary" →
       get_prompt name args = throw ValueError ("Unknown prompt: " +:+ name)).
Proof.
  split; [|split; [|split; [|split]]].
  - intros args url Hu Hne. exists (prompt_text url).
    unfold get_prompt. cbn [String.eqb]. 
    change (String.eqb "YoutubeVideoSummary" "YoutubeVideoSummary") with true.
    cbv match. case_bool_decide as He.
    + subst. by rewrite lookup_empty in Hu.
    + rewrite Hu. destruct url as [|c url]; [done |].
      split; [reflexivity |]. apply contains_spec.
      exists "Create a summary of the video ". eexists. reflexivity.
  - intros args Hu. unfold get_prompt.
    change (String.eqb "YoutubeVideoSummary" "YoutubeVideoSummary") with true.
    cbv match. case_bool_decide; [reflexivity | by rewrite Hu].
  - intros args Hu. unfold get_prompt.
    change (String.eqb "YoutubeVideoSummary" "YoutubeVideoSummary") with true.
    cbv match. case_bool_decide; [reflexivity | by rewrite Hu].
  - reflexivity.
  - intros name args Hne. unfold get_prompt.
    destruct (String.eqb_spec name "YoutubeVideoSummary"); [done | reflexivity].
Qed.

(** C8 as it was stated fails for the empty URL: the arguments hold
    [yt_url], and the call fails as if they did not. *)
Lemma C8_counterexample :
  ({[ "yt_url" := EmptyString ]} : gmap string string) !! "yt_url"
  = Some EmptyString
  ∧ get_prompt "YoutubeVideoSummary" (Some {[ "yt_url" := EmptyString ]})
    = throw ValueError "yt_url is required".
Proof. split; vm_compute; reflexivity. Qed.

(** C8 (amended) on the documented short link. *)
Lemma C8_witness :
  ({[ "yt_url" := "https://youtu.be/dQw4w9WgXcQ" ]} : gmap string string)
    !! "yt_url"
  = Some "https://youtu.be/dQw4w9WgXcQ"
  ∧ ∃ text,
      get_prompt "YoutubeVideoSummary"
        (Some {[ "yt_url" := "https://youtu.be/dQw4w9WgXcQ" ]})
      = Ok [ {| role := "user";
                content := {| type := "text"; text := text |} |} ]
      ∧ contains "https://youtu.be/dQw4w9WgXcQ" text = true.
Proof.
  split; [apply lookup_singleton_eq |].
  apply (proj1 C8_get_prompt); [apply lookup_singleton_eq | discriminate].
Defined.

(** C9.  The short-link branch is chosen by the text [youtu.be] anywhere in
    the URL, whatever the host.  For every such URL the parser returns the
    text after the last slash, cut before the first question mark in it; the
    branch comes first, so a [youtube.com] URL with a [v] parameter that
    also holds [youtu.be] is read as a short link; and for
    [https://youtu.be/] the identifier is the empty string, which the
    handler rejects as an unrecognized URL. *)
Theorem C9_short_link_by_substring `{PyLib} `{Services} :
  (∀ url,
     contains "youtu.be" url = true →
     ∃ video_id pre post,
       _parse_youtube_url url = Some video_id
       ∧ url = pre +:+ video_id +:+ post
       ∧ (pre = EmptyString ∨ ∃ p, pre = p +:+ "/")
       ∧ (post = EmptyString ∨ ∃ q, post = "?" +:+ q)
       ∧ has_char "/" (video_id +:+ post) = false
       ∧ has_char "?" video_id = false)
  ∧ _parse_youtube_url "https://example.com/youtu.be/abc" = Some "abc"
  ∧ _parse_youtube_url "https://www.youtube.com/watch?v=abc&feature=youtu.be"
    = Some "watch"
  ∧ _parse_youtube_url "https://youtu.be/" = Some EmptyString
  ∧ ∀ w,
      download_closed_captions (closed_captions_args "https://youtu.be/") w
      = (throw ValueError "Unrecognized YouTube URL: https://youtu.be/",
         after_mkdir w []).
Proof.
  split; [|repeat (split; [reflexivity |])].
  - intros url Hc. unfold _parse_youtube_url. rewrite Hc.
    destruct (short_link_segment url) as (pre & post & Hshape).
    eexists _, pre, post. split; [reflexivity | exact Hshape].
  - intros w. apply handler_unrecognized. by right.
Qed.

(** C9 on a short link with a query. *)
Lemma C9_witness :
  contains "youtu.be" "https://youtu.be/dQw4w9WgXcQ?t=1" = true
  ∧ ∃ video_id pre post,
      @_parse_youtube_url example_lib "https://youtu.be/dQw4w9WgXcQ?t=1"
      = Some video_id
      ∧ "https://youtu.be/dQw4w9WgXcQ?t=1" = pre +:+ video_id +:+ post
      ∧ (pre = EmptyString ∨ ∃ p, pre = p +:+ "/")
      ∧ (post = EmptyString ∨ ∃ q, post = "?" +:+ q)
      ∧ has_char "/" (video_id +:+ post) = false
      ∧ has_char "?" video_id = false.
Proof.
  split; [reflexivity |].
  apply (proj1 (@C9_short_link_by_substring example_lib example_services)).
  reflexivity.
Defined.



(** * Further properties of the code *)

(** The dispatcher never reaches the transcript handler.  [call_tool] hands
    the session to [tool_runner] as its first positional argument, the
    dispatch is on the class of that argument, and the default
    implementation it selects takes one argument, not two.  So a call for
    the registered tool whose arguments bind ends in the wrapper of that
    [TypeError], a call whose arguments do not bind in the wrapper of the
    binding error, and in both cases the only thing done is the log entry:
    no file is touched and the service is not called. *)
Theorem call_tool_never_runs_the_handler `{PyLib} `{Services}
    (kwargs : list (string * pyval)) (w : world) :
  ∃ e,
    call_tool "DownloadClosedCaptions" (PDict kwargs) w
    = (Raise (wrapped e),
       emit (EvLog "Error running tool: DownloadClosedCaptions") w)
    ∧ match tool_args (tool_description DownloadClosedCaptions) kwargs with
      | Ok _ => e = two_arguments_error
      | Raise e' => e = e'
      end.
Proof.
  rewrite (call_tool_registered "DownloadClosedCaptions"
             (tool_description DownloadClosedCaptions))
    by apply mapping_lookup.
  cbv zeta. eexists. split; [reflexivity |].
  by destruct (tool_args _ kwargs).
Qed.

(** The watch URL of an identifier gives the identifier back, for every
    host that holds [youtube.com].  For a host written with letters, digits,
    [-], [_] and dots that has the text [youtube.com] somewhere in it, be it
    [www.youtube.com], [m.youtube.com] or a host of another domain, and for
    every non-empty [video_id] that holds none of [#], [&], [%], [+], tab,
    CR and LF, the URL [https://host/watch?v=video_id] parses to [video_id];
    so it does when more follows, be it further parameters after an [&] (a
    second [v] among them: the first one wins) or a fragment after a [#],
    as long as the text [youtu.be] does not occur. *)
Theorem watch_url_round_trip `{PyLib} (host video_id more : string) :
  host_text host = true → contains "youtube.com" host = true →
  video_id ≠ EmptyString → unreserved video_id = true →
  more = EmptyString ∨ starts "&" more = true ∨ starts "#" more = true →
  contains "youtu.be" (host +:+ "/watch?v=" +:+ video_id +:+ more) = false →
  _parse_youtube_url
    ("https://" +:+ host +:+ "/watch?v=" +:+ video_id +:+ more)
  = Some video_id.
Proof.
  intros Hh Hyt Hne Hu Hmore Hshort. unfold _parse_youtube_url.
  rewrite contains_https_prefix, Hshort.
  destruct (urlparse_watch host video_id more Hh Hu)
    as (parsed & -> & -> & ->).
  rewrite Hyt. cbv iota.
  destruct (watch_query_first video_id _ Hne Hu (fragment_cut more Hmore))
    as [values ->].
  reflexivity.
Qed.

(** The round trip on a mobile URL with a second [v], a time and a
    fragment. *)
Lemma watch_url_round_trip_example :
  host_text "m.youtube.com" = true
  ∧ unreserved "dQw4w9WgXcQ" = true
  ∧ @_parse_youtube_url example_lib
      "https://m.youtube.com/watch?v=dQw4w9WgXcQ&v=other&t=123#top"
    = Some "dQw4w9WgXcQ".
Proof.
  split; [reflexivity |]. split; [reflexivity |].
  apply (@watch_url_round_trip example_lib "m.youtube.com" "dQw4w9WgXcQ"
           "&v=other&t=123#top");
    [reflexivity | reflexivity | discriminate | reflexivity
    | right; left; reflexivity | reflexivity].
Defined.

(** The short link of an identifier gives the identifier back.  For every
    URL that holds the text [youtu.be] and ends in a slash, a [video_id]
    without [/] and [?] and, maybe, a query without a slash, the parser
    returns [video_id]: so it does for [https://youtu.be/] followed by
    [video_id]. *)
Theorem short_link_round_trip `{PyLib} (pre video_id more : string) :
  contains "youtu.be" (pre +:+ "/" +:+ video_id +:+ more) = true →
  has_char "/" video_id = false → has_char "?" video_id = false →
  more = EmptyString
  ∨ (starts "?" more = true ∧ has_char "/" more = false) →
  _parse_youtube_url (pre +:+ "/" +:+ video_id +:+ more) = Some video_id.
Proof.
  intros Hc Hslash Hq Hmore. unfold _parse_youtube_url. rewrite Hc.
  f_equal. by apply short_link_pieces.
Qed.

(** The round trip on a short link with a time. *)
Lemma short_link_round_trip_example :
  contains "youtu.be" "https://youtu.be/dQw4w9WgXcQ?t=42" = true
  ∧ has_char "/" "dQw4w9WgXcQ" = false
  ∧ has_char "?" "dQw4w9WgXcQ" = false
  ∧ @_parse_youtube_url example_lib "https://youtu.be/dQw4w9WgXcQ?t=42"
    = Some "dQw4w9WgXcQ".
Proof.
  split; [reflexivity |]. split; [reflexivity |]. split; [reflexivity |].
  apply (@short_link_round_trip example_lib "https://youtu.be"
           "dQw4w9WgXcQ" "?t=42");
    [reflexivity | reflexivity | reflexivity | right; split; reflexivity].
Defined.

(** A short link that ends in a slash is unrecognized.  When a URL that
    holds [youtu.be] has nothing after its last slash, or a query right
    after it, the identifier is the empty string and the handler fails with
    the unrecognized-URL error, without a look at the cache and without a
    call of the service: so it does for a short link written with a
    trailing slash. *)
Theorem short_link_with_trailing_slash_is_unrecognized `{PyLib} `{Services}
    (pre more : string) (w : world) :
  contains "youtu.be" (pre +:+ "/" +:+ more) = true →
  more = EmptyString
  ∨ (starts "?" more = true ∧ has_char "/" more = false) →
  let url := pre +:+ "/" +:+ more in
  _parse_youtube_url url = Some EmptyString
  ∧ download_closed_captions (closed_captions_args url) w
    = (throw ValueError ("Unrecognized YouTube URL: " +:+ url),
       after_mkdir w []).
Proof.
  intros Hc Hmore. cbv zeta.
  assert (Hp : _parse_youtube_url (pre +:+ "/" +:+ more) = Some EmptyString).
  { unfold _parse_youtube_url. rewrite Hc. f_equal.
    by apply (short_link_pieces pre EmptyString more). }
  split; [exact Hp |]. apply handler_unrecognized. by right.
Qed.

(** The short link of the documentation with a slash at its end. *)
Lemma short_link_with_trailing_slash_example :
  contains "youtu.be" "https://youtu.be/dQw4w9WgXcQ/" = true
  ∧ @_parse_youtube_url example_lib "https://youtu.be/dQw4w9WgXcQ/"
    = Some EmptyString
  ∧ @download_closed_captions example_lib example_services
      (closed_captions_args "https://youtu.be/dQw4w9WgXcQ/") fresh_world
    = (throw ValueError
             "Unrecognized YouTube URL: https://youtu.be/dQw4w9WgXcQ/",
       after_mkdir fresh_world []).
Proof.
  split; [reflexivity |].
  apply (@short_link_with_trailing_slash_is_unrecognized example_lib
           example_services "https://youtu.be/dQw4w9WgXcQ" EmptyString
           fresh_world);
    [reflexivity | left; reflexivity].
Defined.

(** A URL without [//] is not recognised.  [urlparse] finds a network
    location only after two slashes, so a URL that holds none (once the
    tabs, CRs and LFs that [urlsplit] deletes are gone) and that does not
    hold the text [youtu.be] gives no identifier: a watch URL written
    without its scheme is unrecognized. *)
Theorem url_without_double_slash_is_unrecognized `{PyLib} (url : string) :
  contains "youtu.be" url = false →
  contains "//" (remove unsafe_url_byte url) = false →
  _parse_youtube_url url = None.
Proof.
  intros Hshort Hno. unfold _parse_youtube_url. rewrite Hshort.
  destruct (urlparse_no_netloc url Hno) as (parsed & -> & ->).
  reflexivity.
Qed.

(** A watch URL written without its scheme. *)
Lemma url_without_double_slash_example :
  contains "youtu.be" "www.youtube.com/watch?v=dQw4w9WgXcQ" = false
  ∧ contains "//" (remove unsafe_url_byte "www.youtube.com/watch?v=dQw4w9WgXcQ")
    = false
  ∧ @_parse_youtube_url example_lib "www.youtube.com/watch?v=dQw4w9WgXcQ"
    = None.
Proof.
  split; [reflexivity |]. split; [reflexivity |].
  apply (@url_without_double_slash_is_unrecognized example_lib);
    reflexivity.
Defined.

(** The [youtube.com] branch gives no empty identifier.  [parse_qs] drops
    the parameters with an empty value, so, with a percent-decoder that
    maps no non-empty text to the empty one, an identifier found in the
    query of a URL without [youtu.be] is not empty: in that branch the
    handler's unrecognized-URL error means that no identifier was found. *)
Theorem canonical_identifier_is_not_empty `{PyLib} (url video_id : string) :
  (∀ s, s ≠ EmptyString → unquote_escaped s ≠ EmptyString) →
  contains "youtu.be" url = false →
  _parse_youtube_url url = Some video_id → video_id ≠ EmptyString.
Proof.
  intros Hlib Hshort. unfold _parse_youtube_url. rewrite Hshort.
  destruct (urlparse url) as [parsed |]; [|done].
  destruct (contains "youtube.com" (netloc parsed)); [|done].
  destruct (parse_qs (query parsed) !! "v") as [[|v vs] |] eqn:Hv; try done.
  intros [= <-]. rewrite parse_qs_fold in Hv.
  assert (Hall : Forall (λ v, v ≠ EmptyString) (v :: vs)).
  { apply (qs_fold_values (λ v, v ≠ EmptyString)
             (parse_qsl (query parsed)) ∅ (parse_qsl_values _ Hlib))
      with (k := "v"); [|exact Hv].
    intros k l Hk. by rewrite lookup_empty in Hk. }
  by apply Forall_cons in Hall as [Hne _].
Qed.

(** A query whose first [v] is empty: the second one is the identifier. *)
Lemma canonical_identifier_example :
  @_parse_youtube_url example_lib "https://m.youtube.com/watch?v=&v=abc"
  = Some "abc"
  ∧ "abc" ≠ EmptyString.
Proof.
  split; [reflexivity |].
  apply (@canonical_identifier_is_not_empty example_lib
           "https://m.youtube.com/watch?v=&v=abc" "abc");
    [intros s Hs; exact Hs | reflexivity | reflexivity].
Defined.

(** The two URL forms of one video share one cache file.  For an
    identifier of at most 250 letters, digits, [_] and [-]: when the handler
    has served the short link on a miss, with a non-empty list of records
    from the service, an invocation for the watch URL of the same
    identifier reads the file the first one wrote: it returns the same
    result and does not call the service. *)
Theorem url_forms_share_cache `{PyLib} `{Services}
    (video_id : string) (items : list pyval) (w : world) :
  id_text video_id = true → String.length video_id ≤ 250 →
  cache_files w !! (video_id +:+ ".json") = None →
  get_transcript (trace w ++ [EvMkdir; EvExists (video_id +:+ ".json")])
                 video_id
  = Ok (PList items) →
  items ≠ [] → forallb record items = true →
  let first :=
    download_closed_captions
      (closed_captions_args ("https://youtu.be/" +:+ video_id)) w in
  let second :=
    download_closed_captions
      (closed_captions_args ("https://www.youtube.com/watch?v=" +:+ video_id))
      first.2 in
  second.1 = first.1
  ∧ cache_files second.2 = cache_files first.2
  ∧ fetch_calls (trace second.2) = fetch_calls (trace w) + 1.
Proof.
  intros Hid Hlen Hmiss Hfetch Hitems Hrec.
  pose proof (id_text_file_name video_id Hid Hlen) as Hname.
  pose proof (records_plain items Hrec) as Hplain.
  assert (Ht : truthy (PList items) = true) by by destruct items.
  destruct (id_text_facts video_id Hid) as (Hne & Hu & Hslash & Hq & Hdot).
  assert (Hp1 : _parse_youtube_url ("https://youtu.be/" +:+ video_id)
                = Some video_id).
  { unfold _parse_youtube_url.
    change (contains "youtu.be" ("https://youtu.be/" +:+ video_id)) with true.
    cbv iota. f_equal. rewrite <- (str_app_nil_r video_id) at 1.
    apply (short_link_pieces "https://youtu.be"); auto. }
  assert (Hp2 : _parse_youtube_url
                  ("https://www.youtube.com/watch?v=" +:+ video_id)
                = Some video_id).
  { unfold _parse_youtube_url.
    change ("https://www.youtube.com/watch?v=" +:+ video_id)
      with ("https://" +:+ "www.youtube.com" +:+ "/watch?v=" +:+ video_id).
    rewrite contains_https_prefix, contains_www_prefix.
    rewrite (contains_needs_char "." "youtu.be" video_id) by done.
    rewrite <- (str_app_nil_r video_id) at 1.
    destruct (urlparse_watch "www.youtube.com" video_id EmptyString)
      as (parsed & -> & -> & ->); [reflexivity | done |].
    change (contains "youtube.com" "www.youtube.com") with true. cbv iota.
    destruct (watch_query_first video_id EmptyString Hne Hu) as [values Hv];
      [by left |].
    cbn [remove split1 fst]. by rewrite Hv. }
  destruct (handler_twice _ _ video_id (PList items) w Hp1 Hp2)
    as (H1 & H2 & H3 & H4); try done.
  cbv zeta in *. split; [exact H2 |]. split.
  - rewrite H3. rewrite (handler_miss _ video_id) by done. cbv zeta.
    rewrite Hfetch, Ht, json_dumps_plain by done. reflexivity.
  - rewrite H4. rewrite fetch_calls_app. cbn. lia.
Qed.

(** The short link, then the watch URL, of the documented video. *)
Lemma url_forms_share_cache_example :
  id_text "dQw4w9WgXcQ" = true
  ∧ String.length "dQw4w9WgXcQ" ≤ 250
  ∧ (let first :=
       @download_closed_captions example_lib example_services
         (closed_captions_args "https://youtu.be/dQw4w9WgXcQ") fresh_world in
     let second :=
       @download_closed_captions example_lib example_services
         (closed_captions_args "https://www.youtube.com/watch?v=dQw4w9WgXcQ")
         first.2 in
     second.1 = first.1
     ∧ cache_files second.2 = cache_files first.2
     ∧ fetch_calls (trace second.2) = fetch_calls (trace fresh_world) + 1).
Proof.
  split; [reflexivity |]. split; [cbn; lia |].
  apply (@url_forms_share_cache example_lib example_services
           "dQw4w9WgXcQ"
           [ PDict [("text", PStr "never gonna"); ("start", PFloat "0.0");
                    ("duration", PFloat "1.5")];
             PDict [("text", PStr "give you up"); ("start", PFloat "1.5");
                    ("duration", PFloat "2.25")] ]
           fresh_world);
    first [reflexivity | discriminate | cbn; lia].
Defined.



(** The handler never deletes or rewrites a cache file.  Whatever the
    argument and however the invocation ends, every file of the cache is
    there afterwards with the text it had; at most one file is new, the one
    named after the identifier, and it holds the JSON text of a non-empty
    list; and the cache directory exists. *)
Theorem handler_keeps_files `{PyLib} `{Services} (args : pyobj) (w : world) :
  let w' := (download_closed_captions args w).2 in
  (∀ file data,
     cache_files w !! file = Some data → cache_files w' !! file = Some data)
  ∧ (cache_files w' = cache_files w
     ∨ ∃ url video_id transcript,
         attr_video_url args = Ok url
         ∧ _parse_youtube_url url = Some video_id
         ∧ cache_files w !! (video_id +:+ ".json") = None
         ∧ truthy transcript = true ∧ is_list transcript = true
         ∧ cache_files w'
           = <[video_id +:+ ".json" := dumps transcript]> (cache_files w))
  ∧ cache_dir w' = true.
Proof.
  cbv zeta. destruct (handler_outcome args w)
    as [e Ha | url Ha | url video_id e Ha Hp | url video_id data r Ha Hp Hf
        | url video_id e Ha Hp Hf | url video_id e Ha Hp Hf
        | url video_id transcript Ha Hp Hf Ht Hl];
    cbn [snd after_mkdir cache_files cache_dir];
    try (split; [done |]; split; [by left | done]).
  split; [|split; [|done]].
  - intros file data Hfile. rewrite lookup_insert_ne; [done |].
    intros <-. congruence.
  - right. by exists url, video_id, transcript.
Qed.

(** The handler calls the service at most once.  Every invocation begins
    with the [mkdir]; what follows holds at most one call of the service,
    none when the file of the video is in the cache, and exactly one when
    the invocation has changed the cache. *)
Theorem handler_fetches_at_most_once `{PyLib} `{Services}
    (args : pyobj) (w : world) :
  let w' := (download_closed_captions args w).2 in
  (∃ more,
     trace w' = trace w ++ EvMkdir :: more
     ∧ fetch_calls more ≤ 1
     ∧ (cache_files w' ≠ cache_files w → fetch_calls more = 1))
  ∧ (∀ url video_id,
       attr_video_url args = Ok url →
       _parse_youtube_url url = Some video_id →
       is_Some (cache_files w !! (video_id +:+ ".json")) →
       fetch_calls (trace w') = fetch_calls (trace w)).
Proof.
  cbv zeta. destruct (handler_outcome args w)
    as [e Ha | url Ha | url video_id e Ha Hp | url video_id data r Ha Hp Hf
        | url video_id e Ha Hp Hf | url video_id e Ha Hp Hf
        | url video_id transcript Ha Hp Hf Ht Hl];
    cbn [snd after_mkdir cache_files trace].
  - split; [exists []; cbn; split; [done | split; [lia | done]] |].
    intros ? ? Ha'. congruence.
  - split; [exists []; cbn; split; [done | split; [lia | done]] |].
    intros _ _ _ _ _. rewrite fetch_calls_app. cbn. lia.
  - split; [eexists; split; [reflexivity |]; cbn; split; [lia | done] |].
    intros _ _ _ _ _. rewrite fetch_calls_app. cbn. lia.
  - split; [eexists; split; [reflexivity |]; cbn; split; [lia | done] |].
    intros _ _ _ _ _. rewrite fetch_calls_app. cbn. lia.
  - split; [eexists; split; [reflexivity |]; cbn; split; [lia | done] |].
    intros url' id' Ha' Hp' [data Hd]. congruence.
  - split; [eexists; split; [reflexivity |]; cbn; split; [lia | done] |].
    intros url' id' Ha' Hp' [data Hd]. congruence.
  - split; [eexists; split; [reflexivity |]; cbn; split; [lia | done] |].
    intros url' id' Ha' Hp' [data Hd]. congruence.
Qed.





(** A class added to [tools.py] is a tool.  Over any namespace, a class
    that derives from [ToolArgs], is not [ToolArgs] itself and shares its
    name with no other such class is in the dict of the enumeration, under
    its own name and with its own description; and every entry of that
    dict is the description of such a class, under its name.  [mapping] is
    that dict for the namespace of [tools.py]. *)
Theorem tool_classes_are_registered :
  (∀ members c,
     c ∈ map snd members → is_tool_class c = true →
     (∀ d, d ∈ map snd members → is_tool_class d = true →
           cls_name d = cls_name c → d = c) →
     dict_of (enumerate_members members) !! cls_name c
     = Some (tool_description c))
  ∧ (∀ members k t,
       dict_of (enumerate_members members) !! k = Some t →
       name t = k
       ∧ ∃ c, c ∈ map snd members ∧ is_tool_class c = true
              ∧ t = tool_description c)
  ∧ mapping = dict_of (enumerate_members getmembers_isclass).
Proof.
  split; [|split].
  - intros members c Hc Ht Huniq. apply dict_of_member.
    + apply enumerate_members_elem. by exists c.
    + intros t' (d & Hd & Hdt & Hname & ->)%enumerate_members_elem.
      by rewrite (Huniq d Hd Hdt (eq_sym Hname)).
  - intros members k t Hk. apply dict_of_lookup in Hk.
    apply enumerate_members_elem in Hk as (c & Hc & Ht & -> & ->).
    split; [reflexivity |]. by exists c.
  - reflexivity.
Qed.

(** The one tool class of [tools.py]. *)
Lemma tool_classes_are_registered_example :
  is_tool_class DownloadClosedCaptions = true
  ∧ dict_of (enumerate_members getmembers_isclass)
      !! cls_name DownloadClosedCaptions
    = Some (tool_description DownloadClosedCaptions).
Proof.
  split; [reflexivity |].
  apply (proj1 tool_classes_are_registered getmembers_isclass
           DownloadClosedCaptions).
  - vm_compute. do 2 right. left.
  - reflexivity.
  - intros d Hd Ht Hn.
    repeat (apply elem_of_cons in Hd as [-> | Hd]; [try discriminate Ht; try reflexivity |]).
    by apply elem_of_nil in Hd.
Defined.

(** The prompts that are listed are the prompts that are served.
    [get_prompt] fails with the unknown-prompt error exactly for the names
    [list_prompts] does not list; and for arguments given as a dict it
    returns messages exactly when the name is listed and every argument the
    listing marks as required is there with a non-empty value. *)
Theorem prompts_listed_are_served :
  (∀ name args,
     get_prompt name args = throw ValueError ("Unknown prompt: " +:+ name)
     ↔ name ∉ map prompt_name list_prompts)
  ∧ (∀ name (args : gmap string string),
       (∃ messages, get_prompt name (Some args) = Ok messages)
       ↔ ∃ p, p ∈ list_prompts ∧ prompt_name p = name
              ∧ Forall (λ a, argument_required a = true →
                             ∃ value, args !! argument_name a = Some value
                                      ∧ value ≠ EmptyString)
                       (prompt_arguments p)).
Proof.
  split.
  - intros name args. cbn [map list_prompts prompt_name].
    rewrite list_elem_of_singleton. unfold get_prompt.
    destruct (String.eqb_spec name "YoutubeVideoSummary") as [-> | Hne].
    + split; [|done]. intros Hg. exfalso.
      destruct args as [a |]; [|discriminate].
      destruct (bool_decide (a = ∅)); [discriminate |].
      destruct (a !! "yt_url") as [[|c u] |]; discriminate.
    + split; [done | reflexivity].
  - intros name args. unfold get_prompt.
    destruct (String.eqb_spec name "YoutubeVideoSummary") as [-> | Hne].
    + split.
      * intros [messages Hg]. eexists. split; [apply list_elem_of_here |].
        split; [reflexivity |]. constructor; [|constructor].
        intros _. cbn [argument_name]. case_bool_decide; [discriminate |].
        destruct (args !! "yt_url") as [[|c u] |]; try discriminate.
        by exists (String c u).
      * intros (p & Hp & _ & Hall).
        apply list_elem_of_singleton in Hp as ->.
        cbn [prompt_arguments] in Hall. apply Forall_cons in Hall as [Hreq _].
        destruct (Hreq eq_refl) as (value & Hv & Hne). cbn [argument_name] in Hv.
        case_bool_decide as He; [subst; by rewrite lookup_empty in Hv |].
        rewrite Hv. destruct value; [done |]. by eexists.
    + split; [intros [? ?]; discriminate |].
      intros (p & Hp & Hn & _). apply list_elem_of_singleton in Hp as ->.
      cbn in Hn. congruence.
Qed.

(** Called with one argument, [tool_runner] dispatches on its class: for an
    instance of [DownloadClosedCaptions], or of a class that derives from
    it, it is the transcript handler; for an object of any other class it
    raises [NotImplementedError] with the class in the message, and does
    nothing else.  The class is the one [tools.py] defines, whatever other
    class has its name. *)
Theorem tool_runner_dispatches_on_class `{PyLib} `{Services} :
  (∀ i pre post w,
     cls_mro (inst_class i) = pre ++ DownloadClosedCaptions_ref :: post →
     object_ref ∉ pre → DownloadClosedCaptions_ref ∉ pre →
     tool_runner [OInstance i] w = download_closed_captions (OInstance i) w)
  ∧ (∀ a w,
       DownloadClosedCaptions_ref ∉ cls_mro (class_of a) →
       tool_runner [a] w
       = (throw NotImplementedError
                ("Unsupported type: " +:+ class_repr (class_of a)), w)).
Proof.
  assert (Hreg : ∀ c, registered c
                      = if bool_decide (object_ref = c)
                        then Some tool_runner_default
                        else if bool_decide (DownloadClosedCaptions_ref = c)
                        then Some download_closed_captions_impl
                        else None).
  { intros c. unfold registered. cbn [tool_runner_registry List.find fst].
    by repeat case_bool_decide. }
  assert (Hskip : ∀ l : list class_ref,
            object_ref ∉ l → DownloadClosedCaptions_ref ∉ l →
            omap registered l = []).
  { induction l as [|c l IH]; [done |]. intros Ho Hd.
    apply not_elem_of_cons in Ho as [Ho1 Ho2].
    apply not_elem_of_cons in Hd as [Hd1 Hd2].
    cbn [omap list_omap]. rewrite Hreg.
    rewrite !bool_decide_eq_false_2 by done. by apply IH. }
  split.
  - intros i pre post w Hmro Ho Hd. unfold tool_runner, dispatch.
    cbn [class_of]. rewrite Hmro, omap_app, (Hskip pre) by done.
    cbn [omap list_omap app]. rewrite Hreg.
    rewrite bool_decide_eq_false_2 by discriminate.
    rewrite bool_decide_eq_true_2 by done. reflexivity.
  - intros a w Hd. unfold tool_runner, dispatch.
    assert (Hdef : default tool_runner_default
                     (head (omap registered (cls_mro (class_of a))))
                   = tool_runner_default).
    { induction (cls_mro (class_of a)) as [|c l IH]; [reflexivity |].
      apply not_elem_of_cons in Hd as [Hd1 Hd2].
      cbn [omap list_omap]. rewrite Hreg.
      case_bool_decide; [reflexivity |].
      rewrite bool_decide_eq_false_2 by done. by apply IH. }
    rewrite Hdef. reflexivity.
Qed.

(** The session alone, an instance of the tool class alone, and an
    instance of a class of another module that has the name of the tool
    class. *)
Lemma tool_runner_dispatch_example :
  @tool_runner example_lib example_services [OSession] fresh_world
  = (throw NotImplementedError
           "Unsupported type: <class 'mcp.server.session.ServerSession'>",
     fresh_world)
  ∧ @tool_runner example_lib example_services
      [closed_captions_args "https://example.com/video"] fresh_world
    = @download_closed_captions example_lib example_services
        (closed_captions_args "https://example.com/video") fresh_world
  ∧ @tool_runner example_lib example_services
      [OInstance
         {| inst_class :=
              imported "DownloadClosedCaptions" "elsewhere" [object_ref];
            inst_fields := [] |}] fresh_world
    = (throw NotImplementedError
             "Unsupported type: <class 'elsewhere.DownloadClosedCaptions'>",
       fresh_world).
Proof.
  split; [|split].
  - apply (proj2 (@tool_runner_dispatches_on_class example_lib
                    example_services) OSession fresh_world).
    vm_compute. intros Hin.
    repeat (apply elem_of_cons in Hin as [Hin | Hin]; [discriminate |]).
    by apply elem_of_nil in Hin.
  - apply (proj1 (@tool_runner_dispatches_on_class example_lib
                    example_services)
             {| inst_class := DownloadClosedCaptions;
                inst_fields := [("video_url",
                                 PStr "https://example.com/video")] |}
             [] [ToolArgs_ref; BaseModel_ref; object_ref] fresh_world);
      [reflexivity | apply not_elem_of_nil | apply not_elem_of_nil].
  - apply (proj2 (@tool_runner_dispatches_on_class example_lib
                    example_services)
             (OInstance
                {| inst_class :=
                     imported "DownloadClosedCaptions" "elsewhere"
                              [object_ref];
                   inst_fields := [] |}) fresh_world).
    vm_compute. intros Hin.
    repeat (apply elem_of_cons in Hin as [Hin | Hin]; [discriminate |]).
    by apply elem_of_nil in Hin.
Defined.

(** A transcript in the cache is served as it is.  When the file of the
    video (its name the name of a file) holds the JSON text of a list of
    caption records, the handler returns their texts joined by spaces, in
    the order of the list; it does not call the service and leaves the
    files as they are.  An empty list in the file gives the empty text. *)
Theorem cached_transcript_is_served `{PyLib} `{Services}
    (url video_id : string) (items : list pyval) (w : world) :
  _parse_youtube_url url = Some video_id → video_id ≠ EmptyString →
  file_name (video_id +:+ ".json") = true →
  forallb caption_record items = true →
  cache_files w !! (video_id +:+ ".json") = Some (dumps (PList items)) →
  let out := download_closed_captions (closed_captions_args url) w in
  out.1 = Ok [ {| type := "text";
                  text := join " " (map caption_text items) |} ]
  ∧ cache_files out.2 = cache_files w
  ∧ fetch_calls (trace out.2) = fetch_calls (trace w).
Proof.
  intros Hp Hne Hname Hrec Hfile. cbv zeta.
  rewrite (handler_hit url video_id _ w Hp Hne Hname Hfile). cbv zeta.
  rewrite served_dumps by by apply caption_records_plain.
  rewrite render_captions by done.
  cbn [fst snd after_mkdir cache_files trace].
  split; [reflexivity |]. split; [reflexivity |].
  rewrite fetch_calls_app. cbn. lia.
Qed.

(** Three records in the cache file, one of them with notes around its
    text. *)
Lemma cached_transcript_is_served_example :
  file_name "dQw4w9WgXcQ.json" = true
  ∧ (let w :=
     {| cache_dir := true;
        cache_files :=
          {[ "dQw4w9WgXcQ.json" :=
               dumps (PList [ PDict [("text", PStr "a")];
                              PDict [("text", PStr "♪ b ♪");
                                     ("start", PFloat "1.5")];
                              PDict [("text", PStr "c")] ]) ]};
        trace := [] |} in
   let out :=
     @download_closed_captions example_lib example_services
       (closed_captions_args "https://youtu.be/dQw4w9WgXcQ") w in
   out.1 = Ok [ {| type := "text"; text := "a ♪ b ♪ c" |} ]
   ∧ cache_files out.2 = cache_files w
   ∧ fetch_calls (trace out.2) = fetch_calls (trace w)).
Proof.
  split; [reflexivity |].
  apply (@cached_transcript_is_served example_lib example_services
           "https://youtu.be/dQw4w9WgXcQ" "dQw4w9WgXcQ"
           [ PDict [("text", PStr "a")];
             PDict [("text", PStr "♪ b ♪"); ("start", PFloat "1.5")];
             PDict [("text", PStr "c")] ]);
    [reflexivity | discriminate | reflexivity | reflexivity
    | apply lookup_singleton_eq].
Defined.



(** What [list_tools] advertises is what [call_tool] knows and what binding
    enforces.  A name is refused as an unknown tool exactly when no listed
    tool has it; and for a listed tool, arguments (without a key called
    [tool]) bind exactly when every property its schema names as required
    is there as a string. *)
Theorem advertised_schema_is_enforced `{PyLib} `{Services} :
  (∀ tool_name kwargs w,
     (call_tool tool_name (PDict kwargs) w).1
     = throw ValueError ("Unknown tool: " +:+ tool_name)
     ↔ tool_name ∉ map name list_tools)
  ∧ (∀ tool kwargs,
       tool ∈ list_tools → assoc "tool" kwargs = None →
       (∃ args, tool_args tool kwargs = Ok args)
       ↔ Forall (λ property,
                   ∃ s, assoc property kwargs = Some (PStr s))
                (schema_required (inputSchema tool))).
Proof.
  assert (Hlist : list_tools = [tool_description DownloadClosedCaptions]).
  { unfold list_tools. rewrite mapping_eq, map_to_list_singleton.
    reflexivity. }
  rewrite Hlist. split.
  - intros tool_name kwargs w. cbn [map]. rewrite list_elem_of_singleton.
    destruct (mapping !! tool_name) as [tool |] eqn:Hm.
    + rewrite (call_tool_registered tool_name tool) by done. cbv zeta.
      cbn [fst]. rewrite mapping_lookup in Hm.
      destruct (String.eqb_spec tool_name "DownloadClosedCaptions") as [-> |];
        [|done].
      split; [discriminate | intros Hn; by destruct Hn].
    + unfold call_tool. rewrite Hm. cbn [fst raise]. split; [|done].
      intros _ ->. by rewrite mapping_lookup in Hm.
  - intros tool kwargs ->%list_elem_of_singleton Hk.
    unfold tool_args. rewrite Hk.
    change (assoc (name (tool_description DownloadClosedCaptions))
                  getmembers_isclass) with (Some DownloadClosedCaptions).
    rewrite model_init_ok.
    cbn [inputSchema tool_description model_json_schema schema_required].
    by rewrite Forall_fmap.
Qed.
